(** * QPay payment front end: a shallow embedding of the client logic

    The repository is a React front end around a remote backend actor.
    This development embeds the parts of it that carry logic:

    - [hooks/useQueries.ts] and its JavaScript variant: the query and
      mutation functions, in a small writer/exception monad that records
      backend calls, toasts and cache invalidations;
    - [components/ProfileSetupModal.jsx]: the submit handler;
    - [pages/UserDashboard.jsx]: [getQRImageUrl], [handlePay] and the
      effects that own the polling and the redirect timers, as a
      transition system; the amount and description of the pay screen;
    - [App.jsx]: the registration effect and its retry loop, and the
      screen [AppContent] renders from what its hooks hold; the earlier
      [App] component beside it;
    - [pages/AdminDashboard.jsx]: the three cards and the two forms;
    - [lib/utils]: [formatTimestamp], over binary64 numbers and the
      ECMAScript calendar.

    Console output is not modelled: it has no influence on control flow. *)

From Stdlib Require Import ZArith NArith List Bool String Ascii Lia.
From Stdlib Require Import SpecFloat DecimalString.
Import ListNotations.

Set Implicit Arguments.

(* ================================================================== *)
(** * JavaScript values *)
(* ================================================================== *)

Module JS.

(** A JavaScript string is a sequence of UTF-16 code units. *)
Definition jsstring := list N.

Definition lit (s : string) : jsstring :=
  map N_of_ascii (list_ascii_of_string s).

Fixpoint str_eqb (a b : jsstring) : bool :=
  match a, b with
  | [], [] => true
  | x :: a', y :: b' => N.eqb x y && str_eqb a' b'
  | _, _ => false
  end.

(** [String.prototype.startsWith] with the default position 0. *)
Fixpoint startsWith (s p : jsstring) {struct p} : bool :=
  match p with
  | [] => true
  | c :: p' =>
      match s with
      | [] => false
      | d :: s' => N.eqb d c && startsWith s' p'
      end
  end.

(** [String.prototype.includes]. *)
Fixpoint includes (s sub : jsstring) : bool :=
  startsWith s sub ||
  match s with
  | [] => false
  | _ :: s' => includes s' sub
  end.

(** WhiteSpace and LineTerminator code points of ECMAScript, the ones
    [String.prototype.trim] strips. All lie in the basic plane. *)
Definition isWhiteSpace (c : N) : bool :=
  ((9 <=? c) && (c <=? 13) || (c =? 32) || (c =? 160) || (c =? 5760)
   || ((8192 <=? c) && (c <=? 8202)) || (c =? 8232) || (c =? 8233)
   || (c =? 8239) || (c =? 8287) || (c =? 12288) || (c =? 65279))%N.

Fixpoint trimStart (s : jsstring) : jsstring :=
  match s with
  | [] => []
  | c :: s' => if isWhiteSpace c then trimStart s' else s
  end.

Definition trimEnd (s : jsstring) : jsstring := rev (trimStart (rev s)).

Definition trim (s : jsstring) : jsstring := trimEnd (trimStart s).

(** Truthiness of a string: only the empty string is falsy. *)
Definition str_truthy (s : jsstring) : bool :=
  match s with [] => false | _ => true end.

(** Numbers are binary64 floating-point values. *)
Definition number := spec_float.
Definition prec : Z := 53.
Definition emax : Z := 1024.

Definition num_truthy (x : number) : bool :=
  match x with
  | S754_zero _ | S754_nan => false
  | _ => true
  end.

(** What [JSON.parse] can produce. An object keeps its members in source
    order; a repeated key takes its last value. *)
#[warnings="-register-all"]
Inductive json :=
| JNull
| JBool (b : bool)
| JNum (x : number)
| JStr (s : jsstring)
| JArr (l : list json)
| JObj (members : list (jsstring * json)).

(** A value read from parsed JSON: a JSON value or [undefined]. *)
Inductive value :=
| VUndefined
| VJson (j : json).

Definition null : value := VJson JNull.

Definition truthy (v : value) : bool :=
  match v with
  | VUndefined => false
  | VJson JNull => false
  | VJson (JBool b) => b
  | VJson (JNum x) => num_truthy x
  | VJson (JStr s) => str_truthy s
  | VJson (JArr _) => true
  | VJson (JObj _) => true
  end.

Fixpoint lookup_member (k : jsstring) (ms : list (jsstring * json))
  : option json :=
  match ms with
  | [] => None
  | (k', j) :: ms' =>
      match lookup_member k ms' with
      | Some j' => Some j'
      | None => if str_eqb k' k then Some j else None
      end
  end.

(** Reading an own data property [j.k] of a parsed JSON value, for a key
    that no prototype defines ([access_token], [invoice_id]): [None] is
    the TypeError of reading a property of [null]. *)
Definition get_prop (j : json) (k : jsstring) : option value :=
  match j with
  | JNull => None
  | JObj ms =>
      Some (match lookup_member k ms with
            | Some j' => VJson j'
            | None => VUndefined
            end)
  | _ => Some VUndefined
  end.

(** An [Error] object, identified by its message. *)
Record Error := mkError { message : jsstring }.

End JS.

Import JS.

(* ================================================================== *)
(** * pages/UserDashboard.jsx: getQRImageUrl *)
(* ================================================================== *)

Definition getQRImageUrl (qrImage : jsstring) : jsstring :=
  if startsWith qrImage (lit "data:") then qrImage
  else lit "data:image/png;base64," ++ qrImage.

(* ================================================================== *)
(** * Effects: backend calls, toasts, cache invalidation, timers *)
(* ================================================================== *)

Module Eff.

(** The backend's role enumeration ([UserRole] of the backend bindings). *)
Inductive UserRole := admin | user | guest.

Record UserProfile := mkProfile { name : jsstring }.

(** A call of a backend actor method, with its arguments. *)
Inductive call :=
| C_getCallerUserProfile
| C_ensureCallerUserRole
| C_getCallerUserRole
| C_saveCallerUserProfile (profile : UserProfile)
| C_isCallerAdmin
| C_getQPayCredentials
| C_getQPayInvoiceConfig
| C_getUserPayments
| C_getAllPayments
| C_getAllInvoices
| C_getUserInvoice
| C_checkForValidInvoice
| C_makeQPayTokenRequest
| C_getValidOrCreateInvoice (token : value)
| C_storeUserInvoice (invoiceId : value) (data : jsstring) (amount : Z)
| C_checkPaymentStatus (token invoiceId : value).

Inductive toast_kind := Info | Success | Failure.

(** What a run leaves behind, in program order. *)
Inductive event :=
| Call (c : call)
| Toast (k : toast_kind) (msg : jsstring)
| Invalidate (queryKey : jsstring)
| MutateRecordPayment (amount : Z) (status : jsstring)
| MutateCheckPaymentStatus (token invoiceId : value)
| SetInterval (id : nat) (ms : Z)
| ClearInterval (id : nat)
| SetTimeout (id : nat) (ms : Z)
| ClearTimeout (id : nat).

(** An awaited computation either returns or throws. *)
Inductive outcome (A : Type) :=
| Return (a : A)
| Throw (e : Error).

Arguments Return {A} a.
Arguments Throw {A} e.

(** The monad of the hooks: the events emitted so far and the outcome. *)
Definition M (A : Type) : Type := list event * outcome A.

Definition ret {A} (a : A) : M A := ([], Return a).

Definition throw {A} (msg : jsstring) : M A := ([], Throw (mkError msg)).

Definition rethrow {A} (e : Error) : M A := ([], Throw e).

Definition lift {A} (o : outcome A) : M A := ([], o).

Definition emit (e : event) : M unit := ([e], Return tt).

Definition bind {A B} (m : M A) (k : A -> M B) : M B :=
  match m with
  | (l, Return a) => let (l', r) := k a in (l ++ l', r)
  | (l, Throw e) => (l, Throw e)
  end.

(** [try { m } catch (error) { h error }]. *)
Definition try_catch {A} (m : M A) (h : Error -> M A) : M A :=
  match m with
  | (l, Return a) => (l, Return a)
  | (l, Throw e) => let (l', r) := h e in (l ++ l', r)
  end.

(** [await actor.method(args)]: the call is recorded, its outcome is the
    backend's. *)
Definition await_call {A} (c : call) (o : outcome A) : M A := ([Call c], o).

Definition trace {A} (m : M A) : list event := fst m.
Definition result {A} (m : M A) : outcome A := snd m.

(** [mutateAsync] of a mutation without retries: the mutation function,
    then the hook's [onSuccess] or [onError], then the outcome. *)
Definition mutateAsync {A} (fn : M A) (onSuccess : A -> M unit)
    (onError : Error -> M unit) : M A :=
  match fn with
  | (l, Return a) => let (l', _) := onSuccess a in (l ++ l', Return a)
  | (l, Throw e) => let (l', _) := onError e in (l ++ l', Throw e)
  end.

End Eff.

Import Eff.

Declare Scope eff_scope.
Delimit Scope eff_scope with eff.
Notation "x <- m ;; k" := (bind m (fun x => k))
  (at level 61, m at next level, right associativity) : eff_scope.
Notation "m ;;; k" := (bind m (fun _ => k))
  (at level 61, right associativity) : eff_scope.
Open Scope eff_scope.

(** The host's [JSON.parse] (a [Throw] is its SyntaxError) and the
    TypeError it raises for reading property [k] of [null]. *)
Record Host := mkHost {
  JSON_parse : jsstring -> outcome json;
  nullPropertyError : jsstring -> Error
}.

(** [JSON.parse(s).k], both steps inside the same [try]. *)
Definition read_prop (host : Host) (j : json) (k : jsstring) : outcome value :=
  match get_prop j k with
  | Some v => Return v
  | None => Throw (nullPropertyError host k)
  end.

(* ================================================================== *)
(** * The backend actor *)
(* ================================================================== *)

Module Backend.

Record QPayInvoiceConfig := mkConfig {
  sender_invoice_no : jsstring;
  invoice_receiver_code : jsstring;
  invoice_description : jsstring;
  config_amount : Z
}.

(** [InvoiceCheckResult]: [invoiceData] and [amount] are optional. *)
Record InvoiceCheckResult := mkCheck {
  hasValidInvoice : bool;
  check_invoiceData : option jsstring;
  check_amount : option Z
}.

Record InvoiceResponse := mkResponse {
  invoiceData : jsstring;
  isNewInvoice : bool;
  amount : Z
}.

Section Actor.

(** Record types of the backend bindings that the hooks only pass on. *)
Variables QPayCredentials PaymentRecord InvoiceRecord : Type.

(** The actor, as far as one run of a hook sees it: the outcome of each
    method, per argument. *)
Record Actor := mkActor {
  getCallerUserProfile : outcome (option UserProfile);
  ensureCallerUserRole : outcome unit;
  getCallerUserRole : outcome UserRole;
  saveCallerUserProfile : UserProfile -> outcome unit;
  isCallerAdmin : outcome bool;
  getQPayCredentials : outcome (option QPayCredentials);
  getQPayInvoiceConfig : outcome QPayInvoiceConfig;
  getUserPayments : outcome (list PaymentRecord);
  getAllPayments : outcome (list PaymentRecord);
  getAllInvoices : outcome (list (jsstring * InvoiceRecord));
  getUserInvoice : outcome (option InvoiceRecord);
  checkForValidInvoice : outcome InvoiceCheckResult;
  makeQPayTokenRequest : outcome jsstring;
  getValidOrCreateInvoice : value -> outcome InvoiceResponse;
  storeUserInvoice : value -> jsstring -> Z -> outcome unit
}.

End Actor.

End Backend.

Import Backend.

(* ================================================================== *)
(** * hooks/useQueries.ts *)
(* ================================================================== *)

Module UseQueries.

Section Hooks.

Variables QPayCredentials PaymentRecord InvoiceRecord : Type.

Local Abbreviation Actor := (Actor QPayCredentials PaymentRecord InvoiceRecord).

(** [useActor()]: the actor, or [null] while it is not available. *)
Variable actor : option Actor.

Definition useGetCallerUserProfile_queryFn : M (option UserProfile) :=
  match actor with
  | None => throw (lit "Actor not available")
  | Some a =>
      try_catch
        (profile <- await_call C_getCallerUserProfile (getCallerUserProfile a) ;;
         ret profile)
        (fun error =>
           if includes (message error) (lit "Unauthorized")
              || includes (message error) (lit "not registered")
           then ret None
           else ret None)
  end.

(** One attempt of the registration mutation. *)
Definition useEnsureUserRegistration_mutationFn : M unit :=
  match actor with
  | None => throw (lit "Actor not available")
  | Some a => await_call C_ensureCallerUserRole (ensureCallerUserRole a)
  end.

Definition useEnsureUserRegistration_retry : nat := 3.

Definition useEnsureUserRegistration_retryDelay (attemptIndex : nat) : Z :=
  Z.min (1000 * 2 ^ Z.of_nat attemptIndex) 5000.

Definition useGetCallerUserRole_queryFn : M UserRole :=
  match actor with
  | None => throw (lit "Actor not available")
  | Some a =>
      try_catch
        (role <- await_call C_getCallerUserRole (getCallerUserRole a) ;;
         ret role)
        (fun _ => ret guest)
  end.

Definition useSaveCallerUserProfile_mutationFn (profile : UserProfile)
  : M unit :=
  match actor with
  | None => throw (lit "Actor not available")
  | Some a =>
      if negb (str_truthy (name profile))
         || negb (str_truthy (trim (name profile)))
      then throw (lit "Name is required")
      else await_call (C_saveCallerUserProfile profile)
             (saveCallerUserProfile a profile)
  end.

Definition useSaveCallerUserProfile_onSuccess : M unit :=
  emit (Invalidate (lit "currentUserProfile")) ;;;
  emit (Invalidate (lit "currentUserRole")) ;;;
  emit (Toast Success (lit "Profile saved successfully")).

Definition useSaveCallerUserProfile_onError (error : Error) : M unit :=
  emit (Toast Failure (lit "Failed to save profile: " ++ message error)).

Definition useIsCallerAdmin_queryFn : M bool :=
  match actor with
  | None => ret false
  | Some a =>
      try_catch (await_call C_isCallerAdmin (isCallerAdmin a))
        (fun _ => ret false)
  end.

Definition useGetQPayCredentials_queryFn : M (option QPayCredentials) :=
  match actor with
  | None => ret None
  | Some a =>
      try_catch (await_call C_getQPayCredentials (getQPayCredentials a))
        (fun error =>
           if includes (message error) (lit "Unauthorized")
           then emit (Toast Failure (lit "Please log in again")) ;;; ret None
           else ret None)
  end.

Definition useGetQPayInvoiceConfig_queryFn : M QPayInvoiceConfig :=
  match actor with
  | None => throw (lit "Actor not available")
  | Some a =>
      try_catch
        (config <- await_call C_getQPayInvoiceConfig (getQPayInvoiceConfig a) ;;
         ret config)
        (fun error =>
           (if includes (message error) (lit "Unauthorized")
            then emit (Toast Failure (lit "Please log in again"))
            else ret tt) ;;;
           rethrow error)
  end.

Definition useGetUserPayments_queryFn : M (list PaymentRecord) :=
  match actor with
  | None => ret []
  | Some a =>
      try_catch (await_call C_getUserPayments (getUserPayments a))
        (fun error =>
           (if includes (message error) (lit "Unauthorized")
            then emit (Toast Failure (lit "Please log in again"))
            else ret tt) ;;;
           ret [])
  end.

Definition useGetAllPayments_queryFn : M (list PaymentRecord) :=
  match actor with
  | None => ret []
  | Some a =>
      try_catch (await_call C_getAllPayments (getAllPayments a))
        (fun error =>
           (if includes (message error) (lit "Unauthorized")
            then emit (Toast Failure (lit "Please log in again"))
            else ret tt) ;;;
           ret [])
  end.

Definition useGetAllInvoices_queryFn : M (list (jsstring * InvoiceRecord)) :=
  match actor with
  | None => ret []
  | Some a =>
      try_catch
        (result <- await_call C_getAllInvoices (getAllInvoices a) ;;
         ret result)
        (fun error =>
           (if includes (message error) (lit "Unauthorized")
            then emit (Toast Failure (lit "Please log in again"))
            else ret tt) ;;;
           ret [])
  end.

(** The description of the fallback configuration,
    [Railway], three Cyrillic letters, [12] and three more. *)
Definition fallback_description : jsstring :=
  lit "Railway " ++ [1101; 1088; 1093]%N ++ lit " 12" ++ [1089; 1072; 1088]%N.

Definition fallback_config : QPayInvoiceConfig :=
  {| sender_invoice_no := lit "12345678";
     invoice_receiver_code := lit "terminal";
     invoice_description := fallback_description;
     config_amount := 10 |}.

Definition useGetInvoiceConfigForUser_queryFn : M (option QPayInvoiceConfig) :=
  match actor with
  | None => ret None
  | Some a =>
      try_catch
        (config <- await_call C_getQPayInvoiceConfig (getQPayInvoiceConfig a) ;;
         ret (Some config))
        (fun _ => ret (Some fallback_config))
  end.

Definition useGetUserInvoice_queryFn : M (option InvoiceRecord) :=
  match actor with
  | None => ret None
  | Some a =>
      try_catch (await_call C_getUserInvoice (getUserInvoice a))
        (fun _ => ret None)
  end.

End Hooks.

End UseQueries.

(* ================================================================== *)
(** * The payment-acquisition flow

    [useMakeQPayPayment] and [useStoreUserInvoice] have the same body in
    [hooks/useQueries.ts] and in its JavaScript variant. *)
(* ================================================================== *)

Module PaymentFlow.

(** What the mutation resolves to. *)
Record PaymentResponse := mkPayment {
  response_invoiceData : jsstring;
  response_token : value;
  response_invoiceId : value
}.

Section Flow.

Variables QPayCredentials PaymentRecord InvoiceRecord : Type.

Local Abbreviation Actor := (Actor QPayCredentials PaymentRecord InvoiceRecord).

Variable host : Host.
Variable actor : option Actor.

Definition useStoreUserInvoice_mutationFn (invoiceId : value)
    (data : jsstring) (amt : Z) : M unit :=
  match actor with
  | None => throw (lit "Actor not available")
  | Some a =>
      await_call (C_storeUserInvoice invoiceId data amt)
        (storeUserInvoice a invoiceId data amt)
  end.

Definition useStoreUserInvoice_onSuccess : M unit :=
  emit (Invalidate (lit "allInvoices")) ;;;
  emit (Invalidate (lit "userInvoice")).

(** [storeInvoice.mutateAsync(...)]; [onError] only logs. *)
Definition storeInvoice_mutateAsync (invoiceId : value) (data : jsstring)
    (amt : Z) : M unit :=
  mutateAsync (useStoreUserInvoice_mutationFn invoiceId data amt)
    (fun _ => useStoreUserInvoice_onSuccess) (fun _ => ret tt).

(** The guard of the reuse branch,
    [hasValidInvoice && invoiceData && amount !== undefined],
    with the two values it makes available. *)
Definition existing_invoice (invoiceCheck : InvoiceCheckResult)
  : option (jsstring * Z) :=
  if hasValidInvoice invoiceCheck then
    match check_invoiceData invoiceCheck with
    | Some data =>
        if str_truthy data then
          match check_amount invoiceCheck with
          | Some amt => Some (data, amt)
          | None => None
          end
        else None
    | None => None
    end
  else None.

(** [JSON.parse(tokenResponse).access_token]. *)
Definition access_token (tokenResponse : jsstring) : M value :=
  tokenData <- lift (JSON_parse host tokenResponse) ;;
  lift (read_prop host tokenData (lit "access_token")).

(** From [const invoiceData = JSON.parse(...)] to the end of the
    mutation function. *)
Definition finish_payment (invoiceResponse : InvoiceResponse)
    (token : value) : M PaymentResponse :=
  parsed <- lift (JSON_parse host (invoiceData invoiceResponse)) ;;
  invoice_id <- lift (read_prop host parsed (lit "invoice_id")) ;;
  (if isNewInvoice invoiceResponse && truthy invoice_id then
     storeInvoice_mutateAsync invoice_id (invoiceData invoiceResponse)
       (amount invoiceResponse) ;;;
     emit (Invalidate (lit "allInvoices")) ;;;
     emit (Invalidate (lit "userInvoice"))
   else ret tt) ;;;
  emit (MutateRecordPayment (amount invoiceResponse) (lit "pending")) ;;;
  ret {| response_invoiceData := invoiceData invoiceResponse;
         response_token := token;
         response_invoiceId := invoice_id |}.

Definition useMakeQPayPayment_mutationFn : M PaymentResponse :=
  match actor with
  | None => throw (lit "Actor not available")
  | Some a =>
      emit (Toast Info (lit "Checking invoice...")) ;;;
      invoiceCheck <- await_call C_checkForValidInvoice
                        (checkForValidInvoice a) ;;
      match existing_invoice invoiceCheck with
      | Some (data, amt) =>
          let invoiceResponse :=
            {| invoiceData := data; isNewInvoice := false; amount := amt |} in
          tokenResponse <- await_call C_makeQPayTokenRequest
                             (makeQPayTokenRequest a) ;;
          token <- try_catch (access_token tokenResponse)
                     (fun _ => ret null) ;;
          finish_payment invoiceResponse token
      | None =>
          emit (Toast Info (lit "Requesting QPay token...")) ;;;
          tokenResponse <- await_call C_makeQPayTokenRequest
                             (makeQPayTokenRequest a) ;;
          token <- try_catch
                     (token <- access_token tokenResponse ;;
                      if negb (truthy token)
                      then throw (lit "Token not found")
                      else ret token)
                     (fun _ => throw (lit "Failed to parse token")) ;;
          emit (Toast Info (lit "Creating new invoice...")) ;;;
          invoiceResponse <- await_call (C_getValidOrCreateInvoice token)
                               (getValidOrCreateInvoice a token) ;;
          finish_payment invoiceResponse token
      end
  end.

Definition useMakeQPayPayment_onSuccess : M unit :=
  emit (Toast Success (lit "Payment request created successfully!")) ;;;
  emit (Invalidate (lit "userInvoiceConfig")).

Definition useMakeQPayPayment_onError (error : Error) : M unit :=
  if includes (message error) (lit "Unauthorized") then
    emit (Toast Failure (lit "Please log in again"))
  else if includes (message error) (lit "QPay credentials not found") then
    emit (Toast Failure
            (lit "QPay credentials not found. Please contact administrator."))
  else emit (Toast Failure (lit "Payment failed: " ++ message error)).

(** [makePayment.mutateAsync()]. *)
Definition makePayment_mutateAsync : M PaymentResponse :=
  mutateAsync useMakeQPayPayment_mutationFn
    (fun _ => useMakeQPayPayment_onSuccess) useMakeQPayPayment_onError.

End Flow.

End PaymentFlow.

(* ================================================================== *)
(** * The JavaScript variant of the hooks *)
(* ================================================================== *)

Module UseQueriesVariant.

Section Hooks.

Variables QPayCredentials PaymentRecord InvoiceRecord : Type.

Local Abbreviation Actor := (Actor QPayCredentials PaymentRecord InvoiceRecord).

Variable actor : option Actor.

Definition useGetCallerUserRole_queryFn : M UserRole :=
  match actor with
  | None => throw (lit "Actor not available")
  | Some a =>
      try_catch
        (role <- await_call C_getCallerUserRole (getCallerUserRole a) ;;
         ret role)
        (fun _ => ret guest)
  end.

Definition fallback_config : QPayInvoiceConfig :=
  {| sender_invoice_no := lit "12345678";
     invoice_receiver_code := lit "terminal";
     invoice_description := lit "Railway subscription 12 months";
     config_amount := 10 |}.

Definition useGetInvoiceConfigForUser_queryFn : M (option QPayInvoiceConfig) :=
  match actor with
  | None => ret (Some fallback_config)
  | Some a =>
      try_catch
        (config <- await_call C_getQPayInvoiceConfig (getQPayInvoiceConfig a) ;;
         ret (Some config))
        (fun _ => ret (Some fallback_config))
  end.

End Hooks.

End UseQueriesVariant.

(* ================================================================== *)
(** * components/ProfileSetupModal.jsx *)
(* ================================================================== *)

Module ProfileSetupModal.

Section Modal.

Variables QPayCredentials PaymentRecord InvoiceRecord : Type.

Variable actor : option (Actor QPayCredentials PaymentRecord InvoiceRecord).

(** [saveProfile.mutate(profile, { onSuccess, onError })]: the mutation
    function, the hook's callbacks, then the callbacks of the call.
    The result is the new value of [showSuccess]. *)
Definition saveProfile_mutate (profile : UserProfile) (showSuccess : bool)
  : list event * bool :=
  match UseQueries.useSaveCallerUserProfile_mutationFn actor profile with
  | (l, Return _) =>
      (l ++ trace (UseQueries.useSaveCallerUserProfile_onSuccess), true)
  | (l, Throw e) =>
      (l ++ trace (UseQueries.useSaveCallerUserProfile_onError e), showSuccess)
  end.

(** [handleSubmit], on the component state [name] and [showSuccess]. *)
Definition handleSubmit (name : jsstring) (showSuccess : bool)
  : list event * bool :=
  if negb (str_truthy (trim name)) then ([], showSuccess)
  else saveProfile_mutate {| Eff.name := trim name |} showSuccess.

End Modal.

End ProfileSetupModal.

(* ================================================================== *)
(** * pages/UserDashboard.jsx: the component as a transition system

    The component state is what [useState] and [useRef] hold.  React is
    modelled as far as the four effects need it: state updates of one
    handler are batched into one render; after a render the cleanups of
    the effects whose dependencies changed run first, then those effects,
    in source order; unmounting runs every registered cleanup; an
    unmounted component ignores state updates.  A dependency changed when
    a setter stored a value that is not the same value ([Object.is]), or,
    for the mutation object [checkPaymentStatus], when the render received
    a new object, which the flag [fresh] of a step tells.

    The browser owns the timers: identifiers are positive and never
    reused. *)
(* ================================================================== *)

Module UserDashboard.

(** The three strings [paymentStatus] takes. *)
Inductive status := pending | checking | paid.

Definition status_eqb (a b : status) : bool :=
  match a, b with
  | pending, pending | checking, checking | paid, paid => true
  | _, _ => false
  end.

Definition sign_eqb (a b : bool) : bool := Bool.eqb a b.

Definition number_same (x y : number) : bool :=
  match x, y with
  | S754_zero s, S754_zero s' => sign_eqb s s'
  | S754_infinity s, S754_infinity s' => sign_eqb s s'
  | S754_nan, S754_nan => true
  | S754_finite s m e, S754_finite s' m' e' =>
      sign_eqb s s' && Pos.eqb m m' && Z.eqb e e'
  | _, _ => false
  end.

(** [Object.is(old, new)] where [new] is a primitive or an object that
    [JSON.parse] has just built: a new object is the same as nothing. *)
Definition same_value (old new : value) : bool :=
  match old, new with
  | VUndefined, VUndefined => true
  | VJson JNull, VJson JNull => true
  | VJson (JBool a), VJson (JBool b) => Bool.eqb a b
  | VJson (JNum x), VJson (JNum y) => number_same x y
  | VJson (JStr a), VJson (JStr b) => str_eqb a b
  | _, _ => false
  end.

Record state := mkState {
  (* useState *)
  invoiceData : value;
  paymentToken : value;
  showQRModal : bool;
  paymentError : option jsstring;
  paymentStatus : status;
  hasCheckedOnLoad : bool;
  (* useRef *)
  pollingIntervalRef : option nat;
  (* React *)
  mounted : bool;
  redirect_dirty : bool;          (* [paymentStatus] changed *)
  polling_dirty : bool;           (* a dependency of the polling effect changed *)
  redirect_cleanup : option nat;  (* the [redirectTimer] its cleanup clears *)
  polling_cleanup : bool;         (* the polling effect returned a cleanup *)
  (* browser *)
  intervals : list (nat * Z);     (* active [setInterval] timers and their delay *)
  timeouts : list (nat * Z);      (* pending [setTimeout] timers *)
  next_timer : nat
}.

(** A handler: the events it emits and the state it leaves. *)
Definition handler := state -> list event * state.

Definition andThen (f g : handler) : handler :=
  fun s => let (l, s') := f s in let (l', s'') := g s' in (l ++ l', s'').

Definition skip : handler := fun s => ([], s).

Definition when (b : state -> bool) (f : handler) : handler :=
  fun s => if b s then f s else ([], s).

(** ** State setters *)

Definition setInvoiceData (v : value) : handler := fun s =>
  if mounted s then
    ([], {| invoiceData := v; paymentToken := paymentToken s;
            showQRModal := showQRModal s; paymentError := paymentError s;
            paymentStatus := paymentStatus s;
            hasCheckedOnLoad := hasCheckedOnLoad s;
            pollingIntervalRef := pollingIntervalRef s;
            mounted := mounted s; redirect_dirty := redirect_dirty s;
            polling_dirty :=
              polling_dirty s || negb (same_value (invoiceData s) v);
            redirect_cleanup := redirect_cleanup s;
            polling_cleanup := polling_cleanup s;
            intervals := intervals s; timeouts := timeouts s;
            next_timer := next_timer s |})
  else ([], s).

Definition setPaymentToken (v : value) : handler := fun s =>
  if mounted s then
    ([], {| invoiceData := invoiceData s; paymentToken := v;
            showQRModal := showQRModal s; paymentError := paymentError s;
            paymentStatus := paymentStatus s;
            hasCheckedOnLoad := hasCheckedOnLoad s;
            pollingIntervalRef := pollingIntervalRef s;
            mounted := mounted s; redirect_dirty := redirect_dirty s;
            polling_dirty :=
              polling_dirty s || negb (same_value (paymentToken s) v);
            redirect_cleanup := redirect_cleanup s;
            polling_cleanup := polling_cleanup s;
            intervals := intervals s; timeouts := timeouts s;
            next_timer := next_timer s |})
  else ([], s).

Definition setPaymentStatus (p : status) : handler := fun s =>
  if mounted s then
    let changed := negb (status_eqb (paymentStatus s) p) in
    ([], {| invoiceData := invoiceData s; paymentToken := paymentToken s;
            showQRModal := showQRModal s; paymentError := paymentError s;
            paymentStatus := p;
            hasCheckedOnLoad := hasCheckedOnLoad s;
            pollingIntervalRef := pollingIntervalRef s;
            mounted := mounted s;
            redirect_dirty := redirect_dirty s || changed;
            polling_dirty := polling_dirty s || changed;
            redirect_cleanup := redirect_cleanup s;
            polling_cleanup := polling_cleanup s;
            intervals := intervals s; timeouts := timeouts s;
            next_timer := next_timer s |})
  else ([], s).

(** The three setters no effect of the timers depends on. *)
Definition setOther (qr : bool) (err : option jsstring) (checked : bool)
  : handler := fun s =>
  if mounted s then
    ([], {| invoiceData := invoiceData s; paymentToken := paymentToken s;
            showQRModal := qr; paymentError := err;
            paymentStatus := paymentStatus s;
            hasCheckedOnLoad := checked;
            pollingIntervalRef := pollingIntervalRef s;
            mounted := mounted s; redirect_dirty := redirect_dirty s;
            polling_dirty := polling_dirty s;
            redirect_cleanup := redirect_cleanup s;
            polling_cleanup := polling_cleanup s;
            intervals := intervals s; timeouts := timeouts s;
            next_timer := next_timer s |})
  else ([], s).

Definition setShowQRModal (b : bool) : handler := fun s =>
  setOther b (paymentError s) (hasCheckedOnLoad s) s.

Definition setPaymentError (e : option jsstring) : handler := fun s =>
  setOther (showQRModal s) e (hasCheckedOnLoad s) s.

Definition setHasCheckedOnLoad (b : bool) : handler := fun s =>
  setOther (showQRModal s) (paymentError s) b s.

(** ** The ref, the browser timers and the bookkeeping of the effects *)

Definition with_browser (ref : option nat) (iv tm : list (nat * Z))
    (next : nat) (s : state) : state :=
  {| invoiceData := invoiceData s; paymentToken := paymentToken s;
     showQRModal := showQRModal s; paymentError := paymentError s;
     paymentStatus := paymentStatus s;
     hasCheckedOnLoad := hasCheckedOnLoad s;
     pollingIntervalRef := ref;
     mounted := mounted s; redirect_dirty := redirect_dirty s;
     polling_dirty := polling_dirty s;
     redirect_cleanup := redirect_cleanup s;
     polling_cleanup := polling_cleanup s;
     intervals := iv; timeouts := tm; next_timer := next |}.

Definition with_react (m rd pd : bool) (rc : option nat) (pc : bool)
    (s : state) : state :=
  {| invoiceData := invoiceData s; paymentToken := paymentToken s;
     showQRModal := showQRModal s; paymentError := paymentError s;
     paymentStatus := paymentStatus s;
     hasCheckedOnLoad := hasCheckedOnLoad s;
     pollingIntervalRef := pollingIntervalRef s;
     mounted := m; redirect_dirty := rd; polling_dirty := pd;
     redirect_cleanup := rc; polling_cleanup := pc;
     intervals := intervals s; timeouts := timeouts s;
     next_timer := next_timer s |}.

Definition remove_timer (id : nat) (l : list (nat * Z)) : list (nat * Z) :=
  filter (fun t => negb (Nat.eqb (fst t) id)) l.

Definition active (id : nat) (l : list (nat * Z)) : bool :=
  existsb (fun t => Nat.eqb (fst t) id) l.

Definition clearInterval (id : nat) : handler := fun s =>
  ([ClearInterval id],
   with_browser (pollingIntervalRef s) (remove_timer id (intervals s))
     (timeouts s) (next_timer s) s).

Definition clearTimeout (id : nat) : handler := fun s =>
  ([ClearTimeout id],
   with_browser (pollingIntervalRef s) (intervals s)
     (remove_timer id (timeouts s)) (next_timer s) s).

Definition setRef (r : option nat) : handler := fun s =>
  ([], with_browser r (intervals s) (timeouts s) (next_timer s) s).

(** [pollingIntervalRef.current = setInterval(callback, ms)]. *)
Definition setInterval_ref (ms : Z) : handler := fun s =>
  let id := next_timer s in
  ([SetInterval id ms],
   with_browser (Some id) (intervals s ++ [(id, ms)]) (timeouts s) (S id) s).

(** [const redirectTimer = setTimeout(callback, ms)], with the cleanup
    that clears it. *)
Definition setTimeout_redirect (ms : Z) : handler := fun s =>
  let id := next_timer s in
  ([SetTimeout id ms],
   with_react (mounted s) (redirect_dirty s) (polling_dirty s) (Some id)
     (polling_cleanup s)
     (with_browser (pollingIntervalRef s) (intervals s)
        (timeouts s ++ [(id, ms)]) (S id) s)).

(** A timer identifier is truthy unless it is 0. *)
Definition ref_truthy (s : state) : bool :=
  match pollingIntervalRef s with
  | Some (S _) => true
  | _ => false
  end.

(** [if (ref.current) { clearInterval(ref.current); ref.current = null; }],
    the body shared by [cleanupAndRedirect], the redirect effect and the
    cleanups of the polling and the unmount effects. *)
Definition stop_polling : handler := fun s =>
  match pollingIntervalRef s with
  | Some (S n) => andThen (clearInterval (S n)) (setRef None) s
  | _ => ([], s)
  end.

Definition cleanupAndRedirect : handler :=
  andThen stop_polling
    (andThen (setInvoiceData null)
       (andThen (setPaymentToken null)
          (andThen (setPaymentError None)
             (andThen (setPaymentStatus pending)
                (andThen (setHasCheckedOnLoad false)
                   (setShowQRModal false)))))).

(** The guard of the polling effect,
    [invoiceData && paymentToken && paymentStatus !== 'paid']. *)
Definition payment_pending (s : state) : bool :=
  truthy (invoiceData s) && truthy (paymentToken s)
  && negb (status_eqb (paymentStatus s) paid).

Definition set_redirect_cleanup (rc : option nat) : handler := fun s =>
  ([], with_react (mounted s) (redirect_dirty s) (polling_dirty s) rc
         (polling_cleanup s) s).

Definition set_polling_cleanup (pc : bool) : handler := fun s =>
  ([], with_react (mounted s) (redirect_dirty s) (polling_dirty s)
         (redirect_cleanup s) pc s).

(** The effect on [[paymentStatus]]. *)
Definition redirect_effect : handler := fun s =>
  if status_eqb (paymentStatus s) paid then
    andThen stop_polling (setTimeout_redirect 2000) s
  else set_redirect_cleanup None s.

Definition run_redirect_cleanup : handler := fun s =>
  match redirect_cleanup s with
  | Some id => andThen (clearTimeout id) (set_redirect_cleanup None) s
  | None => ([], s)
  end.

(** The effect on
    [[invoiceData, paymentToken, paymentStatus, checkPaymentStatus]]. *)
Definition polling_effect : handler := fun s =>
  if payment_pending s then
    andThen
      (fun s => match pollingIntervalRef s with
                | Some (S n) => clearInterval (S n) s
                | _ => ([], s)
                end)
      (andThen (setInterval_ref 5000) (set_polling_cleanup true)) s
  else set_polling_cleanup false s.

Definition run_polling_cleanup : handler := fun s =>
  if polling_cleanup s
  then andThen stop_polling (set_polling_cleanup false) s
  else ([], s).

Definition clear_dirty : handler := fun s =>
  ([], with_react (mounted s) false false (redirect_cleanup s)
         (polling_cleanup s) s).

(** One render and its effects. *)
Definition commit (fresh : bool) : handler := fun s =>
  if mounted s then
    let rd := redirect_dirty s in
    let pd := fresh || polling_dirty s in
    andThen (if rd then run_redirect_cleanup else skip)
      (andThen (if pd then run_polling_cleanup else skip)
         (andThen (if rd then redirect_effect else skip)
            (andThen (if pd then polling_effect else skip)
               clear_dirty))) s
  else ([], s).

Definition unmount : handler := fun s =>
  if mounted s then
    andThen run_redirect_cleanup
      (andThen run_polling_cleanup
         (andThen stop_polling
            (fun s => ([], with_react false false false None false s)))) s
  else ([], s).

(** ** Inputs *)

Inductive input :=
| PayStarted                                  (* [handlePay], up to the await *)
| PayResolved (parsedResponse token : value)  (* [handlePay], after it *)
| PayRejected (errorMessage : jsstring)       (* [handlePay], the catch *)
| IntervalFires (id : nat)
| TimeoutFires (id : nat)
| CheckSettled (isPaid : option bool)         (* callbacks of the poll; [None]: onError *)
| AutoCheck (invoiceId : value)               (* the effect on [existingInvoice] *)
| AutoCheckSettled (isPaid : bool)
| Back                                        (* [handleBack] *)
| ShowQR (open : bool)
| Rerender
| Unmount.

Definition invoice_id_of (v : value) : value :=
  match v with
  | VJson j => match get_prop j (lit "invoice_id") with
               | Some w => w
               | None => VUndefined
               end
  | VUndefined => VUndefined
  end.

(** The callback given to [setInterval]. *)
Definition poll : handler := fun s =>
  andThen (setPaymentStatus checking)
    (fun s' => ([MutateCheckPaymentStatus (paymentToken s)
                   (invoice_id_of (invoiceData s))], s')) s.

Definition handle (i : input) : handler := fun s =>
  match i with
  | IntervalFires id =>
      if active id (intervals s) then poll s else ([], s)
  | TimeoutFires id =>
      if active id (timeouts s) then
        andThen
          (fun s => ([], with_browser (pollingIntervalRef s) (intervals s)
                           (remove_timer id (timeouts s)) (next_timer s) s))
          cleanupAndRedirect s
      else ([], s)
  | _ =>
      if mounted s then
        match i with
        | PayStarted =>
            andThen (setPaymentError None) (setPaymentStatus pending) s
        | PayResolved parsedResponse token =>
            andThen (setInvoiceData parsedResponse) (setPaymentToken token) s
        | PayRejected errorMessage => setPaymentError (Some errorMessage) s
        | CheckSettled (Some true) => setPaymentStatus paid s
        | CheckSettled _ => setPaymentStatus pending s
        | AutoCheck invoiceId =>
            if negb (hasCheckedOnLoad s) && truthy (paymentToken s) then
              andThen (setHasCheckedOnLoad true)
                (fun s' => ([MutateCheckPaymentStatus (paymentToken s)
                               invoiceId], s')) s
            else ([], s)
        | AutoCheckSettled true => setPaymentStatus paid s
        | AutoCheckSettled false => ([], s)
        | Back => cleanupAndRedirect s
        | ShowQR open => setShowQRModal open s
        | _ => ([], s)
        end
      else ([], s)
  end.

(** One step: the handler, then the render it causes.  [fresh] tells
    whether that render sees a new [checkPaymentStatus] object. *)
Definition step (i : input) (fresh : bool) : handler :=
  match i with
  | Unmount => unmount
  | _ => andThen (handle i) (commit fresh)
  end.

Fixpoint run (ins : list (input * bool)) : handler := fun s =>
  match ins with
  | [] => ([], s)
  | (i, fresh) :: ins' => andThen (step i fresh) (run ins') s
  end.

(** The component after mounting: the effects have run once and have
    found nothing to do. *)
Definition initial : state :=
  {| invoiceData := null; paymentToken := null; showQRModal := false;
     paymentError := None; paymentStatus := pending;
     hasCheckedOnLoad := false; pollingIntervalRef := None;
     mounted := true; redirect_dirty := false; polling_dirty := false;
     redirect_cleanup := None; polling_cleanup := false;
     intervals := []; timeouts := []; next_timer := 1 |}.

(** ** handlePay *)

Section HandlePay.

Variables QPayCredentials PaymentRecord InvoiceRecord : Type.
Variable host : Host.
Variable actor : option (Actor QPayCredentials PaymentRecord InvoiceRecord).

(** [handlePay] run without other inputs in between; [fresh] as for
    [step], for the two renders it causes. *)
Definition handlePay (fresh : bool) : handler := fun s =>
  let (l0, s0) := step PayStarted fresh s in
  let settled :=
    match PaymentFlow.makePayment_mutateAsync host actor with
    | (l, Return response) =>
        match JSON_parse host (PaymentFlow.response_invoiceData response) with
        | Return parsedResponse =>
            (l, PayResolved (VJson parsedResponse)
                  (PaymentFlow.response_token response))
        | Throw error => (l, PayRejected (message error))
        end
    | (l, Throw error) => (l, PayRejected (message error))
    end in
  let (l1, s1) := step (snd settled) fresh s0 in
  (l0 ++ fst settled ++ l1, s1).

End HandlePay.

End UserDashboard.

(* ================================================================== *)
(** * App.jsx: the registration effect

    [ensureRegistration.mutate] runs the mutation function under the
    retry policy of the hook, [retry: 3]: the data-fetching library runs
    it again after a failure as long as it has counted fewer than three
    failures.  The effect of [AppContent] starts the mutation; its
    [onError] arms a two-second timer that resets
    [registrationAttempted], which lets the effect start it again. *)
(* ================================================================== *)

Module App.

Record state := mkState {
  registrationComplete : bool;
  registrationAttempted : bool;
  initError : option jsstring;
  retryTimer : bool;   (* the timeout of [onError] is pending *)
  attempts : nat       (* runs of the mutation function so far *)
}.

Section Registration.

Variables QPayCredentials PaymentRecord InvoiceRecord : Type.

(** The actor as the [k]-th run of the mutation function finds it. *)
Variable actor_at :
  nat -> option (Actor QPayCredentials PaymentRecord InvoiceRecord).

Variables isAuthenticated isActorReady : bool.

(** The retryer: [failureCount] failures have been counted, [budget] is
    [retry - failureCount]; [k] runs of the mutation function precede. *)
Fixpoint retryer (budget k : nat) : nat * outcome unit :=
  match result (UseQueries.useEnsureUserRegistration_mutationFn (actor_at k)) with
  | Return _ => (S k, Return tt)
  | Throw e =>
      match budget with
      | O => (S k, Throw e)
      | S budget' => retryer budget' (S k)
      end
  end.

(** [ensureRegistration.mutate(undefined, { onSuccess, onError })]. *)
Definition ensureRegistration_mutate (s : state) : state :=
  match retryer UseQueries.useEnsureUserRegistration_retry (attempts s) with
  | (k, Return _) =>
      {| registrationComplete := true;
         registrationAttempted := registrationAttempted s;
         initError := initError s; retryTimer := retryTimer s;
         attempts := k |}
  | (k, Throw error) =>
      {| registrationComplete := registrationComplete s;
         registrationAttempted := registrationAttempted s;
         initError :=
           Some (if str_truthy (message error) then message error
                 else lit "Registration failed");
         retryTimer := true;
         attempts := k |}
  end.

(** The effect; the mutation is not pending when a step begins, since a
    step runs it to its end. *)
Definition registration_effect (s : state) : state :=
  if isAuthenticated && isActorReady && negb (registrationAttempted s) then
    ensureRegistration_mutate
      {| registrationComplete := registrationComplete s;
         registrationAttempted := true;
         initError := None; retryTimer := retryTimer s;
         attempts := attempts s |}
  else s.

(** The timeout of [onError] fires; the state change runs the effect. *)
Definition timer_fires (s : state) : state :=
  if retryTimer s then
    registration_effect
      {| registrationComplete := registrationComplete s;
         registrationAttempted := false;
         initError := None; retryTimer := false;
         attempts := attempts s |}
  else s.

Definition initial : state :=
  {| registrationComplete := false; registrationAttempted := false;
     initError := None; retryTimer := false; attempts := 0 |}.

(** The app after the first run of the effect and [n] timer firings. *)
Fixpoint run_app (n : nat) : state :=
  match n with
  | O => registration_effect initial
  | S n' => timer_fires (run_app n')
  end.

End Registration.

End App.

(* ================================================================== *)
(** * lib/utils: formatTimestamp *)
(* ================================================================== *)

Module Utils.

(** ** Numbers *)

(** [Number(n)] for a BigInt [n]: the nearest binary64, ties to even. *)
Definition Number_of_BigInt (n : Z) : number :=
  binary_normalize prec emax n 0 false.

Definition div (x y : number) : number := SFdiv prec emax x y.

(** Whether [abs x] exceeds the integer [bound]. *)
Definition abs_gt (x : number) (bound : Z) : bool :=
  match x with
  | S754_finite _ m e =>
      if (0 <=? e)%Z then (bound <? Z.pos m * 2 ^ e)%Z
      else (bound * 2 ^ (- e) <? Z.pos m)%Z
  | S754_infinity _ => true
  | _ => false
  end.

(** ToIntegerOrInfinity of a finite number: truncation towards zero. *)
Definition truncate (x : number) : Z :=
  match x with
  | S754_finite s m e =>
      let a := if (0 <=? e)%Z then (Z.pos m * 2 ^ e)%Z
               else (Z.pos m / 2 ^ (- e))%Z in
      if s then (- a)%Z else a
  | _ => 0%Z
  end.

(** TimeClip: the time value of [new Date(x)], [None] for an invalid
    date (whose [getTime()] is NaN). *)
Definition TimeClip (x : number) : option Z :=
  match x with
  | S754_nan | S754_infinity _ => None
  | _ => if abs_gt x 8640000000000000 then None else Some (truncate x)
  end.

(** ** The calendar of ECMAScript *)

Open Scope Z_scope.

Definition msPerDay : Z := 86400000.
Definition msPerHour : Z := 3600000.
Definition msPerMinute : Z := 60000.
Definition msPerSecond : Z := 1000.

Definition Day (t : Z) : Z := t / msPerDay.

Definition DayFromYear (y : Z) : Z :=
  365 * (y - 1970) + (y - 1969) / 4 - (y - 1901) / 100 + (y - 1601) / 400.

Definition DaysInYear (y : Z) : Z :=
  if negb (y mod 4 =? 0) then 365
  else if negb (y mod 100 =? 0) then 366
  else if negb (y mod 400 =? 0) then 365
  else 366.

(** The largest [y] with [DayFromYear y <= d]: an estimate from the mean
    length of a year, corrected by at most one. *)
Definition YearFromDay (d : Z) : Z :=
  let y := 1970 + (d * 400) / 146097 in
  if DayFromYear (y + 1) <=? d then y + 1
  else if DayFromYear y <=? d then y
  else y - 1.

Definition YearFromTime (t : Z) : Z := YearFromDay (Day t).

Definition InLeapYear (t : Z) : Z :=
  if DaysInYear (YearFromTime t) =? 366 then 1 else 0.

Definition DayWithinYear (t : Z) : Z :=
  Day t - DayFromYear (YearFromTime t).

Definition MonthFromTime (t : Z) : Z :=
  let d := DayWithinYear t in
  let leap := InLeapYear t in
  if d <? 31 then 0
  else if d <? 59 + leap then 1
  else if d <? 90 + leap then 2
  else if d <? 120 + leap then 3
  else if d <? 151 + leap then 4
  else if d <? 181 + leap then 5
  else if d <? 212 + leap then 6
  else if d <? 243 + leap then 7
  else if d <? 273 + leap then 8
  else if d <? 304 + leap then 9
  else if d <? 334 + leap then 10
  else 11.

Definition DateFromTime (t : Z) : Z :=
  let d := DayWithinYear t in
  let leap := InLeapYear t in
  match MonthFromTime t with
  | 0 => d + 1
  | 1 => d - 30
  | 2 => d - 58 - leap
  | 3 => d - 89 - leap
  | 4 => d - 119 - leap
  | 5 => d - 150 - leap
  | 6 => d - 180 - leap
  | 7 => d - 211 - leap
  | 8 => d - 242 - leap
  | 9 => d - 272 - leap
  | 10 => d - 303 - leap
  | _ => d - 333 - leap
  end.

Definition HourFromTime (t : Z) : Z := (t / msPerHour) mod 24.
Definition MinFromTime (t : Z) : Z := (t / msPerMinute) mod 60.
Definition SecFromTime (t : Z) : Z := (t / msPerSecond) mod 60.

Close Scope Z_scope.

(** ** Strings of numbers *)

(** [String(n)] for an integral number below 10^21: its decimal digits,
    after a minus sign when negative. *)
Definition Number_toString (n : Z) : jsstring :=
  lit (DecimalString.NilZero.string_of_int (Z.to_int n)).

(** [String.prototype.padStart]. *)
Definition padStart (s : jsstring) (targetLength : nat) (fill : jsstring)
  : jsstring :=
  if (targetLength <=? List.length s)%nat then s
  else
    match fill with
    | [] => s
    | _ =>
        let n := (targetLength - List.length s)%nat in
        firstn n (List.concat (repeat fill n)) ++ s
    end.

(** ** formatTimestamp *)

Section Format.

(** The offset of local time from UTC at a given time value, in
    milliseconds: the time zone of the host. *)
Variable LocalTZA : Z -> Z.

Definition LocalTime (t : Z) : Z := (t + LocalTZA t)%Z.

Definition getFullYear (t : Z) : Z := YearFromTime (LocalTime t).
Definition getMonth (t : Z) : Z := MonthFromTime (LocalTime t).
Definition getDate (t : Z) : Z := DateFromTime (LocalTime t).
Definition getHours (t : Z) : Z := HourFromTime (LocalTime t).
Definition getMinutes (t : Z) : Z := MinFromTime (LocalTime t).
Definition getSeconds (t : Z) : Z := SecFromTime (LocalTime t).

(** [Number(nanoseconds) / 1_000_000]. *)
Definition to_milliseconds (nanoseconds : Z) : number :=
  div (Number_of_BigInt nanoseconds) (Number_of_BigInt 1000000).

(** The body of the [try]. *)
Definition formatTimestamp_try (nanoseconds : Z) : M jsstring :=
  let milliseconds := to_milliseconds nanoseconds in
  match TimeClip milliseconds with
  | None => ret (lit "Invalid date")
  | Some date =>
      let year := getFullYear date in
      let month := padStart (Number_toString (getMonth date + 1)) 2 (lit "0") in
      let day := padStart (Number_toString (getDate date)) 2 (lit "0") in
      let hours := padStart (Number_toString (getHours date)) 2 (lit "0") in
      let minutes := padStart (Number_toString (getMinutes date)) 2 (lit "0") in
      let seconds := padStart (Number_toString (getSeconds date)) 2 (lit "0") in
      ret (Number_toString year ++ lit "-" ++ month ++ lit "-" ++ day
           ++ lit " " ++ hours ++ lit ":" ++ minutes ++ lit ":" ++ seconds)
  end.

(** A thrown error ends in the [catch], which returns the same literal;
    the result is the value the function returns. *)
Definition formatTimestamp (nanoseconds : Z) : outcome jsstring :=
  result (try_catch (formatTimestamp_try nanoseconds)
            (fun _ => ret (lit "Invalid date"))).

End Format.

End Utils.

(* ================================================================== *)
(** * What a query hook hands to a component *)
(* ================================================================== *)

Module Query.

(** The fields of a [useQuery] result that the components read; [data]
    is [None] while it is [undefined]. *)
Record state (A : Type) := mkQuery {
  data : option A;
  isLoading : bool;
  isFetched : bool;
  error : option Error
}.

Arguments mkQuery {A} data isLoading isFetched error.
Arguments data {A} s.
Arguments isLoading {A} s.
Arguments isFetched {A} s.
Arguments error {A} s.

(** A query that has not run. *)
Definition idle {A : Type} : state A :=
  {| data := None; isLoading := false; isFetched := false; error := None |}.

(** A query whose first fetch is under way. *)
Definition fetching {A : Type} : state A :=
  {| data := None; isLoading := true; isFetched := false; error := None |}.

(** A query whose query function has run to its end: its value is the
    data, or its error is the error; a retry meets the same backend and
    ends the same way. *)
Definition settled {A : Type} (queryFn : M A) : state A :=
  match result queryFn with
  | Return v =>
      {| data := Some v; isLoading := false; isFetched := true;
         error := None |}
  | Throw e =>
      {| data := None; isLoading := false; isFetched := true;
         error := Some e |}
  end.

(** The [enabled] option of the queries that wait for the actor only. *)
Definition enabled (actor actorFetching : bool) : bool :=
  actor && negb actorFetching.

(** The [enabled] option of [useGetCallerUserProfile] and
    [useGetCallerUserRole]. *)
Definition enabled_registered (actor actorFetching registrationComplete : bool)
  : bool :=
  actor && negb actorFetching && registrationComplete.

(** What [useGetCallerUserProfile] and [useGetCallerUserRole] return:
    the query with [isLoading] and [isFetched] replaced. *)
Definition registered {A : Type} (actor actorFetching registrationComplete : bool)
    (query : state A) : state A :=
  {| data := data query;
     isLoading := actorFetching || isLoading query;
     isFetched := actor && registrationComplete && isFetched query;
     error := error query |}.

End Query.

(* ================================================================== *)
(** * App.jsx: what AppContent renders *)
(* ================================================================== *)

Module AppContent.

(** What the hooks give to one render of [AppContent]: whether there is
    an identity and an actor, the two flags, the component state and the
    two queries as the data-fetching library holds them. *)
Record hooks := mkHooks {
  identityInitializing : bool;
  identity : bool;
  actor : bool;
  actorFetching : bool;
  registrationComplete : bool;
  initError : option jsstring;
  roleQuery : Query.state UserRole;
  profileQuery : Query.state (option UserProfile)
}.

Inductive page := LandingPage | AdminDashboard | UserDashboard | AccessPending.

Inductive screen :=
| Initializing
| Connecting
| LoadingUserData (shown : option jsstring)
| BackendConnectionError
| Main (p : page) (profileSetupOpen : bool).

Definition userRole (h : hooks) : option UserRole :=
  Query.data (Query.registered (actor h) (actorFetching h)
                (registrationComplete h) (roleQuery h)).

Definition roleLoading (h : hooks) : bool :=
  Query.isLoading (Query.registered (actor h) (actorFetching h)
                     (registrationComplete h) (roleQuery h)).

Definition roleFetched (h : hooks) : bool :=
  Query.isFetched (Query.registered (actor h) (actorFetching h)
                     (registrationComplete h) (roleQuery h)).

Definition userProfile (h : hooks) : option (option UserProfile) :=
  Query.data (Query.registered (actor h) (actorFetching h)
                (registrationComplete h) (profileQuery h)).

Definition profileLoading (h : hooks) : bool :=
  Query.isLoading (Query.registered (actor h) (actorFetching h)
                     (registrationComplete h) (profileQuery h)).

Definition profileFetched (h : hooks) : bool :=
  Query.isFetched (Query.registered (actor h) (actorFetching h)
                     (registrationComplete h) (profileQuery h)).

Definition isAuthenticated (h : hooks) : bool := identity h.

Definition isActorReady (h : hooks) : bool :=
  actor h && negb (actorFetching h).

(** [userProfile === null]. *)
Definition is_null {A : Type} (d : option (option A)) : bool :=
  match d with
  | Some None => true
  | _ => false
  end.

Definition showProfileSetup (h : hooks) : bool :=
  isAuthenticated h && registrationComplete h && negb (profileLoading h)
  && profileFetched h && is_null (userProfile h).

Definition isLoadingUserData (h : hooks) : bool :=
  isAuthenticated h
  && (negb (isActorReady h) || negb (registrationComplete h)
      || profileLoading h || roleLoading h || negb (roleFetched h)).

Definition is_role (r : UserRole) (d : option UserRole) : bool :=
  match d, r with
  | Some admin, admin | Some user, user | Some guest, guest => true
  | _, _ => false
  end.

(** The page inside the main frame. *)
Definition route (h : hooks) : page :=
  if negb (isAuthenticated h) then LandingPage
  else if is_role admin (userRole h) then AdminDashboard
  else if is_role user (userRole h) then UserDashboard
  else AccessPending.

Definition render (h : hooks) : screen :=
  if identityInitializing h then Initializing
  else if actorFetching h && negb (actor h) then Connecting
  else if isLoadingUserData h then
    LoadingUserData
      (match initError h with
       | Some msg => if str_truthy msg then Some msg else None
       | None => None
       end)
  else if isAuthenticated h && negb (actor h) then BackendConnectionError
  else Main (route h) (showProfileSetup h).

End AppContent.

(* ================================================================== *)
(** * The earlier App component *)
(* ================================================================== *)

Module AppLegacy.

Inductive screen :=
| Loading
| Main (p : AppContent.page) (profileSetupOpen : bool).

Section Roles.

(** The string each member of the backend's [UserRole] stands for; the
    earlier component compares the role with string literals. *)
Variable role_name : UserRole -> jsstring.

(** [userRole === 'admin'], [userRole === 'user']. *)
Definition is_named (n : jsstring) (d : option UserRole) : bool :=
  match d with
  | Some r => str_eqb (role_name r) n
  | None => false
  end.

Definition route (h : AppContent.hooks) : AppContent.page :=
  if negb (AppContent.isAuthenticated h) then AppContent.LandingPage
  else if is_named (lit "admin") (AppContent.userRole h)
  then AppContent.AdminDashboard
  else if is_named (lit "user") (AppContent.userRole h)
  then AppContent.UserDashboard
  else AppContent.AccessPending.

(** The earlier component has the same hooks, without [initError], and
    one loading screen. *)
Definition render (h : AppContent.hooks) : screen :=
  if AppContent.identityInitializing h || AppContent.actorFetching h
     || AppContent.isLoadingUserData h
  then Loading
  else Main (route h) (AppContent.showProfileSetup h).

End Roles.

(** The members of [UserRole] named after themselves. *)
Definition member_name (r : UserRole) : jsstring :=
  match r with
  | admin => lit "admin"
  | user => lit "user"
  | guest => lit "guest"
  end.

End AppLegacy.

(* ================================================================== *)
(** * pages/AdminDashboard.jsx *)
(* ================================================================== *)

Module AdminDashboard.

(** The credentials record, by the three fields of the form. *)
Record QPayCredentials := mkCredentials {
  client_username : jsstring;
  client_password : jsstring;
  client_invoice : jsstring
}.

(** The fields of an invoice record that the table shows. *)
Record InvoiceRecord := mkInvoice {
  user : jsstring;
  invoice_amount : Z;
  isPaid : bool;
  createdAt : Z
}.

(** ** The three cards *)

Inductive credentials_card :=
| CredentialsLoading
| CredentialsFailed
| CredentialsForm (notConfigured : bool).

Inductive config_card := ConfigLoading | ConfigFailed | ConfigForm.

Inductive payments_card :=
| PaymentsLoading
| PaymentsFailed
| PaymentsTable (rows : nat) (configuredAmount : option Z)
| PaymentsEmpty.

Definition is_some {A : Type} (o : option A) : bool :=
  match o with Some _ => true | None => false end.

(** [credentials] is truthy: neither [undefined] nor [null]. *)
Definition present {A : Type} (d : option (option A)) : bool :=
  match d with Some (Some _) => true | _ => false end.

Definition render_credentials
    (credentials : Query.state (option QPayCredentials)) : credentials_card :=
  if Query.isLoading credentials then CredentialsLoading
  else if is_some (Query.error credentials) then CredentialsFailed
  else CredentialsForm (negb (present (Query.data credentials))).

Definition render_config (invoiceConfig : Query.state QPayInvoiceConfig)
  : config_card :=
  if Query.isLoading invoiceConfig then ConfigLoading
  else if is_some (Query.error invoiceConfig) then ConfigFailed
  else ConfigForm.

Definition render_payments
    (invoices : Query.state (list (jsstring * InvoiceRecord)))
    (invoiceConfig : Query.state QPayInvoiceConfig) : payments_card :=
  if Query.isLoading invoices || Query.isLoading invoiceConfig
  then PaymentsLoading
  else if is_some (Query.error invoices) then PaymentsFailed
  else
    match Query.data invoices with
    | Some (row :: rows) =>
        PaymentsTable (List.length (row :: rows))
          (match Query.data invoiceConfig with
           | Some config => Some (config_amount config)
           | None => None
           end)
    | _ => PaymentsEmpty
    end.

(** ** The two forms *)

Record state := mkState {
  credentialsForm : QPayCredentials;
  invoiceConfigForm : QPayInvoiceConfig;
  isCredentialsFormDirty : bool;
  isConfigFormDirty : bool
}.

Definition initial : state :=
  {| credentialsForm :=
       {| client_username := []; client_password := [];
          client_invoice := [] |};
     invoiceConfigForm :=
       {| sender_invoice_no := lit "12345678";
          invoice_receiver_code := lit "terminal";
          invoice_description := lit "Railway subscription 12 months";
          config_amount := 10 |};
     isCredentialsFormDirty := false;
     isConfigFormDirty := false |}.

(** The keys the inputs pass to [handleCredentialsInputChange]. *)
Inductive credentials_field :=
| field_client_username
| field_client_password
| field_client_invoice.

(** The key and value the inputs pass to
    [handleInvoiceConfigInputChange]. *)
Inductive config_change :=
| change_sender_invoice_no (v : jsstring)
| change_invoice_receiver_code (v : jsstring)
| change_invoice_description (v : jsstring)
| change_amount (v : Z).

Definition set_field (field : credentials_field) (v : jsstring)
    (prev : QPayCredentials) : QPayCredentials :=
  match field with
  | field_client_username =>
      {| client_username := v; client_password := client_password prev;
         client_invoice := client_invoice prev |}
  | field_client_password =>
      {| client_username := client_username prev; client_password := v;
         client_invoice := client_invoice prev |}
  | field_client_invoice =>
      {| client_username := client_username prev;
         client_password := client_password prev; client_invoice := v |}
  end.

Definition apply_change (c : config_change) (prev : QPayInvoiceConfig)
  : QPayInvoiceConfig :=
  match c with
  | change_sender_invoice_no v =>
      {| sender_invoice_no := v;
         invoice_receiver_code := invoice_receiver_code prev;
         invoice_description := invoice_description prev;
         config_amount := config_amount prev |}
  | change_invoice_receiver_code v =>
      {| sender_invoice_no := sender_invoice_no prev;
         invoice_receiver_code := v;
         invoice_description := invoice_description prev;
         config_amount := config_amount prev |}
  | change_invoice_description v =>
      {| sender_invoice_no := sender_invoice_no prev;
         invoice_receiver_code := invoice_receiver_code prev;
         invoice_description := v;
         config_amount := config_amount prev |}
  | change_amount v =>
      {| sender_invoice_no := sender_invoice_no prev;
         invoice_receiver_code := invoice_receiver_code prev;
         invoice_description := invoice_description prev;
         config_amount := v |}
  end.

Definition handleCredentialsInputChange (field : credentials_field)
    (v : jsstring) (s : state) : state :=
  {| credentialsForm := set_field field v (credentialsForm s);
     invoiceConfigForm := invoiceConfigForm s;
     isCredentialsFormDirty := true;
     isConfigFormDirty := isConfigFormDirty s |}.

Definition handleInvoiceConfigInputChange (c : config_change) (s : state)
  : state :=
  {| credentialsForm := credentialsForm s;
     invoiceConfigForm := apply_change c (invoiceConfigForm s);
     isCredentialsFormDirty := isCredentialsFormDirty s;
     isConfigFormDirty := true |}.

(** What the two save mutations and their callbacks leave behind. *)
Inductive event :=
| SaveQPayCredentials (credentials : QPayCredentials)
| SaveQPayInvoiceConfig (config : QPayInvoiceConfig)
| Notify (k : toast_kind) (msg : jsstring)
| InvalidateQueries (queryKey : jsstring)
| RefetchInvoices.

(** The two save methods of the actor. *)
Record saver := mkSaver {
  saveQPayCredentials : QPayCredentials -> outcome unit;
  saveQPayInvoiceConfig : QPayInvoiceConfig -> outcome unit
}.

Section Saving.

Variable actor : option saver.

(** [saveCredentials.mutate(credentialsForm, { onSuccess })]: the
    mutation function of [useSaveQPayCredentials], its [onSuccess] or
    [onError], then the callback of the call.  The button is disabled
    unless the form is dirty. *)
Definition handleSaveCredentials (s : state) : list event * state :=
  if isCredentialsFormDirty s then
    match actor with
    | None =>
        ([Notify Failure
            (lit "Failed to save credentials: " ++ lit "Actor not available")],
         s)
    | Some a =>
        match saveQPayCredentials a (credentialsForm s) with
        | Return _ =>
            ([SaveQPayCredentials (credentialsForm s);
              InvalidateQueries (lit "qpayCredentials");
              Notify Success (lit "QPay credentials saved successfully")],
             {| credentialsForm := credentialsForm s;
                invoiceConfigForm := invoiceConfigForm s;
                isCredentialsFormDirty := false;
                isConfigFormDirty := isConfigFormDirty s |})
        | Throw e =>
            ([SaveQPayCredentials (credentialsForm s);
              Notify Failure
                (if includes (message e) (lit "Unauthorized")
                 then lit "Please log in again"
                 else lit "Failed to save credentials: " ++ message e)],
             s)
        end
    end
  else ([], s).

Definition handleSaveInvoiceConfig (s : state) : list event * state :=
  if isConfigFormDirty s then
    match actor with
    | None =>
        ([Notify Failure
            (lit "Failed to save configuration: "
             ++ lit "Actor not available")],
         s)
    | Some a =>
        match saveQPayInvoiceConfig a (invoiceConfigForm s) with
        | Return _ =>
            ([SaveQPayInvoiceConfig (invoiceConfigForm s);
              InvalidateQueries (lit "qpayInvoiceConfig");
              InvalidateQueries (lit "userInvoiceConfig");
              InvalidateQueries (lit "allInvoices");
              Notify Success (lit "Invoice configuration saved successfully");
              RefetchInvoices],
             {| credentialsForm := credentialsForm s;
                invoiceConfigForm := invoiceConfigForm s;
                isCredentialsFormDirty := isCredentialsFormDirty s;
                isConfigFormDirty := false |})
        | Throw e =>
            ([SaveQPayInvoiceConfig (invoiceConfigForm s);
              Notify Failure
                (if includes (message e) (lit "Unauthorized")
                 then lit "Please log in again"
                 else lit "Failed to save configuration: " ++ message e)],
             s)
        end
    end
  else ([], s).

End Saving.

(** The two effects that copy the server's data into a form that is not
    dirty.  They run when the data or the flag change; as they store
    the data they are given, running them after every step leaves the
    same forms. *)
Definition sync (credentials : option (option QPayCredentials))
    (invoiceConfig : option QPayInvoiceConfig) (s : state) : state :=
  {| credentialsForm :=
       match credentials with
       | Some (Some c) =>
           if negb (isCredentialsFormDirty s) then c else credentialsForm s
       | _ => credentialsForm s
       end;
     invoiceConfigForm :=
       match invoiceConfig with
       | Some c =>
           if negb (isConfigFormDirty s) then c else invoiceConfigForm s
       | None => invoiceConfigForm s
       end;
     isCredentialsFormDirty := isCredentialsFormDirty s;
     isConfigFormDirty := isConfigFormDirty s |}.

Inductive input :=
| EditCredentials (field : credentials_field) (v : jsstring)
| EditConfig (c : config_change)
| SaveCredentials (actor : option saver)
| SaveConfig (actor : option saver)
| Rerender.

(** One step: the handler, then the render with the data the two
    queries hold at that time. *)
Definition step (i : input) (credentials : option (option QPayCredentials))
    (invoiceConfig : option QPayInvoiceConfig) (s : state) : state :=
  sync credentials invoiceConfig
    (match i with
     | EditCredentials field v => handleCredentialsInputChange field v s
     | EditConfig c => handleInvoiceConfigInputChange c s
     | SaveCredentials actor => snd (handleSaveCredentials actor s)
     | SaveConfig actor => snd (handleSaveInvoiceConfig actor s)
     | Rerender => s
     end).

Fixpoint run
    (ins : list (input * option (option QPayCredentials)
                 * option QPayInvoiceConfig)) (s : state) : state :=
  match ins with
  | [] => s
  | (i, credentials, invoiceConfig) :: ins' =>
      run ins' (step i credentials invoiceConfig s)
  end.

End AdminDashboard.

(* ================================================================== *)
(** * Scenarios and further observations *)
(* ================================================================== *)

Module Scenario.

Section SignedIn.

Variables QPayCredentials PaymentRecord InvoiceRecord : Type.

(** What the hooks of [AppContent] hold for a signed-in caller whose
    registration has completed, once the role and the profile queries
    have run against the backend [a]. *)
Definition signed_in (a : Actor QPayCredentials PaymentRecord InvoiceRecord)
  : AppContent.hooks :=
  {| AppContent.identityInitializing := false;
     AppContent.identity := true;
     AppContent.actor := true;
     AppContent.actorFetching := false;
     AppContent.registrationComplete := true;
     AppContent.initError := None;
     AppContent.roleQuery :=
       Query.settled (UseQueries.useGetCallerUserRole_queryFn (Some a));
     AppContent.profileQuery :=
       Query.settled (UseQueries.useGetCallerUserProfile_queryFn (Some a)) |}.

End SignedIn.

Section Registration.

Variables QPayCredentials PaymentRecord InvoiceRecord : Type.

(** Between two rounds of the registration effect: a completed
    registration has no timer pending and ended with a successful
    attempt; a pending timer belongs to an attempted registration. *)
Definition registration_settled
    (actor_at :
       nat -> option (Actor QPayCredentials PaymentRecord InvoiceRecord))
    (s : App.state) : Prop :=
  (App.registrationComplete s = true ->
   App.retryTimer s = false
   /\ exists j, App.attempts s = S j
                /\ result (UseQueries.useEnsureUserRegistration_mutationFn
                             (actor_at j)) = Return tt)
  /\ (App.retryTimer s = true -> App.registrationAttempted s = true).

End Registration.

End Scenario.

Module Trace.

(** The [recordPayment.mutate] calls of a trace: amount and status. *)
Fixpoint records (t : list event) : list (Z * jsstring) :=
  match t with
  | [] => []
  | MutateRecordPayment amt st :: t' => (amt, st) :: records t'
  | _ :: t' => records t'
  end.

(** The tokens handed to [getValidOrCreateInvoice]. *)
Fixpoint create_tokens (t : list event) : list value :=
  match t with
  | [] => []
  | Call (C_getValidOrCreateInvoice token) :: t' => token :: create_tokens t'
  | _ :: t' => create_tokens t'
  end.

End Trace.

Module DashboardView.

Import UserDashboard.

(** What [useState] holds. *)
Definition form (s : state)
  : value * value * bool * option jsstring * status * bool :=
  (invoiceData s, paymentToken s, showQRModal s, paymentError s,
   paymentStatus s, hasCheckedOnLoad s).

Definition keeps_form (h : handler) : Prop :=
  forall s, form (snd (h s)) = form s.

End DashboardView.

Module AdminForms.

Import AdminDashboard.

(** Inputs that leave a dirty credentials form alone: everything but an
    edit of that form and a save of it that succeeds. *)
Definition keeps_credentials (form : QPayCredentials) (i : input) : bool :=
  match i with
  | EditCredentials _ _ => false
  | SaveCredentials (Some a) =>
      match saveQPayCredentials a form with
      | Return _ => false
      | Throw _ => true
      end
  | _ => true
  end.

Definition keeps_config (form : QPayInvoiceConfig) (i : input) : bool :=
  match i with
  | EditConfig _ => false
  | SaveConfig (Some a) =>
      match saveQPayInvoiceConfig a form with
      | Return _ => false
      | Throw _ => true
      end
  | _ => true
  end.

Definition input_of
    (x : input * option (option QPayCredentials) * option QPayInvoiceConfig)
  : input := fst (fst x).

End AdminForms.

(* ================================================================== *)
(** * The redirect timer and the status checks: invariants of the
      dashboard *)
(* ================================================================== *)

Module RedirectTimer.

Import UserDashboard.

(** After a render: the redirect effect holds a cleanup exactly while
    the mounted component shows the status [paid], and its timer is the
    one pending timeout. *)
Definition redirect_inv (s : state) : Prop :=
  redirect_dirty s = false
  /\ match redirect_cleanup s with
     | Some id =>
         mounted s = true /\ paymentStatus s = paid
         /\ timeouts s = [(id, 2000%Z)] /\ (id < next_timer s)%nat
     | None =>
         timeouts s = [] /\ (mounted s = true -> paymentStatus s <> paid)
     end.

(** Between a handler and the render it causes. *)
Definition redirect_pre (s : state) : Prop :=
  match redirect_cleanup s with
  | Some id =>
      mounted s = true /\ (id < next_timer s)%nat
      /\ ((timeouts s = [(id, 2000%Z)]
           /\ (redirect_dirty s = false -> paymentStatus s = paid))
          \/ (timeouts s = [] /\ redirect_dirty s = true))
  | None =>
      timeouts s = []
      /\ (mounted s = true -> redirect_dirty s = false ->
          paymentStatus s <> paid)
      /\ (mounted s = false -> redirect_dirty s = false)
  end.

(** A handler that sets no timeout and leaves the bookkeeping of the
    redirect effect alone; where it changes the status, it marks it. *)
Definition status_step (h : handler) : Prop :=
  forall s,
    mounted (snd (h s)) = mounted s
    /\ redirect_cleanup (snd (h s)) = redirect_cleanup s
    /\ timeouts (snd (h s)) = timeouts s
    /\ (next_timer s <= next_timer (snd (h s)))%nat
    /\ (mounted s = false -> redirect_dirty (snd (h s)) = redirect_dirty s)
    /\ (redirect_dirty (snd (h s)) = false ->
        redirect_dirty s = false
        /\ paymentStatus (snd (h s)) = paymentStatus s).

(** A handler that in addition leaves status and mark as they are. *)
Definition keeps_redirect (h : handler) : Prop :=
  forall s,
    mounted (snd (h s)) = mounted s
    /\ redirect_cleanup (snd (h s)) = redirect_cleanup s
    /\ timeouts (snd (h s)) = timeouts s
    /\ (next_timer s <= next_timer (snd (h s)))%nat
    /\ redirect_dirty (snd (h s)) = redirect_dirty s
    /\ paymentStatus (snd (h s)) = paymentStatus s.

(** What the redirect effect leaves behind for a mounted component: a
    cleanup and the one pending timeout with the status [paid], neither
    with any other status. *)
Definition redirect_held (s : state) : Prop :=
  mounted s = true
  /\ match redirect_cleanup s with
     | Some id =>
         paymentStatus s = paid /\ timeouts s = [(id, 2000%Z)]
         /\ (id < next_timer s)%nat
     | None => timeouts s = [] /\ paymentStatus s <> paid
     end.

End RedirectTimer.

Module StatusChecks.

Import UserDashboard.

Definition is_status_check (e : event) : bool :=
  match e with MutateCheckPaymentStatus _ _ => true | _ => false end.

(** A handler that sends no payment-status check. *)
Definition checkless (h : handler) : Prop :=
  forall s, existsb is_status_check (fst (h s)) = false.

Definition is_pay_resolved (i : input) : bool :=
  match i with PayResolved _ _ => true | _ => false end.

(** The token is falsy and no polling timer runs. *)
Definition unpaid (s : state) : Prop :=
  truthy (paymentToken s) = false /\ intervals s = [].

(** A handler that stores no truthy token. *)
Definition tokenless (h : handler) : Prop :=
  forall s, truthy (paymentToken s) = false ->
            truthy (paymentToken (snd (h s))) = false.

Definition no_status_check (t : list event) : bool :=
  negb (existsb is_status_check t).

End StatusChecks.

(* ================================================================== *)
(** * pages/UserDashboard.jsx: amount and description on the pay screen *)
(* ================================================================== *)

Module PayScreen.

(** [invoiceConfig ? Number(invoiceConfig.amount) : 10]; the data of the
    query is [None] while it is [undefined] and [Some None] when it is
    [null].  The literal [10] is the number [Number(10n)]. *)
Definition displayAmount (invoiceConfig : option (option QPayInvoiceConfig))
  : number :=
  match invoiceConfig with
  | Some (Some config) => Utils.Number_of_BigInt (config_amount config)
  | _ => Utils.Number_of_BigInt 10
  end.

(** [invoiceConfig?.invoice_description || 'Railway subscription 12 months']. *)
Definition displayDescription
    (invoiceConfig : option (option QPayInvoiceConfig)) : jsstring :=
  match invoiceConfig with
  | Some (Some config) =>
      if str_truthy (invoice_description config)
      then invoice_description config
      else lit "Railway subscription 12 months"
  | _ => lit "Railway subscription 12 months"
  end.

End PayScreen.

(* ================================================================== *)
(** * Fixtures: concrete backends and hosts for the examples *)
(* ================================================================== *)

Module Fixtures.

Definition boom : Error := mkError (lit "boom").

(** An actor every method of which rejects with [e]. *)
Definition rejecting (e : Error) : Actor unit unit unit :=
  {| getCallerUserProfile := Throw e;
     ensureCallerUserRole := Throw e;
     getCallerUserRole := Throw e;
     saveCallerUserProfile := fun _ => Throw e;
     isCallerAdmin := Throw e;
     getQPayCredentials := Throw e;
     getQPayInvoiceConfig := Throw e;
     getUserPayments := Throw e;
     getAllPayments := Throw e;
     getAllInvoices := Throw e;
     getUserInvoice := Throw e;
     checkForValidInvoice := Throw e;
     makeQPayTokenRequest := Throw e;
     getValidOrCreateInvoice := fun _ => Throw e;
     storeUserInvoice := fun _ _ _ => Throw e |}.

Definition no_actor : option (Actor unit unit unit) := None.

(** JSON texts, written with the code unit 34 for the quotation mark. *)
Definition quoted (s : jsstring) : jsstring := 34%N :: s ++ [34%N].

Definition token_json : jsstring :=
  lit "{" ++ quoted (lit "access_token") ++ lit ":" ++ quoted (lit "T0")
  ++ lit "}".

Definition invoice_json : jsstring :=
  lit "{" ++ quoted (lit "invoice_id") ++ lit ":" ++ quoted (lit "INV-1")
  ++ lit "," ++ quoted (lit "qr_image") ++ lit ":" ++ quoted (lit "QR")
  ++ lit "}".

(** A host whose [JSON.parse] knows the two texts above and rejects
    every other text. *)
Definition host : Host :=
  {| JSON_parse := fun s =>
       if str_eqb s token_json then
         Return (JObj [(lit "access_token", JStr (lit "T0"))])
       else if str_eqb s invoice_json then
         Return (JObj [(lit "invoice_id", JStr (lit "INV-1"));
                       (lit "qr_image", JStr (lit "QR"))])
       else Throw (mkError (lit "Unexpected token"));
     nullPropertyError := fun _ =>
       mkError (lit "Cannot read properties of null") |}.

(** A backend that holds a valid invoice of amount 10 for the caller. *)
Definition reusing : Actor unit unit unit :=
  {| getCallerUserProfile := Throw boom;
     ensureCallerUserRole := Throw boom;
     getCallerUserRole := Throw boom;
     saveCallerUserProfile := fun _ => Throw boom;
     isCallerAdmin := Throw boom;
     getQPayCredentials := Throw boom;
     getQPayInvoiceConfig := Throw boom;
     getUserPayments := Throw boom;
     getAllPayments := Throw boom;
     getAllInvoices := Throw boom;
     getUserInvoice := Throw boom;
     checkForValidInvoice :=
       Return {| hasValidInvoice := true;
                 check_invoiceData := Some invoice_json;
                 check_amount := Some 10%Z |};
     makeQPayTokenRequest := Return token_json;
     getValidOrCreateInvoice := fun _ => Throw boom;
     storeUserInvoice := fun _ _ _ => Throw boom |}.

(** A backend without an invoice for the caller, which creates one. *)
Definition creating : Actor unit unit unit :=
  {| getCallerUserProfile := Throw boom;
     ensureCallerUserRole := Throw boom;
     getCallerUserRole := Throw boom;
     saveCallerUserProfile := fun _ => Throw boom;
     isCallerAdmin := Throw boom;
     getQPayCredentials := Throw boom;
     getQPayInvoiceConfig := Throw boom;
     getUserPayments := Throw boom;
     getAllPayments := Throw boom;
     getAllInvoices := Throw boom;
     getUserInvoice := Throw boom;
     checkForValidInvoice :=
       Return {| hasValidInvoice := false;
                 check_invoiceData := None;
                 check_amount := None |};
     makeQPayTokenRequest := Return token_json;
     getValidOrCreateInvoice := fun _ =>
       Return {| Backend.invoiceData := invoice_json;
                 isNewInvoice := true;
                 amount := 10%Z |};
     storeUserInvoice := fun _ _ _ => Return tt |}.

End Fixtures.

(* ================================================================== *)
(** * Observations on runs *)
(* ================================================================== *)

Module Obs.

(** The toast of the query functions that report a lost session. *)
Definition login_toast (e : Error) : list event :=
  if includes (message e) (lit "Unauthorized")
  then [Toast Failure (lit "Please log in again")]
  else [].

(** A name made of white space only; the empty name is one. *)
Definition blank (s : jsstring) : bool := forallb isWhiteSpace s.

(** The backend calls of a trace, in order. *)
Fixpoint calls (t : list event) : list call :=
  match t with
  | [] => []
  | Call c :: t' => c :: calls t'
  | _ :: t' => calls t'
  end.

Definition is_token (c : call) : bool :=
  match c with C_makeQPayTokenRequest => true | _ => false end.

Definition is_create (c : call) : bool :=
  match c with C_getValidOrCreateInvoice _ => true | _ => false end.

Definition is_store (c : call) : bool :=
  match c with C_storeUserInvoice _ _ _ => true | _ => false end.

Definition is_set_interval (e : event) : bool :=
  match e with SetInterval _ _ => true | _ => false end.

(** The order of the steps of the payment flow: check, token, create,
    store.  A run makes an initial part of it. *)
Definition in_flow_order (cs : list call) : bool :=
  match cs with
  | [] => true
  | [C_checkForValidInvoice] => true
  | [C_checkForValidInvoice; C_makeQPayTokenRequest] => true
  | [C_checkForValidInvoice; C_makeQPayTokenRequest;
     C_getValidOrCreateInvoice _] => true
  | [C_checkForValidInvoice; C_makeQPayTokenRequest;
     C_getValidOrCreateInvoice _; C_storeUserInvoice _ _ _] => true
  | _ => false
  end.

(** The check reported a valid invoice with data and amount. *)
Definition reported_valid (invoiceCheck : InvoiceCheckResult) : bool :=
  hasValidInvoice invoiceCheck
  && match check_invoiceData invoiceCheck with
     | Some data => str_truthy data
     | None => false
     end
  && match check_amount invoiceCheck with
     | Some _ => true
     | None => false
     end.

(** Events that neither call the backend nor set the polling timer. *)
Definition harmless (e : event) : bool :=
  match e with
  | Call _ | SetInterval _ _ => false
  | _ => true
  end.

(** A number from 0 to 99 as two decimal digits, with a leading zero
    below 10. *)
Definition two_digits (n : Z) : jsstring :=
  [Z.to_N (48 + n / 10); Z.to_N (48 + n mod 10)].

End Obs.

Import Obs.

(* ================================================================== *)
(** * The polling timer: invariants of the dashboard *)
(* ================================================================== *)

Module Polling.

Import UserDashboard.

Definition timers_ok (s : state) : Prop :=
  (pollingIntervalRef s = None /\ intervals s = [])
  \/ (exists n, pollingIntervalRef s = Some (S n)
                /\ intervals s = [(S n, 5000%Z)]
                /\ (S n < next_timer s)%nat
                /\ polling_cleanup s = true).

Definition settled (s : state) : Prop :=
  polling_cleanup s = payment_pending s
  /\ (payment_pending s = true -> intervals s <> []).

Definition pre_commit (s : state) : Prop :=
  (1 <= next_timer s)%nat
  /\ timers_ok s
  /\ (redirect_dirty s = true -> polling_dirty s = true)
  /\ (mounted s = true -> polling_dirty s = false -> settled s)
  /\ (mounted s = false ->
      pollingIntervalRef s = None /\ polling_cleanup s = false
      /\ redirect_dirty s = false /\ polling_dirty s = false).

Definition inv (s : state) : Prop :=
  pre_commit s /\ redirect_dirty s = false /\ polling_dirty s = false.

(** The polling effect has nothing registered and no timer runs. *)
Definition idle (s : state) : Prop :=
  pollingIntervalRef s = None /\ intervals s = []
  /\ polling_cleanup s = false.

(** What the effects leave behind for a mounted component. *)
Definition quiescent (s : state) : Prop :=
  mounted s = true /\ (1 <= next_timer s)%nat /\ timers_ok s /\ settled s.

Definition grows (s s' : state) : Prop :=
  (next_timer s <= next_timer s')%nat
  /\ forall x, active x (intervals s') = true ->
               active x (intervals s) = true \/ (next_timer s <= x)%nat.

Definition monotone (h : handler) : Prop := forall s, grows s (snd (h s)).

Definition ui (s : state) : value * value * status * bool :=
  (invoiceData s, paymentToken s, paymentStatus s, mounted s).

Definition keeps_ui (h : handler) : Prop := forall s, ui (snd (h s)) = ui s.

(** A handler that neither calls the backend nor sets the polling
    timer. *)
Definition timerless (h : handler) : Prop :=
  forall s, forallb harmless (fst (h s)) = true.

End Polling.

Unset Implicit Arguments.

(* ================================================================== *)
(** * Strings *)
(* ================================================================== *)

Lemma startsWith_app : forall p s, startsWith (p ++ s) p = true.
Proof.
  induction p as [|c p IH]; intros s; simpl.
  - reflexivity.
  - now rewrite N.eqb_refl, IH.
Qed.

(** C9. [getQRImageUrl] always returns a string that begins with
    [data:]; it returns an input that already begins with [data:]
    unchanged, prefixes any other input with [data:image/png;base64,],
    and applying it twice is the same as applying it once. *)
Theorem getQRImageUrl_data_url : forall qrImage : jsstring,
  startsWith (getQRImageUrl qrImage) (lit "data:") = true /\
  (startsWith qrImage (lit "data:") = true ->
   getQRImageUrl qrImage = qrImage) /\
  (startsWith qrImage (lit "data:") = false ->
   getQRImageUrl qrImage = lit "data:image/png;base64," ++ qrImage) /\
  getQRImageUrl (getQRImageUrl qrImage) = getQRImageUrl qrImage.
Proof.
  intros q.
  assert (Hdata : startsWith (getQRImageUrl q) (lit "data:") = true).
  { unfold getQRImageUrl.
    destruct (startsWith q (lit "data:")) eqn:E.
    - exact E.
    - change (lit "data:image/png;base64,")
        with (lit "data:" ++ lit "image/png;base64,").
      rewrite <- app_assoc. apply startsWith_app. }
  repeat split.
  - exact Hdata.
  - intros E. unfold getQRImageUrl. now rewrite E.
  - intros E. unfold getQRImageUrl. now rewrite E.
  - unfold getQRImageUrl at 1. now rewrite Hdata.
Qed.

(* ================================================================== *)
(** * The query functions and backend errors *)
(* ================================================================== *)

Section QueryErrors.

Variables QPayCredentials PaymentRecord InvoiceRecord : Type.

(** C6. When [getCallerUserRole] throws, whatever the error, the query
    function of [useGetCallerUserRole] catches it and returns the guest
    role, in the TypeScript hook and in its JavaScript variant. *)
Theorem role_query_defaults_to_guest : forall (a : Actor QPayCredentials PaymentRecord InvoiceRecord) (e : Error),
  getCallerUserRole a = Throw e ->
  UseQueries.useGetCallerUserRole_queryFn (Some a)
    = ([Call C_getCallerUserRole], Return guest) /\
  UseQueriesVariant.useGetCallerUserRole_queryFn (Some a)
    = ([Call C_getCallerUserRole], Return guest).
Proof.
  intros a e H.
  unfold UseQueries.useGetCallerUserRole_queryFn,
    UseQueriesVariant.useGetCallerUserRole_queryFn, await_call.
  rewrite H. split; reflexivity.
Qed.

(** C8, as amended. With an actor whose call succeeds both versions of
    [useGetInvoiceConfigForUser] return the backend's configuration.
    Without an actor the TypeScript hook returns [null] and the variant
    its fallback configuration.  When the call throws each returns its
    own fallback; the two fallbacks agree on the invoice number, the
    receiver code and the amount and differ in the description. *)
Theorem invoice_config_for_user_versions : forall actor : option (Actor QPayCredentials PaymentRecord InvoiceRecord),
  match actor with
  | None =>
      UseQueries.useGetInvoiceConfigForUser_queryFn actor = ([], Return None)
      /\ UseQueriesVariant.useGetInvoiceConfigForUser_queryFn actor
         = ([], Return (Some UseQueriesVariant.fallback_config))
  | Some a =>
      match getQPayInvoiceConfig a with
      | Return config =>
          UseQueries.useGetInvoiceConfigForUser_queryFn actor
            = ([Call C_getQPayInvoiceConfig], Return (Some config))
          /\ UseQueriesVariant.useGetInvoiceConfigForUser_queryFn actor
             = ([Call C_getQPayInvoiceConfig], Return (Some config))
      | Throw _ =>
          UseQueries.useGetInvoiceConfigForUser_queryFn actor
            = ([Call C_getQPayInvoiceConfig],
               Return (Some UseQueries.fallback_config))
          /\ UseQueriesVariant.useGetInvoiceConfigForUser_queryFn actor
             = ([Call C_getQPayInvoiceConfig],
                Return (Some UseQueriesVariant.fallback_config))
      end
  end
  /\ sender_invoice_no UseQueries.fallback_config
     = sender_invoice_no UseQueriesVariant.fallback_config
  /\ invoice_receiver_code UseQueries.fallback_config
     = invoice_receiver_code UseQueriesVariant.fallback_config
  /\ config_amount UseQueries.fallback_config
     = config_amount UseQueriesVariant.fallback_config
  /\ invoice_description UseQueries.fallback_config
     <> invoice_description UseQueriesVariant.fallback_config.
Proof.
  intros actor. split; [|repeat split; discriminate].
  destruct actor as [a|]; [|split; reflexivity].
  unfold UseQueries.useGetInvoiceConfigForUser_queryFn,
    UseQueriesVariant.useGetInvoiceConfigForUser_queryFn, await_call.
  destruct (getQPayInvoiceConfig a); split; reflexivity.
Qed.

(** C7, as amended. Nine of the ten query functions of
    [hooks/useQueries.ts] catch an error of their backend call and return
    a fallback value, some after the toast [Please log in again] for an
    error whose message includes [Unauthorized]; otherwise they return
    what the backend returned.  The query function of
    [useGetQPayInvoiceConfig] shows the same toast and then throws the
    error again. *)
Theorem query_functions_on_backend_outcome : forall a : Actor QPayCredentials PaymentRecord InvoiceRecord,
  UseQueries.useGetCallerUserProfile_queryFn (Some a)
    = ([Call C_getCallerUserProfile],
       match getCallerUserProfile a with
       | Return profile => Return profile
       | Throw _ => Return None
       end)
  /\ UseQueries.useGetCallerUserRole_queryFn (Some a)
     = ([Call C_getCallerUserRole],
        match getCallerUserRole a with
        | Return role => Return role
        | Throw _ => Return guest
        end)
  /\ UseQueries.useIsCallerAdmin_queryFn (Some a)
     = ([Call C_isCallerAdmin],
        match isCallerAdmin a with
        | Return b => Return b
        | Throw _ => Return false
        end)
  /\ UseQueries.useGetQPayCredentials_queryFn (Some a)
     = match getQPayCredentials a with
       | Return c => ([Call C_getQPayCredentials], Return c)
       | Throw e => (Call C_getQPayCredentials :: login_toast e, Return None)
       end
  /\ UseQueries.useGetUserPayments_queryFn (Some a)
     = match getUserPayments a with
       | Return l => ([Call C_getUserPayments], Return l)
       | Throw e => (Call C_getUserPayments :: login_toast e, Return [])
       end
  /\ UseQueries.useGetAllPayments_queryFn (Some a)
     = match getAllPayments a with
       | Return l => ([Call C_getAllPayments], Return l)
       | Throw e => (Call C_getAllPayments :: login_toast e, Return [])
       end
  /\ UseQueries.useGetAllInvoices_queryFn (Some a)
     = match getAllInvoices a with
       | Return l => ([Call C_getAllInvoices], Return l)
       | Throw e => (Call C_getAllInvoices :: login_toast e, Return [])
       end
  /\ UseQueries.useGetInvoiceConfigForUser_queryFn (Some a)
     = ([Call C_getQPayInvoiceConfig],
        match getQPayInvoiceConfig a with
        | Return config => Return (Some config)
        | Throw _ => Return (Some UseQueries.fallback_config)
        end)
  /\ UseQueries.useGetUserInvoice_queryFn (Some a)
     = ([Call C_getUserInvoice],
        match getUserInvoice a with
        | Return i => Return i
        | Throw _ => Return None
        end)
  /\ UseQueries.useGetQPayInvoiceConfig_queryFn (Some a)
     = match getQPayInvoiceConfig a with
       | Return config => ([Call C_getQPayInvoiceConfig], Return config)
       | Throw e => (Call C_getQPayInvoiceConfig :: login_toast e, Throw e)
       end.
Proof.
  intros a.
  unfold UseQueries.useGetCallerUserProfile_queryFn,
    UseQueries.useGetCallerUserRole_queryFn,
    UseQueries.useIsCallerAdmin_queryFn,
    UseQueries.useGetQPayCredentials_queryFn,
    UseQueries.useGetUserPayments_queryFn,
    UseQueries.useGetAllPayments_queryFn,
    UseQueries.useGetAllInvoices_queryFn,
    UseQueries.useGetInvoiceConfigForUser_queryFn,
    UseQueries.useGetUserInvoice_queryFn,
    UseQueries.useGetQPayInvoiceConfig_queryFn, await_call, login_toast.
  repeat split.
  - destruct (getCallerUserProfile a) as [p|e]; simpl; [reflexivity|].
    destruct (_ || _); reflexivity.
  - destruct (getCallerUserRole a); reflexivity.
  - destruct (isCallerAdmin a); reflexivity.
  - destruct (getQPayCredentials a) as [c|e]; simpl; [reflexivity|].
    destruct (includes _ _); reflexivity.
  - destruct (getUserPayments a) as [c|e]; simpl; [reflexivity|].
    destruct (includes _ _); reflexivity.
  - destruct (getAllPayments a) as [c|e]; simpl; [reflexivity|].
    destruct (includes _ _); reflexivity.
  - destruct (getAllInvoices a) as [c|e]; simpl; [reflexivity|].
    destruct (includes _ _); reflexivity.
  - destruct (getQPayInvoiceConfig a); reflexivity.
  - destruct (getUserInvoice a); reflexivity.
  - destruct (getQPayInvoiceConfig a) as [c|e]; simpl; [reflexivity|].
    destruct (includes _ _); reflexivity.
Qed.

End QueryErrors.

Lemma role_query_defaults_to_guest_witness :
  UseQueries.useGetCallerUserRole_queryFn (Some (Fixtures.rejecting Fixtures.boom))
    = ([Call C_getCallerUserRole], Return guest) /\
  UseQueriesVariant.useGetCallerUserRole_queryFn
    (Some (Fixtures.rejecting Fixtures.boom))
    = ([Call C_getCallerUserRole], Return guest).
Proof.
  apply (@role_query_defaults_to_guest unit unit unit
           (Fixtures.rejecting Fixtures.boom) Fixtures.boom).
  reflexivity.
Defined.

(** C8 as stated fails: without an actor the TypeScript hook returns
    [null], the variant a configuration. *)
Lemma invoice_config_versions_differ :
  result (UseQueries.useGetInvoiceConfigForUser_queryFn Fixtures.no_actor)
  <> result
       (UseQueriesVariant.useGetInvoiceConfigForUser_queryFn Fixtures.no_actor).
Proof. discriminate. Qed.

(** C7 as stated fails: an error of [getQPayInvoiceConfig] leaves the
    query function of [useGetQPayInvoiceConfig] as it came, with no toast
    and no fallback value. *)
Lemma invoice_config_query_rethrows :
  UseQueries.useGetQPayInvoiceConfig_queryFn
    (Some (Fixtures.rejecting Fixtures.boom))
  = ([Call C_getQPayInvoiceConfig], Throw Fixtures.boom).
Proof. reflexivity. Qed.

(* ================================================================== *)
(** * The profile form *)
(* ================================================================== *)

Lemma trimStart_blank : forall s, blank s = true -> trimStart s = [].
Proof.
  induction s as [|c s IH]; simpl; intros H.
  - reflexivity.
  - apply andb_prop in H. destruct H as [Hc Hs].
    rewrite Hc. now apply IH.
Qed.

Lemma trim_blank : forall s, blank s = true -> trim s = [].
Proof.
  intros s H. unfold trim, trimEnd.
  now rewrite (trimStart_blank s H).
Qed.

(** C5, as amended. For a name that is empty or white space only,
    [handleSubmit] returns without starting the mutation, and the mutation
    function of [useSaveCallerUserProfile] throws before it reaches
    [saveCallerUserProfile]: [Name is required] when the actor is
    available, [Actor not available] when it is not. *)
Theorem empty_name_is_not_saved :
  forall (QPayCredentials PaymentRecord InvoiceRecord : Type)
         (actor : option (Actor QPayCredentials PaymentRecord InvoiceRecord))
         (name : jsstring) (showSuccess : bool),
  blank name = true ->
  ProfileSetupModal.handleSubmit actor name showSuccess = ([], showSuccess)
  /\ UseQueries.useSaveCallerUserProfile_mutationFn actor (mkProfile name)
     = ([], Throw (mkError (match actor with
                            | Some _ => lit "Name is required"
                            | None => lit "Actor not available"
                            end))).
Proof.
  intros Q P I actor name showSuccess H.
  pose proof (trim_blank name H) as Ht.
  split.
  - unfold ProfileSetupModal.handleSubmit. now rewrite Ht.
  - unfold UseQueries.useSaveCallerUserProfile_mutationFn.
    destruct actor as [a|]; [|reflexivity].
    simpl. rewrite Ht. simpl. now rewrite orb_true_r.
Qed.

Lemma empty_name_is_not_saved_witness :
  ProfileSetupModal.handleSubmit (Some (Fixtures.rejecting Fixtures.boom))
    (lit "  ") false = ([], false)
  /\ UseQueries.useSaveCallerUserProfile_mutationFn
       (Some (Fixtures.rejecting Fixtures.boom)) (mkProfile (lit "  "))
     = ([], Throw (mkError (lit "Name is required"))).
Proof.
  apply (@empty_name_is_not_saved unit unit unit
           (Some (Fixtures.rejecting Fixtures.boom)) (lit "  ") false).
  reflexivity.
Defined.

(** C5 as stated fails: without an actor the hook fails with a different
    error. *)
Lemma empty_name_without_actor :
  result (UseQueries.useSaveCallerUserProfile_mutationFn Fixtures.no_actor
            (mkProfile []))
  = Throw (mkError (lit "Actor not available"))
  /\ result (UseQueries.useSaveCallerUserProfile_mutationFn Fixtures.no_actor
               (mkProfile []))
     <> Throw (mkError (lit "Name is required")).
Proof. split; [reflexivity | discriminate]. Qed.

(* ================================================================== *)
(** * The payment flow *)
(* ================================================================== *)

(** Splits the goal on every value a run depends on: the outcomes of the
    backend, of [JSON.parse] and of the property reads, and the guards. *)
Ltac split_run :=
  repeat match goal with
         | |- context [match ?x with _ => _ end] =>
             lazymatch x with
             | context [match _ with _ => _ end] => fail
             | _ => destruct x eqn:?; simpl in *
             end
         | |- context [if ?x then _ else _] =>
             lazymatch x with
             | context [if _ then _ else _] => fail
             | _ => destruct x eqn:?; simpl in *
             end
         end.

Ltac unfold_flow :=
  unfold PaymentFlow.useMakeQPayPayment_mutationFn,
    PaymentFlow.finish_payment, PaymentFlow.storeInvoice_mutateAsync,
    PaymentFlow.useStoreUserInvoice_mutationFn,
    PaymentFlow.useStoreUserInvoice_onSuccess, PaymentFlow.access_token,
    mutateAsync, read_prop, await_call, try_catch, bind, lift, emit, ret,
    throw, rethrow, trace, result.

Section FlowOrder.

Variables QPayCredentials PaymentRecord InvoiceRecord : Type.
Variable host : Host.

Lemma existing_invoice_reported : forall invoiceCheck,
  reported_valid invoiceCheck = true ->
  exists data amt, PaymentFlow.existing_invoice invoiceCheck = Some (data, amt).
Proof.
  intros [valid data amt]. unfold reported_valid, PaymentFlow.existing_invoice.
  simpl. destruct valid; simpl; [|discriminate].
  destruct data as [d|]; simpl; [|discriminate].
  destruct (str_truthy d); simpl; [|discriminate].
  destruct amt as [z|]; [|discriminate]. intros _. now exists d, z.
Qed.

Lemma flow_in_order :
  forall actor : option (Actor QPayCredentials PaymentRecord InvoiceRecord),
  in_flow_order
    (calls (trace (PaymentFlow.useMakeQPayPayment_mutationFn host actor)))
  = true.
Proof.
  intros actor. unfold_flow. simpl.
  split_run; reflexivity.
Qed.

Lemma check_comes_first : forall cs c,
  in_flow_order cs = true -> In c cs -> c <> C_checkForValidInvoice ->
  exists rest, cs = C_checkForValidInvoice :: rest /\ In c rest.
Proof.
  intros cs c H Hin Hne.
  destruct cs as [|c0 cs]; [contradiction|].
  destruct c0; try discriminate H.
  exists cs. split; [reflexivity|].
  destruct Hin as [E|Hin]; [now symmetry in E|exact Hin].
Qed.


End FlowOrder.

(* ================================================================== *)
(** * The polling timer *)
(* ================================================================== *)

Section PollingTimer.

Import UserDashboard Polling.

Lemma same_value_truthy : forall a b,
  same_value a b = true -> truthy a = truthy b.
Proof.
  intros [|[]] [|[]]; simpl; try discriminate; try reflexivity.
  - intros H. apply Bool.eqb_prop in H. now subst.
  - destruct x, x0; simpl; try discriminate; reflexivity.
  - destruct s, s0; simpl; try discriminate; reflexivity.
Qed.

Lemma status_eqb_eq : forall a b, status_eqb a b = true -> a = b.
Proof. intros [] []; simpl; congruence. Qed.

Lemma snd_andThen : forall f g s, snd (andThen f g s) = snd (g (snd (f s))).
Proof.
  intros f g s. unfold andThen.
  destruct (f s) as [l s']. simpl. now destruct (g s').
Qed.

Lemma fst_andThen : forall f g s,
  fst (andThen f g s) = fst (f s) ++ fst (g (snd (f s))).
Proof.
  intros f g s. unfold andThen.
  destruct (f s) as [l s']. simpl. now destruct (g s').
Qed.

Lemma pre_commit_setPaymentStatus : forall p s,
  pre_commit s -> pre_commit (snd (setPaymentStatus p s)).
Proof.
  intros p s H. unfold setPaymentStatus.
  destruct (mounted s) eqn:Hm; simpl; [|exact H].
  destruct H as (Hn & Ht & Hd & Hs & Hu).
  split; [exact Hn|]. split; [exact Ht|]. simpl.
  destruct (status_eqb (paymentStatus s) p) eqn:E; simpl;
    rewrite ?orb_true_r, ?orb_false_r.
  - apply status_eqb_eq in E. subst p.
    split; [exact Hd|]. split; [|discriminate].
    intros _ Hpd. destruct s; simpl in *; apply Hs; auto.
  - split; [reflexivity|]. split; discriminate.
Qed.

Lemma pre_commit_setInvoiceData : forall v s,
  pre_commit s -> pre_commit (snd (setInvoiceData v s)).
Proof.
  intros v s H. unfold setInvoiceData.
  destruct (mounted s) eqn:Hm; simpl; [|exact H].
  destruct H as (Hn & Ht & Hd & Hs & Hu).
  split; [exact Hn|]. split; [exact Ht|]. simpl.
  destruct (same_value (invoiceData s) v) eqn:E; simpl;
    rewrite ?orb_true_r, ?orb_false_r.
  - apply same_value_truthy in E.
    split; [exact Hd|]. split; [|discriminate].
    intros _ Hpd. specialize (Hs Hm Hpd).
    unfold settled, payment_pending in *. simpl. now rewrite <- E.
  - split; [reflexivity|]. split; discriminate.
Qed.

Lemma pre_commit_setPaymentToken : forall v s,
  pre_commit s -> pre_commit (snd (setPaymentToken v s)).
Proof.
  intros v s H. unfold setPaymentToken.
  destruct (mounted s) eqn:Hm; simpl; [|exact H].
  destruct H as (Hn & Ht & Hd & Hs & Hu).
  split; [exact Hn|]. split; [exact Ht|]. simpl.
  destruct (same_value (paymentToken s) v) eqn:E; simpl;
    rewrite ?orb_true_r, ?orb_false_r.
  - apply same_value_truthy in E.
    split; [exact Hd|]. split; [|discriminate].
    intros _ Hpd. specialize (Hs Hm Hpd).
    unfold settled, payment_pending in *. simpl. now rewrite <- E.
  - split; [reflexivity|]. split; discriminate.
Qed.

Lemma pre_commit_setOther : forall qr err checked s,
  pre_commit s -> pre_commit (snd (setOther qr err checked s)).
Proof.
  intros qr err checked s H. unfold setOther.
  destruct (mounted s) eqn:Hm; simpl; [|exact H].
  destruct s; simpl in *. subst. exact H.
Qed.

Lemma pre_commit_timeouts : forall tm s,
  pre_commit s ->
  pre_commit (with_browser (pollingIntervalRef s) (intervals s) tm
                (next_timer s) s).
Proof. intros tm s H. destruct s; exact H. Qed.

(** [cleanupAndRedirect] stops the timer and, in the same batch, resets
    [invoiceData]: either that is a change, or no payment was pending. *)
Lemma pre_commit_stop_reset : forall s,
  pre_commit s ->
  pre_commit (snd (andThen stop_polling (setInvoiceData null) s)).
Proof.
  intros s H. rewrite snd_andThen.
  pose proof H as (Hn & Ht & Hd & Hs & Hu).
  destruct Ht as [[Href Hiv] | (n & Href & Hiv & Hlt & Hpc)].
  - unfold stop_polling. rewrite Href. simpl.
    now apply pre_commit_setInvoiceData.
  - destruct (mounted s) eqn:Hm.
    2:{ destruct (Hu eq_refl) as (Hnone & _). congruence. }
    unfold stop_polling. rewrite Href. rewrite snd_andThen. 
    unfold clearInterval, setRef, setInvoiceData. simpl. rewrite Hm. simpl.
    split; [exact Hn|]. split; [left; split; [reflexivity|] |].
    { rewrite Hiv. unfold remove_timer. simpl. now rewrite Nat.eqb_refl. }
    split.
    { simpl. intros Hr. rewrite (Hd Hr). reflexivity. }
    split; [|discriminate]. simpl. intros _ Hpd.
    apply orb_false_iff in Hpd. destruct Hpd as [Hpd Hsame].
    apply negb_false_iff, same_value_truthy in Hsame. simpl in Hsame.
    destruct (Hs eq_refl Hpd) as [Hc Hp].
    unfold settled, payment_pending in *. simpl.
    rewrite Hsame in *. simpl in *. split; [exact Hc|discriminate].
Qed.

Lemma pre_commit_cleanupAndRedirect : forall s,
  pre_commit s -> pre_commit (snd (cleanupAndRedirect s)).
Proof.
  intros s H. unfold cleanupAndRedirect.
  rewrite snd_andThen. rewrite 5 snd_andThen.
  apply pre_commit_setOther, pre_commit_setOther, pre_commit_setPaymentStatus,
    pre_commit_setOther, pre_commit_setPaymentToken.
  rewrite <- snd_andThen. now apply pre_commit_stop_reset.
Qed.

Lemma pre_commit_handle : forall i s,
  pre_commit s -> pre_commit (snd (handle i s)).
Proof.
  intros i s H. unfold handle.
  destruct i.
  all: try (destruct (mounted s); [|exact H]).
  - rewrite snd_andThen.
    now apply pre_commit_setPaymentStatus, pre_commit_setOther.
  - rewrite snd_andThen.
    now apply pre_commit_setPaymentToken, pre_commit_setInvoiceData.
  - now apply pre_commit_setOther.
  - destruct (active id (intervals s)); [|exact H].
    unfold poll. rewrite snd_andThen. simpl.
    now apply pre_commit_setPaymentStatus.
  - destruct (active id (timeouts s)); [|exact H].
    rewrite snd_andThen. simpl.
    now apply pre_commit_cleanupAndRedirect, pre_commit_timeouts.
  - destruct isPaid as [[|]|]; now apply pre_commit_setPaymentStatus.
  - destruct (_ && _); [|exact H]. rewrite snd_andThen. simpl.
    now apply pre_commit_setOther.
  - destruct isPaid; [|exact H]. now apply pre_commit_setPaymentStatus.
  - now apply pre_commit_cleanupAndRedirect.
  - now apply pre_commit_setOther.
  - exact H.
  - exact H.
Qed.

Lemma inv_unmounted : forall s,
  pre_commit s -> mounted s = false -> inv s.
Proof.
  intros s H Hm. split; [exact H|].
  destruct H as (_ & _ & _ & _ & Hu). now destruct (Hu Hm) as (_ & _ & ? & ?).
Qed.


Lemma run_redirect_cleanup_keeps : forall s,
  mounted s = true -> (1 <= next_timer s)%nat -> timers_ok s ->
  let s' := snd (run_redirect_cleanup s) in
  mounted s' = true /\ (1 <= next_timer s')%nat /\ timers_ok s'
  /\ payment_pending s' = payment_pending s.
Proof.
  intros s Hm Hn Ht. unfold run_redirect_cleanup.
  destruct (redirect_cleanup s) as [id|]; simpl; [|now repeat split].
  destruct s; simpl in *. now repeat split.
Qed.

Lemma run_polling_cleanup_idle : forall s,
  mounted s = true -> (1 <= next_timer s)%nat -> timers_ok s ->
  let s' := snd (run_polling_cleanup s) in
  mounted s' = true /\ (1 <= next_timer s')%nat /\ idle s'
  /\ payment_pending s' = payment_pending s.
Proof.
  intros s Hm Hn Ht. unfold run_polling_cleanup, idle.
  destruct Ht as [[Href Hiv] | (n & Href & Hiv & Hlt & Hpc)].
  - destruct (polling_cleanup s) eqn:Hpc; simpl; [|now repeat split].
    rewrite snd_andThen. unfold stop_polling. rewrite Href.
    destruct s; simpl in *. now repeat split.
  - rewrite Hpc. rewrite snd_andThen. unfold stop_polling. rewrite Href.
    rewrite snd_andThen.
    destruct s; simpl in *. subst. unfold remove_timer. simpl.
    rewrite Nat.eqb_refl. simpl. now repeat split.
Qed.

Lemma redirect_effect_idle : forall s,
  mounted s = true -> (1 <= next_timer s)%nat -> idle s ->
  let s' := snd (redirect_effect s) in
  mounted s' = true /\ (1 <= next_timer s')%nat /\ idle s'
  /\ payment_pending s' = payment_pending s.
Proof.
  intros s Hm Hn (Href & Hiv & Hpc). unfold redirect_effect, idle.
  destruct (status_eqb (paymentStatus s) paid).
  - rewrite snd_andThen. unfold stop_polling. rewrite Href.
    destruct s; simpl in *. repeat split; auto.
  - destruct s; simpl in *. now repeat split.
Qed.

Lemma polling_effect_quiescent : forall s,
  mounted s = true -> (1 <= next_timer s)%nat -> idle s ->
  quiescent (snd (polling_effect s)).
Proof.
  intros s Hm Hn (Href & Hiv & Hpc). unfold polling_effect, quiescent.
  destruct (payment_pending s) eqn:Hp.
  - rewrite snd_andThen. rewrite Href. rewrite snd_andThen.
    destruct s; simpl in *. subst.
    unfold timers_ok, settled, payment_pending in *. simpl in *.
    rewrite Hp.
    destruct next_timer0 as [|n]; [lia|].
    repeat split; auto; [|discriminate].
    right. exists n. repeat split; auto.
  - destruct s; simpl in *. subst.
    unfold timers_ok, settled, payment_pending in *. simpl in *.
    rewrite Hp. repeat split; auto; discriminate.
Qed.

Lemma clear_dirty_inv : forall s,
  quiescent s -> inv (snd (clear_dirty s)).
Proof.
  intros s (Hm & Hn & Ht & Hs).
  destruct s; simpl in *. subst.
  unfold inv, pre_commit. simpl.
  split; [|split; reflexivity].
  split; [exact Hn|]. split; [exact Ht|]. split; [discriminate|].
  split; [intros _ _; exact Hs | discriminate].
Qed.

Lemma cleanups_then_redirect : forall (rd : bool) s,
  mounted s = true -> (1 <= next_timer s)%nat -> timers_ok s ->
  let s1 := snd ((if rd then run_redirect_cleanup else skip) s) in
  let s2 := snd (run_polling_cleanup s1) in
  let s3 := snd ((if rd then redirect_effect else skip) s2) in
  mounted s3 = true /\ (1 <= next_timer s3)%nat /\ idle s3.
Proof.
  intros rd s Hm Hn Ht s1 s2 s3.
  assert (H1 : mounted s1 = true /\ (1 <= next_timer s1)%nat /\ timers_ok s1).
  { subst s1. destruct rd; [|simpl; auto].
    destruct (run_redirect_cleanup_keeps s Hm Hn Ht) as (? & ? & ? & _).
    auto. }
  destruct H1 as (Hm1 & Hn1 & Ht1).
  destruct (run_polling_cleanup_idle s1 Hm1 Hn1 Ht1) as (Hm2 & Hn2 & Hi2 & _).
  fold s2 in Hm2, Hn2, Hi2.
  subst s3. destruct rd; [|simpl; auto].
  destruct (redirect_effect_idle s2 Hm2 Hn2 Hi2) as (? & ? & ? & _).
  auto.
Qed.

Lemma commit_inv : forall fresh s,
  pre_commit s -> inv (snd (commit fresh s)).
Proof.
  intros fresh s H. unfold commit.
  destruct (mounted s) eqn:Hm; [|now apply inv_unmounted].
  destruct H as (Hn & Ht & Hd & Hs & _).
  rewrite 4 snd_andThen. apply clear_dirty_inv.
  destruct (fresh || polling_dirty s) eqn:Hpd.
  - destruct (cleanups_then_redirect (redirect_dirty s) s Hm Hn Ht)
      as (Hm3 & Hn3 & Hi3).
    now apply polling_effect_quiescent.
  - apply orb_false_iff in Hpd. destruct Hpd as [_ Hpd].
    destruct (redirect_dirty s) eqn:Hrd;
      [rewrite (Hd eq_refl) in Hpd; discriminate|].
    simpl. repeat split; auto; now apply Hs.
Qed.

Lemma unmount_inv : forall s, inv s -> inv (snd (unmount s)).
Proof.
  intros s H. unfold unmount.
  destruct (mounted s) eqn:Hm; [|exact H].
  destruct H as ((Hn & Ht & _) & _).
  rewrite 3 snd_andThen.
  destruct (run_redirect_cleanup_keeps s Hm Hn Ht) as (Hm1 & Hn1 & Ht1 & _).
  destruct (run_polling_cleanup_idle _ Hm1 Hn1 Ht1) as (Hm2 & Hn2 & Hi2 & _).
  destruct Hi2 as (Href & Hiv & Hpc).
  unfold stop_polling at 1. rewrite Href.
  set (s2 := snd (run_polling_cleanup (snd (run_redirect_cleanup s)))) in *.
  destruct s2; simpl in *. subst.
  unfold inv, pre_commit, timers_ok. simpl.
  repeat split; auto; discriminate.
Qed.

Lemma step_inv : forall i fresh s, inv s -> inv (snd (step i fresh s)).
Proof.
  intros i fresh s H.
  assert (Hc : inv (snd (andThen (handle i) (commit fresh) s))).
  { rewrite snd_andThen. apply commit_inv, pre_commit_handle, H. }
  destruct i; try exact Hc. now apply unmount_inv.
Qed.

Lemma initial_inv : inv initial.
Proof.
  unfold inv, pre_commit, timers_ok, settled, initial. simpl.
  repeat split; auto; discriminate.
Qed.

Lemma run_inv : forall ins s, inv s -> inv (snd (run ins s)).
Proof.
  induction ins as [|[i fresh] ins IH]; intros s H; simpl.
  - exact H.
  - rewrite snd_andThen. apply IH. now apply step_inv.
Qed.

(** What the invariant says about the timers. *)
Lemma inv_pending : forall s,
  inv s -> mounted s = true -> payment_pending s = true ->
  exists id, intervals s = [(id, 5000%Z)] /\ pollingIntervalRef s = Some id.
Proof.
  intros s ((_ & Ht & _ & Hs & _) & _ & Hpd) Hm Hp.
  destruct (Hs Hm Hpd) as [_ Hne]. specialize (Hne Hp).
  destruct Ht as [[_ Hiv] | (n & Href & Hiv & _)]; [contradiction|].
  now exists (S n).
Qed.

Lemma inv_not_pending : forall s,
  inv s -> mounted s && payment_pending s = false -> intervals s = [].
Proof.
  intros s ((_ & Ht & _ & Hs & Hu) & _ & Hpd) H.
  destruct Ht as [[_ Hiv] | (n & Href & Hiv & _ & Hpc)]; [exact Hiv|].
  destruct (mounted s) eqn:Hm.
  - simpl in H. destruct (Hs eq_refl Hpd) as [Hc _]. congruence.
  - destruct (Hu eq_refl) as (Hnone & _). congruence.
Qed.

(** Timer identifiers are never reused. *)

Lemma grows_refl : forall s, grows s s.
Proof. intros s. split; auto. Qed.

Lemma grows_trans : forall s1 s2 s3, grows s1 s2 -> grows s2 s3 -> grows s1 s3.
Proof.
  intros s1 s2 s3 [Hn1 Ha1] [Hn2 Ha2]. split; [lia|].
  intros x Hx. destruct (Ha2 x Hx) as [H|H]; [auto|right; lia].
Qed.

Lemma grows_same : forall s s',
  intervals s' = intervals s -> next_timer s' = next_timer s -> grows s s'.
Proof. intros s s' Hi Hn. split; [lia|]. rewrite Hi. auto. Qed.

Lemma monotone_skip : monotone skip.
Proof. intros s. apply grows_refl. Qed.

Lemma monotone_andThen : forall f g,
  monotone f -> monotone g -> monotone (andThen f g).
Proof.
  intros f g Hf Hg s. rewrite snd_andThen.
  eapply grows_trans; [apply Hf | apply Hg].
Qed.

Lemma monotone_if : forall (b : bool) f g,
  monotone f -> monotone g -> monotone (if b then f else g).
Proof. intros [] f g Hf Hg; assumption. Qed.

Lemma active_remove : forall x id l,
  active x (remove_timer id l) = true -> active x l = true.
Proof.
  intros x id l. unfold active, remove_timer.
  rewrite !existsb_exists. intros (t & Hin & Ht).
  apply filter_In in Hin. exists t. tauto.
Qed.

Lemma active_app : forall x l id ms,
  active x (l ++ [(id, ms)]) = true -> active x l = true \/ x = id.
Proof.
  intros x l id ms. unfold active. rewrite existsb_app. simpl.
  rewrite orb_false_r. intros H. apply orb_true_iff in H.
  destruct H as [H|H]; [now left|right].
  apply Nat.eqb_eq in H. now symmetry.
Qed.

Lemma monotone_setInvoiceData : forall v, monotone (setInvoiceData v).
Proof.
  intros v s. unfold setInvoiceData.
  destruct (mounted s); [|apply grows_refl]. now apply grows_same.
Qed.

Lemma monotone_setPaymentToken : forall v, monotone (setPaymentToken v).
Proof.
  intros v s. unfold setPaymentToken.
  destruct (mounted s); [|apply grows_refl]. now apply grows_same.
Qed.

Lemma monotone_setPaymentStatus : forall p, monotone (setPaymentStatus p).
Proof.
  intros p s. unfold setPaymentStatus.
  destruct (mounted s); [|apply grows_refl]. now apply grows_same.
Qed.

Lemma monotone_setOther : forall qr err checked,
  monotone (setOther qr err checked).
Proof.
  intros qr err checked s. unfold setOther.
  destruct (mounted s); [|apply grows_refl]. now apply grows_same.
Qed.

Lemma monotone_setShowQRModal : forall b, monotone (setShowQRModal b).
Proof. intros b s. apply monotone_setOther. Qed.

Lemma monotone_setPaymentError : forall e, monotone (setPaymentError e).
Proof. intros e s. apply monotone_setOther. Qed.

Lemma monotone_setHasCheckedOnLoad : forall b, monotone (setHasCheckedOnLoad b).
Proof. intros b s. apply monotone_setOther. Qed.

Lemma monotone_clearInterval : forall id, monotone (clearInterval id).
Proof.
  intros id s. split; simpl; [lia|].
  intros x Hx. left. now apply active_remove in Hx.
Qed.

Lemma monotone_clearTimeout : forall id, monotone (clearTimeout id).
Proof. intros id s. now apply grows_same. Qed.

Lemma monotone_setRef : forall r, monotone (setRef r).
Proof. intros r s. now apply grows_same. Qed.

Lemma monotone_setInterval_ref : forall ms, monotone (setInterval_ref ms).
Proof.
  intros ms s. split; simpl; [lia|].
  intros x Hx. apply active_app in Hx. destruct Hx as [H|H]; [now left|].
  right. lia.
Qed.

Lemma monotone_setTimeout_redirect : forall ms,
  monotone (setTimeout_redirect ms).
Proof. intros ms s. split; simpl; [lia|]. auto. Qed.

Lemma monotone_set_redirect_cleanup : forall rc,
  monotone (set_redirect_cleanup rc).
Proof. intros rc s. now apply grows_same. Qed.

Lemma monotone_set_polling_cleanup : forall pc,
  monotone (set_polling_cleanup pc).
Proof. intros pc s. now apply grows_same. Qed.

Lemma monotone_clear_dirty : monotone clear_dirty.
Proof. intros s. now apply grows_same. Qed.

Create HintDb timers.

#[local] Hint Resolve monotone_skip monotone_andThen monotone_if
  monotone_setInvoiceData monotone_setPaymentToken monotone_setPaymentStatus
  monotone_setShowQRModal monotone_setPaymentError
  monotone_setHasCheckedOnLoad monotone_clearInterval monotone_clearTimeout
  monotone_setRef monotone_setInterval_ref monotone_setTimeout_redirect
  monotone_set_redirect_cleanup monotone_set_polling_cleanup
  monotone_clear_dirty grows_refl : timers.

Lemma monotone_stop_polling : monotone stop_polling.
Proof.
  intros s. unfold stop_polling.
  destruct (pollingIntervalRef s) as [[|n]|]; auto with timers.
  apply monotone_andThen; auto with timers.
Qed.

#[local] Hint Resolve monotone_stop_polling : timers.

Lemma monotone_cleanupAndRedirect : monotone cleanupAndRedirect.
Proof. unfold cleanupAndRedirect. auto 10 with timers. Qed.

Lemma monotone_redirect_effect : monotone redirect_effect.
Proof.
  intros s. unfold redirect_effect.
  destruct (status_eqb (paymentStatus s) paid).
  - apply monotone_andThen; auto with timers.
  - apply monotone_set_redirect_cleanup.
Qed.

Lemma monotone_run_redirect_cleanup : monotone run_redirect_cleanup.
Proof.
  intros s. unfold run_redirect_cleanup.
  destruct (redirect_cleanup s); auto with timers.
  apply monotone_andThen; auto with timers.
Qed.

Lemma monotone_polling_effect : monotone polling_effect.
Proof.
  intros s. unfold polling_effect.
  destruct (payment_pending s).
  - apply monotone_andThen; auto with timers.
    intros s'. destruct (pollingIntervalRef s') as [[|n]|]; auto with timers.
    apply monotone_clearInterval.
  - apply monotone_set_polling_cleanup.
Qed.

Lemma monotone_run_polling_cleanup : monotone run_polling_cleanup.
Proof.
  intros s. unfold run_polling_cleanup.
  destruct (polling_cleanup s); auto with timers.
  apply monotone_andThen; auto with timers.
Qed.

#[local] Hint Resolve monotone_cleanupAndRedirect monotone_redirect_effect
  monotone_run_redirect_cleanup monotone_polling_effect
  monotone_run_polling_cleanup : timers.

Lemma monotone_commit : forall fresh, monotone (commit fresh).
Proof.
  intros fresh s. unfold commit.
  destruct (mounted s); auto with timers.
  apply monotone_andThen; auto 10 with timers.
Qed.

Lemma monotone_unmount : monotone unmount.
Proof.
  intros s. unfold unmount.
  destruct (mounted s); [|apply grows_refl].
  apply monotone_andThen; [auto with timers|].
  apply monotone_andThen; [auto with timers|].
  apply monotone_andThen; [auto with timers|].
  intros s'. now apply grows_same.
Qed.

Lemma monotone_poll : monotone poll.
Proof.
  intros s. unfold poll. rewrite snd_andThen. simpl.
  apply monotone_setPaymentStatus.
Qed.

Lemma monotone_handle : forall i, monotone (handle i).
Proof.
  intros i s. unfold handle.
  destruct i.
  all: try (destruct (mounted s); [|apply grows_refl]).
  - apply monotone_andThen; auto with timers.
  - apply monotone_andThen; auto with timers.
  - apply monotone_setPaymentError.
  - destruct (active id (intervals s)); [apply monotone_poll|apply grows_refl].
  - destruct (active id (timeouts s)); [|apply grows_refl].
    apply monotone_andThen; [|apply monotone_cleanupAndRedirect].
    intros s'. now apply grows_same.
  - destruct isPaid as [[|]|]; apply monotone_setPaymentStatus.
  - destruct (_ && _); [|apply grows_refl].
    rewrite snd_andThen. simpl. apply monotone_setHasCheckedOnLoad.
  - destruct isPaid; [apply monotone_setPaymentStatus|apply grows_refl].
  - apply monotone_cleanupAndRedirect.
  - apply monotone_setShowQRModal.
  - apply grows_refl.
  - apply grows_refl.
Qed.

Lemma monotone_step : forall i fresh, monotone (step i fresh).
Proof.
  intros i fresh.
  assert (H : monotone (andThen (handle i) (commit fresh))).
  { apply monotone_andThen; [apply monotone_handle|apply monotone_commit]. }
  destruct i; try exact H. apply monotone_unmount.
Qed.

Lemma monotone_run : forall ins, monotone (run ins).
Proof.
  induction ins as [|[i fresh] ins IH]; intros s; simpl.
  - apply grows_refl.
  - apply monotone_andThen; [apply monotone_step|exact IH].
Qed.

Lemma cleared_forever : forall more s id,
  (id < next_timer s)%nat -> active id (intervals s) = false ->
  active id (intervals (snd (run more s))) = false.
Proof.
  intros more s id Hlt Hna.
  destruct (monotone_run more s) as [_ H].
  destruct (active id (intervals (snd (run more s)))) eqn:E; [|reflexivity].
  destruct (H id E) as [Ha|Hge]; [congruence|lia].
Qed.

(** What a render leaves alone. *)

Lemma keeps_ui_andThen : forall f g,
  keeps_ui f -> keeps_ui g -> keeps_ui (andThen f g).
Proof.
  intros f g Hf Hg s. rewrite snd_andThen. now rewrite Hg, Hf.
Qed.

Lemma keeps_ui_if : forall (b : bool) f g,
  keeps_ui f -> keeps_ui g -> keeps_ui (if b then f else g).
Proof. intros [] f g Hf Hg; assumption. Qed.

Lemma keeps_ui_skip : keeps_ui skip.
Proof. intros s. reflexivity. Qed.

Lemma keeps_ui_stop_polling : keeps_ui stop_polling.
Proof.
  intros s. unfold stop_polling.
  destruct (pollingIntervalRef s) as [[|n]|]; reflexivity.
Qed.

Lemma keeps_ui_run_redirect_cleanup : keeps_ui run_redirect_cleanup.
Proof.
  intros s. unfold run_redirect_cleanup.
  destruct (redirect_cleanup s); reflexivity.
Qed.

Lemma keeps_ui_run_polling_cleanup : keeps_ui run_polling_cleanup.
Proof.
  intros s. unfold run_polling_cleanup.
  destruct (polling_cleanup s); [|reflexivity].
  rewrite snd_andThen. simpl. apply keeps_ui_stop_polling.
Qed.

Lemma keeps_ui_redirect_effect : keeps_ui redirect_effect.
Proof.
  intros s. unfold redirect_effect.
  destruct (status_eqb (paymentStatus s) paid); [|reflexivity].
  rewrite snd_andThen. simpl. apply keeps_ui_stop_polling.
Qed.

Lemma keeps_ui_polling_effect : keeps_ui polling_effect.
Proof.
  intros s. unfold polling_effect.
  destruct (payment_pending s); [|reflexivity].
  rewrite 2 snd_andThen. simpl.
  destruct (pollingIntervalRef s) as [[|n]|]; reflexivity.
Qed.

Lemma keeps_ui_clear_dirty : keeps_ui clear_dirty.
Proof. intros s. reflexivity. Qed.

Lemma keeps_ui_commit : forall fresh, keeps_ui (commit fresh).
Proof.
  intros fresh s. unfold commit.
  destruct (mounted s); [|reflexivity].
  repeat (apply keeps_ui_andThen || apply keeps_ui_if).
  all: first [ apply keeps_ui_skip | apply keeps_ui_run_redirect_cleanup
             | apply keeps_ui_run_polling_cleanup
             | apply keeps_ui_redirect_effect | apply keeps_ui_polling_effect
             | apply keeps_ui_clear_dirty ].
Qed.

Lemma pending_of_ui : forall s s',
  ui s' = ui s -> payment_pending s' = payment_pending s.
Proof.
  intros s s' H. unfold ui in H. injection H as Hi Ht Hp Hm.
  unfold payment_pending. now rewrite Hi, Ht, Hp.
Qed.

Lemma back_not_pending : forall fresh s,
  mounted (snd (step Back fresh s)) && payment_pending (snd (step Back fresh s))
  = false.
Proof.
  intros fresh s. unfold step. rewrite snd_andThen.
  remember (snd (handle Back s)) as s1 eqn:Hs1.
  pose proof (keeps_ui_commit fresh s1) as Hk.
  rewrite (pending_of_ui _ _ Hk).
  unfold ui in Hk. injection Hk as _ _ _ ->. subst s1.
  unfold handle. destruct (mounted s) eqn:Hm; simpl; [|now rewrite Hm].
  apply andb_false_intro2.
  unfold cleanupAndRedirect. rewrite 6 snd_andThen.
  unfold stop_polling.
  destruct (pollingIntervalRef s) as [[|n]|]; destruct s; simpl in *; subst;
    reflexivity.
Qed.

Lemma unmount_unmounted : forall fresh s,
  mounted (snd (step Unmount fresh s)) = false.
Proof.
  intros fresh s. unfold step, unmount.
  destruct (mounted s) eqn:Hm; [|exact Hm].
  rewrite 3 snd_andThen. reflexivity.
Qed.


(** A payment is made, the timer fires twice, the second check finds the
    invoice paid: each change of the status replaces the timer, the paid
    status leaves none. *)
Example polling_run :
  let invoice := VJson (JObj [(lit "invoice_id", JStr (lit "INV-1"))]) in
  let token := VJson (JStr (lit "T0")) in
  let s1 := snd (run [(PayResolved invoice token, false)] initial) in
  let s2 := snd (run [(IntervalFires 1, false)] s1) in
  let s3 := snd (run [(CheckSettled (Some false), false);
                      (IntervalFires 3, false)] s2) in
  let s4 := snd (run [(CheckSettled (Some true), false)] s3) in
  intervals s1 = [(1, 5000%Z)]
  /\ intervals s2 = [(2, 5000%Z)]
  /\ intervals s3 = [(4, 5000%Z)]
  /\ intervals s4 = [] /\ timeouts s4 = [(5, 2000%Z)]
  /\ intervals (snd (run [(Back, false)] s3)) = []
  /\ intervals (snd (run [(Unmount, false)] s3)) = [].
Proof. vm_compute. repeat split; reflexivity. Qed.

End PollingTimer.

(* ================================================================== *)
(** * Storing the invoice and polling *)
(* ================================================================== *)

Lemma calls_app : forall t u, calls (t ++ u) = calls t ++ calls u.
Proof.
  induction t as [|e t IH]; intros u; simpl; [reflexivity|].
  destruct e; simpl; now rewrite IH.
Qed.

Lemma harmless_calls : forall t, forallb harmless t = true -> calls t = [].
Proof.
  induction t as [|e t IH]; simpl; [reflexivity|].
  intros H. apply andb_prop in H. destruct H as [He Ht].
  destruct e; try discriminate He; now apply IH.
Qed.

Lemma harmless_no_timer : forall t,
  forallb harmless t = true -> existsb is_set_interval t = false.
Proof.
  induction t as [|e t IH]; simpl; [reflexivity|].
  intros H. apply andb_prop in H. destruct H as [He Ht].
  rewrite (IH Ht). destruct e; try discriminate He; reflexivity.
Qed.

(** Where a timer is set in [t ++ u], when [t] sets none. *)
Lemma set_interval_after : forall t u pre e post,
  existsb is_set_interval t = false ->
  is_set_interval e = true ->
  t ++ u = pre ++ e :: post ->
  exists pre', pre = t ++ pre' /\ u = pre' ++ e :: post.
Proof.
  induction t as [|x t IH]; intros u pre e post Ht He Heq; simpl in *.
  - now exists pre.
  - apply orb_false_iff in Ht. destruct Ht as [Hx Ht].
    destruct pre as [|y pre]; simpl in Heq.
    + injection Heq as -> _. congruence.
    + injection Heq as <- Heq.
      destruct (IH u pre e post Ht He Heq) as (pre' & -> & ->).
      now exists pre'.
Qed.

Section HandlePaySteps.

Import UserDashboard Polling.

Lemma timerless_andThen : forall f g,
  timerless f -> timerless g -> timerless (andThen f g).
Proof.
  intros f g Hf Hg s. rewrite fst_andThen, forallb_app.
  now rewrite Hf, Hg.
Qed.

Lemma timerless_if : forall (b : bool) f g,
  timerless f -> timerless g -> timerless (if b then f else g).
Proof. intros [] f g Hf Hg; assumption. Qed.

Lemma timerless_skip : timerless skip.
Proof. intros s. reflexivity. Qed.

Lemma timerless_stop_polling : timerless stop_polling.
Proof.
  intros s. unfold stop_polling.
  destruct (pollingIntervalRef s) as [[|n]|]; reflexivity.
Qed.

Lemma timerless_run_redirect_cleanup : timerless run_redirect_cleanup.
Proof.
  intros s. unfold run_redirect_cleanup.
  destruct (redirect_cleanup s); reflexivity.
Qed.

Lemma timerless_run_polling_cleanup : timerless run_polling_cleanup.
Proof.
  intros s. unfold run_polling_cleanup.
  destruct (polling_cleanup s); [|reflexivity].
  apply timerless_andThen; [apply timerless_stop_polling|].
  intros s'. reflexivity.
Qed.

Lemma timerless_redirect_effect : timerless redirect_effect.
Proof.
  intros s. unfold redirect_effect.
  destruct (status_eqb (paymentStatus s) paid); [|reflexivity].
  apply timerless_andThen; [apply timerless_stop_polling|].
  intros s'. reflexivity.
Qed.

Lemma polling_effect_calls : forall s, calls (fst (polling_effect s)) = [].
Proof.
  intros s. unfold polling_effect.
  destruct (payment_pending s); [|reflexivity].
  rewrite 2 fst_andThen. simpl.
  destruct (pollingIntervalRef s) as [[|n]|]; reflexivity.
Qed.

Lemma polling_effect_not_pending : forall s,
  payment_pending s = false -> fst (polling_effect s) = [].
Proof. intros s H. unfold polling_effect. now rewrite H. Qed.

(** The events of a render up to the polling effect, and the state the
    polling effect starts from. *)
Lemma commit_split : forall fresh s,
  mounted s = true ->
  exists t s3,
    forallb harmless t = true /\ ui s3 = ui s
    /\ fst (commit fresh s)
       = t ++ fst ((if fresh || polling_dirty s then polling_effect else skip) s3).
Proof.
  intros fresh s Hm. unfold commit. rewrite Hm.
  set (c1 := if redirect_dirty s then run_redirect_cleanup else skip).
  set (c2 := if fresh || polling_dirty s then run_polling_cleanup else skip).
  set (e1 := if redirect_dirty s then redirect_effect else skip).
  set (e2 := if fresh || polling_dirty s then polling_effect else skip).
  assert (H1 : timerless c1)
    by (apply timerless_if; [apply timerless_run_redirect_cleanup|apply timerless_skip]).
  assert (H2 : timerless c2)
    by (apply timerless_if; [apply timerless_run_polling_cleanup|apply timerless_skip]).
  assert (H3 : timerless e1)
    by (apply timerless_if; [apply timerless_redirect_effect|apply timerless_skip]).
  assert (K1 : keeps_ui c1)
    by (apply keeps_ui_if; [apply keeps_ui_run_redirect_cleanup|apply keeps_ui_skip]).
  assert (K2 : keeps_ui c2)
    by (apply keeps_ui_if; [apply keeps_ui_run_polling_cleanup|apply keeps_ui_skip]).
  assert (K3 : keeps_ui e1)
    by (apply keeps_ui_if; [apply keeps_ui_redirect_effect|apply keeps_ui_skip]).
  exists (fst (andThen c1 (andThen c2 e1) s)),
         (snd (andThen c1 (andThen c2 e1) s)).
  split; [apply timerless_andThen; [exact H1|now apply timerless_andThen]|].
  split; [apply keeps_ui_andThen; [exact K1|now apply keeps_ui_andThen]|].
  rewrite !fst_andThen, !snd_andThen. simpl.
  now rewrite app_nil_r, !app_assoc.
Qed.

Lemma commit_calls : forall fresh s, calls (fst (commit fresh s)) = [].
Proof.
  intros fresh s. destruct (mounted s) eqn:Hm.
  - destruct (commit_split fresh s Hm) as (t & s3 & Ht & _ & ->).
    rewrite calls_app, (harmless_calls t Ht). simpl.
    destruct (fresh || polling_dirty s); [apply polling_effect_calls|reflexivity].
  - unfold commit. now rewrite Hm.
Qed.

Lemma commit_not_pending : forall fresh s,
  payment_pending s = false ->
  existsb is_set_interval (fst (commit fresh s)) = false.
Proof.
  intros fresh s Hp. destruct (mounted s) eqn:Hm.
  - destruct (commit_split fresh s Hm) as (t & s3 & Ht & Hui & ->).
    rewrite existsb_app, (harmless_no_timer t Ht). simpl.
    destruct (fresh || polling_dirty s); [|reflexivity].
    rewrite polling_effect_not_pending; [reflexivity|].
    now rewrite (pending_of_ui _ _ Hui).
  - unfold commit. now rewrite Hm.
Qed.

Lemma handle_pay_silent : forall s parsed token msg,
  fst (handle PayStarted s) = []
  /\ fst (handle (PayResolved parsed token) s) = []
  /\ fst (handle (PayRejected msg) s) = [].
Proof.
  intros s parsed token msg. unfold handle.
  destruct (mounted s) eqn:Hm; [|now repeat split].
  repeat split.
  - rewrite fst_andThen. unfold setPaymentError, setOther, setPaymentStatus.
    rewrite Hm. simpl. reflexivity.
  - rewrite fst_andThen. unfold setInvoiceData, setPaymentToken.
    rewrite Hm. simpl. reflexivity.
  - unfold setPaymentError, setOther. now rewrite Hm.
Qed.

Lemma pay_started_keeps_invoice : forall s,
  invoiceData (snd (handle PayStarted s)) = invoiceData s
  /\ paymentToken (snd (handle PayStarted s)) = paymentToken s.
Proof.
  intros s. unfold handle.
  destruct (mounted s) eqn:Hm; [|now split].
  rewrite snd_andThen. unfold setPaymentError, setOther, setPaymentStatus.
  rewrite Hm. simpl. now split.
Qed.

Lemma pay_step_calls : forall fresh s parsed token msg,
  calls (fst (step PayStarted fresh s)) = []
  /\ calls (fst (step (PayResolved parsed token) fresh s)) = []
  /\ calls (fst (step (PayRejected msg) fresh s)) = [].
Proof.
  intros fresh s parsed token msg.
  destruct (handle_pay_silent s parsed token msg) as (H1 & H2 & H3).
  unfold step. rewrite !fst_andThen, H1, H2, H3. cbn [app].
  now rewrite !commit_calls.
Qed.

Lemma pay_started_sets_no_timer : forall fresh s,
  truthy (invoiceData s) = false ->
  existsb is_set_interval (fst (step PayStarted fresh s)) = false.
Proof.
  intros fresh s H. unfold step. rewrite fst_andThen.
  destruct (handle_pay_silent s null null []) as (-> & _). cbn [app].
  apply commit_not_pending. unfold payment_pending.
  destruct (pay_started_keeps_invoice s) as [-> _]. now rewrite H.
Qed.

End HandlePaySteps.

Section StoreBeforePolling.

Variables QPayCredentials PaymentRecord InvoiceRecord : Type.
Variable host : Host.

Lemma flow_sets_no_timer :
  forall actor : option (Actor QPayCredentials PaymentRecord InvoiceRecord),
  existsb is_set_interval (fst (PaymentFlow.makePayment_mutateAsync host actor))
  = false.
Proof.
  intros actor. unfold PaymentFlow.makePayment_mutateAsync,
    PaymentFlow.useMakeQPayPayment_onSuccess,
    PaymentFlow.useMakeQPayPayment_onError.
  unfold_flow. simpl.
  split_run; reflexivity.
Qed.

Lemma mutateAsync_calls :
  forall actor : option (Actor QPayCredentials PaymentRecord InvoiceRecord),
  calls (fst (PaymentFlow.makePayment_mutateAsync host actor))
  = calls (trace (PaymentFlow.useMakeQPayPayment_mutationFn host actor)).
Proof.
  intros actor. unfold PaymentFlow.makePayment_mutateAsync, mutateAsync, trace.
  destruct (PaymentFlow.useMakeQPayPayment_mutationFn host actor) as [l [r|e]].
  - cbn. rewrite calls_app. apply app_nil_r.
  - unfold PaymentFlow.useMakeQPayPayment_onError.
    destruct (includes _ _); [cbn; rewrite calls_app; apply app_nil_r|].
    destruct (includes _ _); cbn; rewrite calls_app; apply app_nil_r.
Qed.

Ltac same_outcome :=
  repeat match goal with
         | H : ?x = _, H' : ?x = _ |- _ =>
             rewrite H in H'; inversion H'; subst; clear H'
         end.

Lemma created_invoice_is_stored :
  forall (a : Actor QPayCredentials PaymentRecord InvoiceRecord)
         token response parsed invoice_id,
  let cs := calls (trace (PaymentFlow.useMakeQPayPayment_mutationFn host (Some a))) in
  In (C_getValidOrCreateInvoice token) cs ->
  getValidOrCreateInvoice a token = Return response ->
  isNewInvoice response = true ->
  JSON_parse host (Backend.invoiceData response) = Return parsed ->
  get_prop parsed (lit "invoice_id") = Some invoice_id ->
  truthy invoice_id = true ->
  In (C_storeUserInvoice invoice_id (Backend.invoiceData response)
        (amount response)) cs.
Proof.
  intros a token response parsed invoice_id cs Hin Hresp Hnew Hparse Hprop Hid.
  subst cs. revert Hin. unfold_flow. simpl.
  split_run; simpl; intros Hin.
  all: repeat (destruct Hin as [Hin|Hin]; try discriminate Hin);
       try contradiction.
  all: injection Hin as ->; same_outcome; simpl in *; try congruence.
  all: try match goal with
           | H : isNewInvoice _ && truthy _ = false |- _ =>
               rewrite Hnew, Hid in H; discriminate H
           end.
  all: tauto.
Qed.

Lemma reused_invoice_is_not_stored :
  forall (a : Actor QPayCredentials PaymentRecord InvoiceRecord) invoiceCheck,
  checkForValidInvoice a = Return invoiceCheck ->
  reported_valid invoiceCheck = true ->
  existsb is_store
    (calls (trace (PaymentFlow.useMakeQPayPayment_mutationFn host (Some a))))
  = false.
Proof.
  intros a ic Hc Hv.
  destruct (existing_invoice_reported ic Hv) as (d & amt & He).
  unfold_flow. rewrite Hc. simpl. rewrite He. simpl.
  split_run; reflexivity.
Qed.

(** C2, as amended. Take a run of [handlePay] from a state that shows
    the pay button (no invoice data yet) and a point of its trace where
    the polling timer is set.  No backend call follows that point.  If
    the run has created an invoice that the backend marked as new and
    whose data carry a truthy [invoice_id], the call of
    [storeUserInvoice] for it precedes that point.  If the check has
    reported a valid existing invoice, the run polls without any call
    of [storeUserInvoice]. *)
Theorem new_invoice_stored_before_polling :
  forall (actor : option (Actor QPayCredentials PaymentRecord InvoiceRecord))
         (fresh : bool) (s : UserDashboard.state)
         (pre post : list event) (id : nat) (ms : Z),
  truthy (UserDashboard.invoiceData s) = false ->
  fst (UserDashboard.handlePay host actor fresh s)
  = pre ++ SetInterval id ms :: post ->
  calls post = []
  /\ (forall a token response parsed invoice_id,
        actor = Some a ->
        In (C_getValidOrCreateInvoice token) (calls pre) ->
        getValidOrCreateInvoice a token = Return response ->
        isNewInvoice response = true ->
        JSON_parse host (Backend.invoiceData response) = Return parsed ->
        get_prop parsed (lit "invoice_id") = Some invoice_id ->
        truthy invoice_id = true ->
        In (C_storeUserInvoice invoice_id (Backend.invoiceData response)
              (amount response)) (calls pre))
  /\ (forall a invoiceCheck,
        actor = Some a ->
        checkForValidInvoice a = Return invoiceCheck ->
        reported_valid invoiceCheck = true ->
        existsb is_store (calls pre) = false).
Proof.
  intros actor fresh s pre post id ms Hs Ht.
  (* the trace is: the first render, the flow, the second render *)
  assert (Hshape : exists l1,
            fst (UserDashboard.handlePay host actor fresh s)
            = fst (UserDashboard.step UserDashboard.PayStarted fresh s)
              ++ fst (PaymentFlow.makePayment_mutateAsync host actor) ++ l1
            /\ calls l1 = []).
  { unfold UserDashboard.handlePay.
    destruct (UserDashboard.step UserDashboard.PayStarted fresh s) as [l0 s0].
    assert (Hq : forall i,
               (exists parsed token, i = UserDashboard.PayResolved parsed token)
               \/ (exists msg, i = UserDashboard.PayRejected msg) ->
               calls (fst (UserDashboard.step i fresh s0)) = []).
    { intros i [(parsed & token & ->) | (msg & ->)].
      - apply (pay_step_calls fresh s0 parsed token []).
      - apply (pay_step_calls fresh s0 null null msg). }
    destruct (PaymentFlow.makePayment_mutateAsync host actor) as [l [r|e]];
      [destruct (JSON_parse host (PaymentFlow.response_invoiceData r))
         as [j|e]|];
      cbn [fst snd];
      match goal with
      | |- context [UserDashboard.step ?i fresh s0] =>
          exists (fst (UserDashboard.step i fresh s0));
          split; [now destruct (UserDashboard.step i fresh s0)|apply Hq]
      end; eauto. }
  destruct Hshape as (l1 & Hshape & H1). rewrite Hshape in Ht. clear Hshape.
  pose proof (pay_started_sets_no_timer fresh s Hs) as H0.
  destruct (pay_step_calls fresh s null null []) as (Hc0 & _).
  set (l0 := fst (UserDashboard.step UserDashboard.PayStarted fresh s)) in *.
  set (lf := fst (PaymentFlow.makePayment_mutateAsync host actor)) in *.
  rewrite app_assoc in Ht.
  destruct (set_interval_after (l0 ++ lf) l1 pre (SetInterval id ms) post)
    as (pre' & -> & Hl1); [|reflexivity|exact Ht|].
  { rewrite existsb_app, H0. apply flow_sets_no_timer. }
  rewrite Hl1, calls_app in H1. apply app_eq_nil in H1.
  destruct H1 as [Hpre' Hpost]. simpl in Hpost.
  assert (Hcalls : calls ((l0 ++ lf) ++ pre')
                   = calls (trace (PaymentFlow.useMakeQPayPayment_mutationFn
                                     host actor))).
  { rewrite !calls_app, Hc0, Hpre', app_nil_r. apply mutateAsync_calls. }
  rewrite Hcalls.
  split; [exact Hpost|]. split.
  - intros a token response parsed invoice_id ->.
    apply created_invoice_is_stored.
  - intros a invoiceCheck ->. apply reused_invoice_is_not_stored.
Qed.

End StoreBeforePolling.

Lemma new_invoice_stored_before_polling_witness :
  let t := fst (UserDashboard.handlePay Fixtures.host (Some Fixtures.creating)
                  false UserDashboard.initial) in
  calls [] = []
  /\ (forall a token response parsed invoice_id,
        Some Fixtures.creating = Some a ->
        In (C_getValidOrCreateInvoice token) (calls (removelast t)) ->
        getValidOrCreateInvoice a token = Return response ->
        isNewInvoice response = true ->
        JSON_parse Fixtures.host (Backend.invoiceData response) = Return parsed ->
        get_prop parsed (lit "invoice_id") = Some invoice_id ->
        truthy invoice_id = true ->
        In (C_storeUserInvoice invoice_id (Backend.invoiceData response)
              (amount response)) (calls (removelast t)))
  /\ (forall a invoiceCheck,
        Some Fixtures.creating = Some a ->
        checkForValidInvoice a = Return invoiceCheck ->
        reported_valid invoiceCheck = true ->
        existsb is_store (calls (removelast t)) = false).
Proof.
  intros t.
  apply (new_invoice_stored_before_polling unit unit unit Fixtures.host
           (Some Fixtures.creating) false UserDashboard.initial
           (removelast t) [] 1 5000).
  - reflexivity.
  - vm_compute. reflexivity.
Defined.

(** C2 as stated fails: with a valid existing invoice the run sets the
    polling timer and has not called [storeUserInvoice]. *)
Lemma reused_invoice_polled_unstored :
  let t := fst (UserDashboard.handlePay Fixtures.host (Some Fixtures.reusing)
                  false UserDashboard.initial) in
  t = [Toast Info (lit "Checking invoice...");
       Call C_checkForValidInvoice;
       Call C_makeQPayTokenRequest;
       MutateRecordPayment 10 (lit "pending");
       Toast Success (lit "Payment request created successfully!");
       Invalidate (lit "userInvoiceConfig");
       SetInterval 1 5000]
  /\ existsb is_set_interval t = true
  /\ existsb is_store (calls t) = false.
Proof. vm_compute. repeat split; reflexivity. Qed.

(* ================================================================== *)
(** * Registration attempts *)
(* ================================================================== *)

Section RegistrationAttempts.

Variables QPayCredentials PaymentRecord InvoiceRecord : Type.
Variable actor_at :
  nat -> option (Actor QPayCredentials PaymentRecord InvoiceRecord).
Variables isAuthenticated isActorReady : bool.

Lemma retryer_bound : forall budget k,
  (k < fst (App.retryer actor_at budget k) <= k + budget + 1)%nat.
Proof.
  induction budget as [|budget IH]; intros k; simpl.
  - destruct (result _); simpl; lia.
  - destruct (result _); simpl; [lia|].
    specialize (IH (S k)). lia.
Qed.

Lemma mutate_bound : forall s,
  (App.attempts s
   < App.attempts (App.ensureRegistration_mutate actor_at s)
   <= App.attempts s + 4)%nat.
Proof.
  intros s. unfold App.ensureRegistration_mutate.
  pose proof (retryer_bound UseQueries.useEnsureUserRegistration_retry
                (App.attempts s)) as H.
  destruct (App.retryer _ _ _) as [k [u|e]]; simpl in *;
    unfold UseQueries.useEnsureUserRegistration_retry in H; lia.
Qed.

Lemma effect_bound : forall s,
  (App.attempts s
   <= App.attempts
        (App.registration_effect actor_at isAuthenticated isActorReady s)
   <= App.attempts s + 4)%nat.
Proof.
  intros s. unfold App.registration_effect.
  destruct (_ && _); [|lia].
  match goal with
  | |- context [App.ensureRegistration_mutate _ ?s'] =>
      pose proof (mutate_bound s') as H
  end.
  simpl in H. lia.
Qed.

Lemma run_app_bound : forall n,
  (App.attempts (App.run_app actor_at isAuthenticated isActorReady n)
   <= 4 * (n + 1))%nat.
Proof.
  induction n as [|n IH]; simpl.
  - pose proof (effect_bound App.initial) as H. simpl in H. lia.
  - unfold App.timer_fires.
    destruct (App.retryTimer _); [|lia].
    match goal with
    | |- context [App.registration_effect _ _ _ ?s'] =>
        pose proof (effect_bound s') as H
    end.
    simpl in H. lia.
Qed.

End RegistrationAttempts.

Lemma retryer_rejecting : forall budget k,
  App.retryer (fun _ => Some (Fixtures.rejecting Fixtures.boom)) budget k
  = ((k + budget + 1)%nat, Throw Fixtures.boom).
Proof.
  induction budget as [|budget IH]; intros k; simpl.
  - f_equal. lia.
  - rewrite IH. f_equal. lia.
Qed.

(** With a backend that rejects every call, every round of the effect
    fails after four attempts and arms the timer again. *)
Lemma run_app_rejecting : forall n,
  App.run_app (fun _ => Some (Fixtures.rejecting Fixtures.boom)) true true n
  = {| App.registrationComplete := false;
       App.registrationAttempted := true;
       App.initError := Some (lit "boom");
       App.retryTimer := true;
       App.attempts := 4 * (n + 1) |}.
Proof.
  induction n as [|n IH].
  - reflexivity.
  - simpl App.run_app. rewrite IH.
    unfold App.timer_fires, App.registration_effect,
      App.ensureRegistration_mutate. simpl App.retryTimer. cbv iota.
    simpl App.registrationAttempted. simpl negb. simpl andb. cbv iota.
    simpl App.attempts at 1.
    rewrite retryer_rejecting.
    unfold UseQueries.useEnsureUserRegistration_retry. simpl.
    f_equal. lia.
Qed.

(** C4, as amended. One invocation of the registration mutation runs
    the mutation function at least once and at most four times (the first
    attempt and three retries).  The app starts the mutation again after
    each failure, so after [n] firings of the retry timer at most
    [4 * (n + 1)] attempts have been made, and a backend that rejects
    every call receives exactly that many: the total is not bounded. *)
Theorem registration_attempts :
  forall (QPayCredentials PaymentRecord InvoiceRecord : Type)
         (actor_at :
            nat -> option (Actor QPayCredentials PaymentRecord InvoiceRecord))
         (isAuthenticated isActorReady : bool),
  (forall s,
     App.attempts s
     < App.attempts (App.ensureRegistration_mutate actor_at s)
     <= App.attempts s + 4)%nat
  /\ (forall n,
        App.attempts (App.run_app actor_at isAuthenticated isActorReady n)
        <= 4 * (n + 1))%nat
  /\ (forall n,
        App.attempts
          (App.run_app (fun _ => Some (Fixtures.rejecting Fixtures.boom))
             true true n)
        = 4 * (n + 1))%nat.
Proof.
  intros Q P I actor_at auth ready.
  split; [apply mutate_bound|].
  split; [apply run_app_bound|].
  intros n. now rewrite run_app_rejecting.
Qed.

(** C4 as stated fails: no constant bounds the number of attempts of a
    run against a backend that rejects every call. *)
Lemma registration_attempts_unbounded :
  ~ exists bound : nat,
      forall n,
        (App.attempts
           (App.run_app (fun _ => Some (Fixtures.rejecting Fixtures.boom))
              true true n)
         <= bound)%nat.
Proof.
  intros [bound H]. specialize (H bound).
  rewrite run_app_rejecting in H. simpl in H. lia.
Qed.

(* ================================================================== *)
(** * Timestamps *)
(* ================================================================== *)

Section Calendar.

Import Utils.
Open Scope Z_scope.

Lemma str_eqb_eq : forall a b, str_eqb a b = true -> a = b.
Proof.
  induction a as [|x a IH]; destruct b as [|y b]; simpl; try discriminate.
  - reflexivity.
  - intros H. apply andb_prop in H. destruct H as [Hx Hab].
    apply N.eqb_eq in Hx. subst. f_equal. now apply IH.
Qed.

Lemma pad_table :
  forallb (fun n => str_eqb (padStart (Number_toString (Z.of_nat n)) 2 (lit "0"))
                      (two_digits (Z.of_nat n)))
    (seq 0 100) = true.
Proof. vm_compute. reflexivity. Qed.

Lemma padStart_two_digits : forall n,
  0 <= n <= 99 ->
  padStart (Number_toString n) 2 (lit "0") = two_digits n.
Proof.
  intros n Hn.
  pose proof pad_table as H. rewrite forallb_forall in H.
  specialize (H (Z.to_nat n)).
  rewrite Z2Nat.id in H by lia.
  apply str_eqb_eq, H, in_seq. lia.
Qed.

Lemma year_table :
  forallb (fun n => Nat.eqb (List.length (Number_toString (Z.of_nat n))) 4)
    (seq 1000 (Z.to_nat 9000)) = true.
Proof. vm_compute. reflexivity. Qed.

Lemma year_four_digits : forall y,
  1000 <= y <= 9999 -> List.length (Number_toString y) = 4%nat.
Proof.
  intros y Hy.
  pose proof year_table as H. rewrite forallb_forall in H.
  specialize (H (Z.to_nat y)).
  rewrite Z2Nat.id in H by lia.
  apply Nat.eqb_eq, H, in_seq. lia.
Qed.

Lemma DayFromYear_succ : forall y,
  DayFromYear (y + 1) = DayFromYear y + DaysInYear y.
Proof.
  intros y. unfold DayFromYear, DaysInYear.
  assert (H4 : (y + 1 - 1969) / 4
               = (y - 1969) / 4 + (if y mod 4 =? 0 then 1 else 0)).
  { destruct (Z.eqb_spec (y mod 4) 0); Z.div_mod_to_equations; lia. }
  assert (H100 : (y + 1 - 1901) / 100
                 = (y - 1901) / 100 + (if y mod 100 =? 0 then 1 else 0)).
  { destruct (Z.eqb_spec (y mod 100) 0); Z.div_mod_to_equations; lia. }
  assert (H400 : (y + 1 - 1601) / 400
                 = (y - 1601) / 400 + (if y mod 400 =? 0 then 1 else 0)).
  { destruct (Z.eqb_spec (y mod 400) 0); Z.div_mod_to_equations; lia. }
  rewrite H4, H100, H400.
  assert (Ha : y mod 100 = 0 -> y mod 4 = 0)
    by (intros; Z.div_mod_to_equations; lia).
  assert (Hb : y mod 400 = 0 -> y mod 100 = 0)
    by (intros; Z.div_mod_to_equations; lia).
  clear H4 H100 H400.
  generalize ((y - 1969) / 4) ((y - 1901) / 100) ((y - 1601) / 400).
  intros a b c. revert Ha Hb.
  generalize (y mod 4) (y mod 100) (y mod 400). intros m4 m100 m400 Ha Hb.
  destruct (Z.eqb_spec m4 0), (Z.eqb_spec m100 0), (Z.eqb_spec m400 0);
    cbn [negb]; lia.
Qed.

Lemma year_estimate : forall d,
  let y := 1970 + d * 400 / 146097 in
  DayFromYear (y - 1) <= d < DayFromYear (y + 2).
Proof.
  intros d y. subst y. unfold DayFromYear.
  Z.div_mod_to_equations. lia.
Qed.

Lemma YearFromDay_spec : forall d,
  DayFromYear (YearFromDay d) <= d < DayFromYear (YearFromDay d + 1).
Proof.
  intros d. pose proof (year_estimate d) as H. cbv zeta in H.
  unfold YearFromDay.
  set (y := 1970 + d * 400 / 146097) in *.
  destruct (Z.leb_spec (DayFromYear (y + 1)) d) as [H1|H1].
  - replace (y + 1 + 1) with (y + 2) by lia. lia.
  - destruct (Z.leb_spec (DayFromYear y) d) as [H2|H2].
    + lia.
    + replace (y - 1 + 1) with y by lia. lia.
Qed.

Lemma DaysInYear_cases : forall y, DaysInYear y = 365 \/ DaysInYear y = 366.
Proof.
  intros y. unfold DaysInYear.
  destruct (negb _); [now left|].
  destruct (negb _); [now right|].
  destruct (negb _); [now left|now right].
Qed.

Lemma DayWithinYear_range : forall t,
  0 <= DayWithinYear t < 365 + InLeapYear t.
Proof.
  intros t. unfold DayWithinYear, InLeapYear, YearFromTime.
  pose proof (YearFromDay_spec (Day t)) as H.
  rewrite DayFromYear_succ in H.
  destruct (DaysInYear_cases (YearFromDay (Day t))) as [E|E];
    rewrite E in *; simpl; lia.
Qed.

Lemma InLeapYear_cases : forall t, InLeapYear t = 0 \/ InLeapYear t = 1.
Proof.
  intros t. unfold InLeapYear. destruct (_ =? _); [now right|now left].
Qed.

Lemma MonthFromTime_range : forall t, 0 <= MonthFromTime t <= 11.
Proof.
  intros t. unfold MonthFromTime.
  repeat match goal with
         | |- context [if ?b then _ else _] => destruct b
         end; lia.
Qed.

Lemma DateFromTime_range : forall t, 1 <= DateFromTime t <= 31.
Proof.
  intros t. unfold DateFromTime, MonthFromTime.
  pose proof (DayWithinYear_range t) as Hd.
  pose proof (InLeapYear_cases t) as Hl.
  revert Hd Hl.
  generalize (DayWithinYear t) (InLeapYear t). intros d leap Hd Hl.
  repeat match goal with
         | |- context [if ?a <? ?b then _ else _] =>
             destruct (Z.ltb_spec a b)
         end; lia.
Qed.

Lemma time_within_day : forall t,
  0 <= HourFromTime t <= 23 /\ 0 <= MinFromTime t <= 59
  /\ 0 <= SecFromTime t <= 59.
Proof.
  intros t. unfold HourFromTime, MinFromTime, SecFromTime.
  pose proof (Z.mod_pos_bound (t / msPerHour) 24).
  pose proof (Z.mod_pos_bound (t / msPerMinute) 60).
  pose proof (Z.mod_pos_bound (t / msPerSecond) 60).
  lia.
Qed.

End Calendar.


Example formatTimestamp_utc :
  Utils.formatTimestamp (fun _ => 0%Z) 1700000000123456789
  = Return (lit "2023-11-14 22:13:20").
Proof. vm_compute. reflexivity. Qed.

Example formatTimestamp_east_of_utc :
  Utils.formatTimestamp (fun _ => 28800000%Z) 1700000000123456789
  = Return (lit "2023-11-15 06:13:20").
Proof. vm_compute. reflexivity. Qed.

Example formatTimestamp_before_1970 :
  Utils.formatTimestamp (fun _ => 0%Z) (-1000000000)
  = Return (lit "1969-12-31 23:59:59").
Proof. vm_compute. reflexivity. Qed.

Example formatTimestamp_out_of_range :
  Utils.formatTimestamp (fun _ => 0%Z) (10 ^ 22)
  = Return (lit "Invalid date").
Proof. vm_compute. reflexivity. Qed.

Example formatTimestamp_year_10000 :
  Utils.formatTimestamp (fun _ => 0%Z) (253402300800 * 10 ^ 9)
  = Return (lit "10000-01-01 00:00:00").
Proof. vm_compute. reflexivity. Qed.

(* ================================================================== *)
(** * What the app renders *)
(* ================================================================== *)

Ltac split_hooks h :=
  destruct h as [init ident act fetching reg ierr
                   [rdata rload rfetched rerr] [pdata pload pfetched perr]].

Ltac unfold_app :=
  unfold AppContent.render, AppContent.route,
    AppContent.showProfileSetup, AppContent.isLoadingUserData,
    AppContent.isAuthenticated, AppContent.isActorReady,
    AppContent.profileLoading, AppContent.profileFetched,
    AppContent.roleLoading, AppContent.roleFetched, AppContent.userRole,
    AppContent.userProfile, Query.registered; simpl.

(** Every combination of the flags the render reads. *)
Ltac all_flags :=
  repeat match goal with
         | b : bool |- _ => destruct b
         end; simpl.

(** X1. [AppContent] never renders the [Backend Connection Error]
    screen: whenever an identity is there and the actor is not, the
    loading screens come first. *)
Theorem render_never_connection_error : forall h : AppContent.hooks,
  AppContent.render h <> AppContent.BackendConnectionError.
Proof.
  intros h. split_hooks h. unfold_app. all_flags.
  all: repeat match goal with
              | |- context [if ?b then _ else _] => destruct b
              end; discriminate.
Qed.

(** X2. With the members of [UserRole] named after themselves, the
    earlier [App] shows its one loading screen wherever [AppContent]
    shows one of its loading screens and, in addition, whenever the actor
    is being fetched; everywhere else the two render the same page and
    the same profile dialog. *)
Theorem legacy_render_refines :
  forall (role_name : UserRole -> jsstring) (h : AppContent.hooks),
  (forall r, role_name r = AppLegacy.member_name r) ->
  AppLegacy.render role_name h
  = match AppContent.render h with
    | AppContent.Main p open =>
        if AppContent.actorFetching h then AppLegacy.Loading
        else AppLegacy.Main p open
    | _ => AppLegacy.Loading
    end.
Proof.
  intros role_name h Hname. split_hooks h.
  unfold AppLegacy.render, AppLegacy.route, AppLegacy.is_named.
  unfold_app.
  destruct rdata as [r|]; [rewrite (Hname r); destruct r|];
    all_flags; reflexivity.
Qed.

Lemma legacy_render_refines_witness :
  AppLegacy.render AppLegacy.member_name
    (Scenario.signed_in (Fixtures.rejecting Fixtures.boom))
  = AppLegacy.Main AppContent.AccessPending true.
Proof.
  apply (legacy_render_refines AppLegacy.member_name
           (Scenario.signed_in (Fixtures.rejecting Fixtures.boom))).
  reflexivity.
Defined.

(** X3. When [AppContent] renders the main frame: the landing page is
    shown exactly without an identity; any other page needs the actor,
    a completed registration and a fetched role; the admin and the user
    dashboards are shown exactly for the roles [admin] and [user]; and the
    profile dialog is open only beside such a page, for a profile that was
    fetched and is [null]. *)
Theorem dashboards_are_gated : forall (h : AppContent.hooks) p open,
  AppContent.render h = AppContent.Main p open ->
  (p = AppContent.LandingPage <-> AppContent.identity h = false)
  /\ (p <> AppContent.LandingPage ->
      AppContent.actor h = true /\ AppContent.actorFetching h = false
      /\ AppContent.registrationComplete h = true
      /\ Query.isFetched (AppContent.roleQuery h) = true
      /\ Query.isLoading (AppContent.roleQuery h) = false
      /\ Query.isLoading (AppContent.profileQuery h) = false)
  /\ (p = AppContent.AdminDashboard <->
      AppContent.identity h = true
      /\ Query.data (AppContent.roleQuery h) = Some admin)
  /\ (p = AppContent.UserDashboard <->
      AppContent.identity h = true
      /\ Query.data (AppContent.roleQuery h) = Some user)
  /\ (open = true ->
      p <> AppContent.LandingPage
      /\ Query.isFetched (AppContent.profileQuery h) = true
      /\ Query.data (AppContent.profileQuery h) = Some None).
Proof.
  intros h. split_hooks h. unfold_app.
  destruct rdata as [[]|], pdata as [[]|]; all_flags;
    intros p open H; try discriminate H; injection H as <- <-;
    repeat split; intros; try discriminate; try reflexivity;
    try congruence; try tauto.
  all: try (match goal with H : _ /\ _ |- _ => destruct H; congruence end).
Qed.

Lemma dashboards_are_gated_witness :
  let h := Scenario.signed_in (Fixtures.rejecting Fixtures.boom) in
  let p := AppContent.AccessPending in
  let open := true in
  (p = AppContent.LandingPage <-> AppContent.identity h = false)
  /\ (p <> AppContent.LandingPage ->
      AppContent.actor h = true /\ AppContent.actorFetching h = false
      /\ AppContent.registrationComplete h = true
      /\ Query.isFetched (AppContent.roleQuery h) = true
      /\ Query.isLoading (AppContent.roleQuery h) = false
      /\ Query.isLoading (AppContent.profileQuery h) = false)
  /\ (p = AppContent.AdminDashboard <->
      AppContent.identity h = true
      /\ Query.data (AppContent.roleQuery h) = Some admin)
  /\ (p = AppContent.UserDashboard <->
      AppContent.identity h = true
      /\ Query.data (AppContent.roleQuery h) = Some user)
  /\ (open = true ->
      p <> AppContent.LandingPage
      /\ Query.isFetched (AppContent.profileQuery h) = true
      /\ Query.data (AppContent.profileQuery h) = Some None).
Proof.
  apply (dashboards_are_gated
           (Scenario.signed_in (Fixtures.rejecting Fixtures.boom))
           AppContent.AccessPending true).
  reflexivity.
Defined.

(** X4. For a signed-in caller whose registration has completed and
    whose two queries have run, [AppContent] renders the main frame: the
    dashboard of the role the backend returns, [Access Pending] for
    [guest] and when [getCallerUserRole] fails; the profile dialog is open
    when the backend returns no profile and also when
    [getCallerUserProfile] fails. *)
Theorem signed_in_screen :
  forall (QPayCredentials PaymentRecord InvoiceRecord : Type)
         (a : Actor QPayCredentials PaymentRecord InvoiceRecord),
  AppContent.render (Scenario.signed_in a)
  = AppContent.Main
      (match getCallerUserRole a with
       | Return admin => AppContent.AdminDashboard
       | Return user => AppContent.UserDashboard
       | _ => AppContent.AccessPending
       end)
      (match getCallerUserProfile a with
       | Return (Some _) => false
       | _ => true
       end).
Proof.
  intros Q P I a. unfold Scenario.signed_in. unfold_app.
  unfold Query.settled, UseQueries.useGetCallerUserRole_queryFn,
    UseQueries.useGetCallerUserProfile_queryFn, await_call, try_catch, bind,
    ret, result. simpl.
  destruct (getCallerUserRole a) as [[]|e],
    (getCallerUserProfile a) as [[p|]|e'];
    simpl; try reflexivity.
  all: destruct (includes _ _ || includes _ _); reflexivity.
Qed.

(* ================================================================== *)
(** * Rounds of the registration effect *)
(* ================================================================== *)

Section RegistrationRuns.

Variables QPayCredentials PaymentRecord InvoiceRecord : Type.
Variable actor_at :
  nat -> option (Actor QPayCredentials PaymentRecord InvoiceRecord).
Variables isAuthenticated isActorReady : bool.

(** Where the retryer stops with success, the attempt before succeeded. *)
Lemma retryer_success : forall budget k k',
  App.retryer actor_at budget k = (k', Return tt) ->
  exists j, k' = S j /\ (k <= j)%nat
            /\ result (UseQueries.useEnsureUserRegistration_mutationFn
                         (actor_at j)) = Return tt.
Proof.
  induction budget as [|budget IH]; intros k k' H; simpl in H.
  - destruct (result _) as [[]|e] eqn:E; [|discriminate].
    injection H as <-. now exists k.
  - destruct (result _) as [[]|e] eqn:E.
    + injection H as <-. now exists k.
    + destruct (IH _ _ H) as (j & -> & Hle & Hj).
      exists j. repeat split; [lia|exact Hj].
Qed.

Lemma mutate_cases : forall s,
  (exists j,
     App.ensureRegistration_mutate actor_at s
     = {| App.registrationComplete := true;
          App.registrationAttempted := App.registrationAttempted s;
          App.initError := App.initError s;
          App.retryTimer := App.retryTimer s;
          App.attempts := S j |}
     /\ result (UseQueries.useEnsureUserRegistration_mutationFn (actor_at j))
        = Return tt)
  \/ (App.registrationComplete (App.ensureRegistration_mutate actor_at s)
       = App.registrationComplete s
      /\ App.registrationAttempted (App.ensureRegistration_mutate actor_at s)
         = App.registrationAttempted s
      /\ App.retryTimer (App.ensureRegistration_mutate actor_at s) = true).
Proof.
  intros s. unfold App.ensureRegistration_mutate.
  destruct (App.retryer actor_at _ _) as [k [[]|e]] eqn:E.
  - left. destruct (retryer_success _ _ _ E) as (j & -> & _ & Hj).
    now exists j.
  - right. now repeat split.
Qed.

Lemma effect_settled : forall s,
  Scenario.registration_settled actor_at s ->
  (App.registrationAttempted s = false ->
   App.retryTimer s = false /\ App.registrationComplete s = false) ->
  Scenario.registration_settled actor_at
    (App.registration_effect actor_at isAuthenticated isActorReady s).
Proof.
  intros s Hs Hn. unfold App.registration_effect.
  destruct (isAuthenticated && isActorReady) ; [|exact Hs].
  destruct (App.registrationAttempted s) eqn:Ha; [exact Hs|].
  cbn [andb negb]. destruct (Hn eq_refl) as [Hn1 Hn2].
  match goal with
  | |- Scenario.registration_settled _
         (App.ensureRegistration_mutate _ ?s') =>
      destruct (mutate_cases s') as [(j & -> & Hj)|(Hc & Hat & Ht)]
  end.
  - split; cbn; [|congruence].
    intros _. split; [exact Hn1|]. now exists j.
  - split.
    + rewrite Hc. cbn. congruence.
    + intros _. rewrite Hat. reflexivity.
Qed.

Lemma run_settled : forall n,
  Scenario.registration_settled actor_at
    (App.run_app actor_at isAuthenticated isActorReady n).
Proof.
  induction n as [|n IH]; cbn [App.run_app].
  - apply effect_settled; [|now split].
    split; cbn; discriminate.
  - unfold App.timer_fires.
    destruct (App.retryTimer _) eqn:Ht; [|exact IH].
    assert (Hc : App.registrationComplete
                   (App.run_app actor_at isAuthenticated isActorReady n)
                 = false).
    { destruct (App.registrationComplete _) eqn:Hc; [|reflexivity].
      destruct IH as [IH _]. destruct (IH Hc) as [Hf _]. congruence. }
    apply effect_settled; [|now split].
    split; cbn; [congruence|discriminate].
Qed.

(** X5. The registration effect makes no attempt while there is no
    identity or the actor is not ready.  Once [registrationComplete] holds,
    the last attempt made was a successful one and no later firing of the
    timer changes the state. *)
Theorem registration_rounds :
  (isAuthenticated && isActorReady = false ->
   forall n,
     let s := App.run_app actor_at isAuthenticated isActorReady n in
     App.attempts s = 0%nat /\ App.registrationComplete s = false)
  /\ (forall n,
        let s := App.run_app actor_at isAuthenticated isActorReady n in
        App.registrationComplete s = true ->
        (exists j,
           App.attempts s = S j
           /\ result (UseQueries.useEnsureUserRegistration_mutationFn
                        (actor_at j)) = Return tt)
        /\ forall m,
             App.run_app actor_at isAuthenticated isActorReady (n + m) = s).
Proof.
  split.
  - intros Hoff n. cbv zeta. induction n as [|n IH]; simpl.
    + unfold App.registration_effect. rewrite Hoff. simpl. now split.
    + unfold App.timer_fires.
      destruct (App.retryTimer _); [|exact IH].
      unfold App.registration_effect. rewrite Hoff. simpl. exact IH.
  - intros n. cbv zeta. intros Hc. destruct (run_settled n) as [H _].
    destruct (H Hc) as [Ht Hj]. split; [exact Hj|].
    induction m as [|m IHm].
    + now rewrite Nat.add_0_r.
    + rewrite Nat.add_succ_r. simpl. rewrite IHm.
      unfold App.timer_fires. now rewrite Ht.
Qed.

Lemma retryer_failure : forall budget k k' e,
  App.retryer actor_at budget k = (k', Throw e) -> k' = (k + budget + 1)%nat.
Proof.
  induction budget as [|budget IH]; intros k k' e H; simpl in H.
  - destruct (result _) as [[]|e']; [discriminate|].
    injection H as <- _. lia.
  - destruct (result _) as [[]|e']; [discriminate|].
    apply IH in H. lia.
Qed.

(** A round of the effect from a state with [k] attempts either
    completes the registration or leaves the message of the failure and a
    pending timer after four more attempts. *)
Lemma effect_round : forall s,
  isAuthenticated && isActorReady = true ->
  App.registrationAttempted s = false ->
  let s' := App.registration_effect actor_at isAuthenticated isActorReady s in
  App.registrationComplete s' = true
  \/ (App.retryTimer s' = true
      /\ App.attempts s' = (App.attempts s + 4)%nat
      /\ exists msg, App.initError s' = Some msg /\ str_truthy msg = true).
Proof.
  intros s Hon Ha. cbv zeta. unfold App.registration_effect.
  rewrite Hon, Ha. cbn [andb negb]. unfold App.ensureRegistration_mutate.
  cbn [App.attempts].
  destruct (App.retryer actor_at _ _) as [k [[]|e]] eqn:E;
    cbn [App.registrationComplete App.retryTimer App.attempts App.initError].
  - now left.
  - right. split; [reflexivity|].
    apply retryer_failure in E.
    unfold UseQueries.useEnsureUserRegistration_retry in E.
    split; [lia|].
    eexists. split; [reflexivity|].
    destruct (str_truthy (message e)) eqn:Em; [exact Em|reflexivity].
Qed.

(** X6. With an identity and a ready actor, after the first round of
    the registration effect and [n] firings of the retry timer either the
    registration is complete, or exactly [4 * (n + 1)] attempts have
    failed, a message that is not empty is shown and the retry timer is
    pending: the app never stops retrying. *)
Theorem registration_keeps_retrying :
  isAuthenticated && isActorReady = true ->
  forall n,
    let s := App.run_app actor_at isAuthenticated isActorReady n in
    App.registrationComplete s = true
    \/ (App.retryTimer s = true
        /\ App.attempts s = (4 * (n + 1))%nat
        /\ exists msg, App.initError s = Some msg /\ str_truthy msg = true).
Proof.
  intros Hon n. cbv zeta. induction n as [|n IH]; cbn [App.run_app].
  - destruct (effect_round App.initial Hon eq_refl) as [H|(Ht & Hn & Hm)];
      [now left|right].
    split; [exact Ht|]. split; [exact Hn|exact Hm].
  - unfold App.timer_fires.
    destruct IH as [Hc|(Ht & Hn & _)].
    + destruct (run_settled n) as [H _]. destruct (H Hc) as [Hf _].
      rewrite Hf. now left.
    + rewrite Ht.
      match goal with
      | |- context [App.registration_effect _ _ _ ?s0] =>
          destruct (effect_round s0 Hon eq_refl) as [H|(Ht' & Hn' & Hm')]
      end; [now left|right].
      split; [exact Ht'|]. split; [|exact Hm'].
      rewrite Hn'. cbn [App.attempts]. rewrite Hn. lia.
Qed.

End RegistrationRuns.

Lemma registration_keeps_retrying_witness :
  let s := App.run_app (fun _ => Some (Fixtures.rejecting Fixtures.boom))
             true true 2 in
  App.registrationComplete s = true
  \/ (App.retryTimer s = true
      /\ App.attempts s = (4 * (2 + 1))%nat
      /\ exists msg, App.initError s = Some msg /\ str_truthy msg = true).
Proof.
  apply (registration_keeps_retrying unit unit unit
           (fun _ => Some (Fixtures.rejecting Fixtures.boom)) true true).
  reflexivity.
Defined.

(* ================================================================== *)
(** * The payment flow: what it records and which token it uses *)
(* ================================================================== *)

Section FlowRecords.

Variables QPayCredentials PaymentRecord InvoiceRecord : Type.
Variable host : Host.

(** X8. When the mutation function of [useMakeQPayPayment] throws, no
    payment is recorded.  When it returns, exactly one payment is
    recorded, with the status [pending] and the amount of the invoice it
    returns: the amount of the check on the reuse path, the amount of the
    backend's response on the create path, where the returned token is
    truthy and is the one the invoice was created with.  The invoice data
    it returns is a text that [JSON.parse] accepts. *)
Theorem payment_recorded_once :
  forall actor : option (Actor QPayCredentials PaymentRecord InvoiceRecord),
  let m := PaymentFlow.useMakeQPayPayment_mutationFn host actor in
  match result m with
  | Return r =>
      exists a invoiceCheck,
        actor = Some a
        /\ checkForValidInvoice a = Return invoiceCheck
        /\ (exists parsed,
              JSON_parse host (PaymentFlow.response_invoiceData r)
              = Return parsed
              /\ read_prop host parsed (lit "invoice_id")
                 = Return (PaymentFlow.response_invoiceId r))
        /\ match PaymentFlow.existing_invoice invoiceCheck with
           | Some (data, amt) =>
               Trace.records (trace m) = [(amt, lit "pending")]
               /\ PaymentFlow.response_invoiceData r = data
           | None =>
               exists invoiceResponse,
                 getValidOrCreateInvoice a (PaymentFlow.response_token r)
                 = Return invoiceResponse
                 /\ truthy (PaymentFlow.response_token r) = true
                 /\ Trace.records (trace m)
                    = [(amount invoiceResponse, lit "pending")]
                 /\ PaymentFlow.response_invoiceData r
                    = Backend.invoiceData invoiceResponse
           end
  | Throw _ => Trace.records (trace m) = []
  end.
Proof.
  intros actor m. subst m.
  destruct actor as [a|]; [|reflexivity].
  destruct (checkForValidInvoice a) as [ic|e] eqn:Hc;
    [|unfold_flow; rewrite Hc; reflexivity].
  destruct (PaymentFlow.existing_invoice ic) as [[data amt]|] eqn:He;
    unfold_flow; rewrite Hc; simpl; rewrite He; simpl.
  - split_run; try reflexivity.
    all: exists a, ic; rewrite He.
    all: split; [reflexivity|]; split; [exact Hc|].
    all: split; [|split; reflexivity].
    all: eexists; split; [eassumption|].
    all: match goal with
         | H : get_prop ?j (lit "invoice_id") = _
           |- context [get_prop ?j _] => now rewrite H
         end.
  - split_run; try reflexivity.
    all: exists a, ic; rewrite He.
    all: split; [reflexivity|]; split; [exact Hc|].
    all: (split; [eexists; split; [eassumption|];
                  match goal with
                  | H : get_prop ?j (lit "invoice_id") = _
                    |- context [get_prop ?j _] => now rewrite H
                  end |]).
    all: eexists; split; [eassumption|].
    all: split; [now apply negb_false_iff|].
    all: split; reflexivity.
Qed.

(** X9. A token response that cannot be parsed, or that carries no
    truthy [access_token], ends the create path with the error
    [Failed to parse token] right after the token request; on the reuse
    path the flow goes on with a falsy token and makes no further backend
    call. *)
Theorem token_failure_by_path :
  forall (a : Actor QPayCredentials PaymentRecord InvoiceRecord)
         invoiceCheck tokenResponse,
  checkForValidInvoice a = Return invoiceCheck ->
  makeQPayTokenRequest a = Return tokenResponse ->
  (forall token,
     result (PaymentFlow.access_token host tokenResponse) = Return token ->
     truthy token = false) ->
  let m := PaymentFlow.useMakeQPayPayment_mutationFn host (Some a) in
  match PaymentFlow.existing_invoice invoiceCheck with
  | Some (data, amt) =>
      calls (trace m) = [C_checkForValidInvoice; C_makeQPayTokenRequest]
      /\ exists token,
           truthy token = false
           /\ result m
              = result (PaymentFlow.finish_payment host (Some a)
                          {| Backend.invoiceData := data;
                             isNewInvoice := false; amount := amt |} token)
  | None =>
      m = ([Toast Info (lit "Checking invoice...");
            Call C_checkForValidInvoice;
            Toast Info (lit "Requesting QPay token...");
            Call C_makeQPayTokenRequest],
           Throw (mkError (lit "Failed to parse token")))
  end.
Proof.
  intros a ic tr Hc Ht Hbad m. subst m.
  revert Hbad.
  destruct (PaymentFlow.existing_invoice ic) as [[data amt]|] eqn:He;
    unfold_flow; rewrite Hc; simpl; rewrite He; simpl; rewrite Ht; simpl;
    intros Hbad.
  - destruct (JSON_parse host tr) as [j|e]; simpl in *;
      [destruct (get_prop j (lit "access_token")) as [v|]; simpl in *|].
    + split; [split_run; reflexivity|].
      exists v. split; [now apply Hbad|]. split_run; reflexivity.
    + split; [split_run; reflexivity|].
      exists null. split; [reflexivity|]. split_run; reflexivity.
    + split; [split_run; reflexivity|].
      exists null. split; [reflexivity|]. split_run; reflexivity.
  - destruct (JSON_parse host tr) as [j|e]; simpl in *;
      [destruct (get_prop j (lit "access_token")) as [v|]; simpl in *|];
      try reflexivity.
    rewrite (Hbad v eq_refl). reflexivity.
Qed.

(** X10. Every token the mutation function of [useMakeQPayPayment]
    hands to [getValidOrCreateInvoice] is truthy. *)
Theorem create_token_truthy :
  forall actor : option (Actor QPayCredentials PaymentRecord InvoiceRecord),
  forallb truthy
    (Trace.create_tokens
       (trace (PaymentFlow.useMakeQPayPayment_mutationFn host actor))) = true.
Proof.
  intros actor. unfold_flow. simpl.
  split_run; try reflexivity.
  all: cbn; rewrite andb_true_r; now apply negb_false_iff.
Qed.

End FlowRecords.

Lemma token_failure_by_path_witness :
  PaymentFlow.useMakeQPayPayment_mutationFn
    {| JSON_parse := fun _ => Throw Fixtures.boom;
       nullPropertyError := fun _ => Fixtures.boom |}
    (Some Fixtures.creating)
  = ([Toast Info (lit "Checking invoice...");
      Call C_checkForValidInvoice;
      Toast Info (lit "Requesting QPay token...");
      Call C_makeQPayTokenRequest],
     Throw (mkError (lit "Failed to parse token"))).
Proof.
  apply (token_failure_by_path unit unit unit
           {| JSON_parse := fun _ => Throw Fixtures.boom;
              nullPropertyError := fun _ => Fixtures.boom |}
           Fixtures.creating
           {| hasValidInvoice := false; check_invoiceData := None;
              check_amount := None |}
           Fixtures.token_json).
  - reflexivity.
  - reflexivity.
  - intros token H. discriminate H.
Defined.

(* ================================================================== *)
(** * handlePay: what the dashboard shows afterwards *)
(* ================================================================== *)

Section HandlePayOutcome.

Import UserDashboard Polling DashboardView.

Lemma keeps_form_andThen : forall f g,
  keeps_form f -> keeps_form g -> keeps_form (andThen f g).
Proof.
  intros f g Hf Hg s. rewrite snd_andThen. now rewrite Hg, Hf.
Qed.

Lemma keeps_form_if : forall (b : bool) f g,
  keeps_form f -> keeps_form g -> keeps_form (if b then f else g).
Proof. intros [] f g Hf Hg; assumption. Qed.

Lemma keeps_form_stop_polling : keeps_form stop_polling.
Proof.
  intros s. unfold stop_polling.
  destruct (pollingIntervalRef s) as [[|n]|]; reflexivity.
Qed.

Lemma keeps_form_commit : forall fresh, keeps_form (commit fresh).
Proof.
  intros fresh s. unfold commit.
  destruct (mounted s); [|reflexivity].
  repeat (apply keeps_form_andThen || apply keeps_form_if).
  all: try (intros s'; reflexivity).
  - intros s'. unfold run_redirect_cleanup.
    destruct (redirect_cleanup s'); reflexivity.
  - intros s'. unfold run_polling_cleanup.
    destruct (polling_cleanup s'); [|reflexivity].
    rewrite snd_andThen. simpl. apply keeps_form_stop_polling.
  - intros s'. unfold redirect_effect.
    destruct (status_eqb (paymentStatus s') paid); [|reflexivity].
    rewrite snd_andThen. simpl. apply keeps_form_stop_polling.
  - intros s'. unfold polling_effect.
    destruct (payment_pending s'); [|reflexivity].
    rewrite 2 snd_andThen. simpl.
    destruct (pollingIntervalRef s') as [[|n]|]; reflexivity.
Qed.

Lemma commit_mounted : forall fresh s,
  mounted (snd (commit fresh s)) = mounted s.
Proof.
  intros fresh s. pose proof (keeps_ui_commit fresh s) as H.
  unfold ui in H. now injection H.
Qed.

(** The timer runs exactly while a payment is pending. *)
Lemma inv_intervals : forall s,
  inv s -> mounted s = true ->
  (intervals s <> [] <-> payment_pending s = true).
Proof.
  intros s Hi Hm. split.
  - intros Hne. destruct (payment_pending s) eqn:Hp; [reflexivity|].
    exfalso. apply Hne. apply inv_not_pending; [exact Hi|].
    now rewrite Hm, Hp.
  - intros Hp. destruct (inv_pending s Hi Hm Hp) as (id & -> & _).
    discriminate.
Qed.

Lemma pay_step_form : forall i fresh s,
  form (snd (step i fresh s))
  = match i with
    | Unmount => form (snd (unmount s))
    | _ => form (snd (handle i s))
    end.
Proof.
  intros i fresh s.
  destruct i; try reflexivity; unfold step; rewrite snd_andThen;
    apply keeps_form_commit.
Qed.

Lemma handle_pay_form : forall s,
  mounted s = true ->
  (forall i,
     match i with
     | PayStarted | PayResolved _ _ | PayRejected _ => True
     | _ => False
     end ->
     mounted (snd (handle i s)) = true)
  /\ form (snd (handle PayStarted s))
     = (invoiceData s, paymentToken s, showQRModal s, None, pending,
        hasCheckedOnLoad s)
  /\ (forall parsedResponse token,
        form (snd (handle (PayResolved parsedResponse token) s))
        = (parsedResponse, token, showQRModal s, paymentError s,
           paymentStatus s, hasCheckedOnLoad s))
  /\ (forall errorMessage,
        form (snd (handle (PayRejected errorMessage) s))
        = (invoiceData s, paymentToken s, showQRModal s, Some errorMessage,
           paymentStatus s, hasCheckedOnLoad s)).
Proof.
  intros s Hm. destruct s. simpl in Hm. subst.
  repeat split. intros []; simpl; intros H; try contradiction; reflexivity.
Qed.

Variables QPayCredentials PaymentRecord InvoiceRecord : Type.
Variable host : Host.

Lemma mutateAsync_result : forall A (fn : M A) onSuccess onError,
  result (mutateAsync fn onSuccess onError) = result fn.
Proof.
  intros A [l [a|e]] ons one; unfold mutateAsync, result; simpl.
  - now destruct (ons a).
  - now destruct (one e).
Qed.

(** The invoice data the payment flow returns has been parsed on the
    way. *)
Lemma returned_invoice_parses :
  forall (actor : option (Actor QPayCredentials PaymentRecord InvoiceRecord))
         response,
  result (PaymentFlow.useMakeQPayPayment_mutationFn host actor)
  = Return response ->
  exists parsed,
    JSON_parse host (PaymentFlow.response_invoiceData response)
    = Return parsed.
Proof.
  intros actor r. unfold_flow. simpl.
  split_run; intros H; try discriminate H; injection H as <-; simpl; eauto.
Qed.

Lemma handlePay_state :
  forall (actor : option (Actor QPayCredentials PaymentRecord InvoiceRecord))
         (fresh : bool) (s : state),
  snd (handlePay host actor fresh s)
  = snd (step
           (match PaymentFlow.makePayment_mutateAsync host actor with
            | (_, Return response) =>
                match JSON_parse host
                        (PaymentFlow.response_invoiceData response) with
                | Return parsedResponse =>
                    PayResolved (VJson parsedResponse)
                      (PaymentFlow.response_token response)
                | Throw error => PayRejected (message error)
                end
            | (_, Throw error) => PayRejected (message error)
            end)
           fresh (snd (step PayStarted fresh s))).
Proof.
  intros actor fresh s. unfold handlePay.
  destruct (step PayStarted fresh s) as [l0 s0]. cbn [snd].
  destruct (PaymentFlow.makePayment_mutateAsync host actor) as [l [r|e]];
    [destruct (JSON_parse host _)|]; cbn [snd fst];
    now destruct (step _ fresh s0).
Qed.


End HandlePayOutcome.


(* ================================================================== *)
(** * The profile form: a name that is not blank *)
(* ================================================================== *)

Lemma blank_app : forall s t, blank (s ++ t) = blank s && blank t.
Proof. intros s t. unfold blank. apply forallb_app. Qed.

Lemma blank_rev : forall s, blank (rev s) = blank s.
Proof.
  induction s as [|c s IH]; [reflexivity|].
  simpl rev. rewrite blank_app, IH. simpl.
  rewrite andb_true_r. apply andb_comm.
Qed.

Lemma blank_trimStart : forall s, blank (trimStart s) = blank s.
Proof.
  induction s as [|c s IH]; [reflexivity|].
  simpl. destruct (isWhiteSpace c) eqn:E; [exact IH|].
  simpl. now rewrite E.
Qed.

Lemma blank_trim : forall s, blank (trim s) = blank s.
Proof.
  intros s. unfold trim, trimEnd.
  now rewrite blank_rev, blank_trimStart, blank_rev, blank_trimStart.
Qed.

Lemma not_blank_truthy : forall s, blank s = false -> str_truthy s = true.
Proof. intros [|c s]; [discriminate|reflexivity]. Qed.

(** X12. For a name that is not blank and an available actor,
    [handleSubmit] calls [saveCallerUserProfile] exactly once, with the
    trimmed name: the validation of the hook never rejects what the form
    submits.  Success invalidates the two queries, reports it and sets
    [showSuccess]; a failure is reported with its message and leaves
    [showSuccess] as it was. *)
Theorem non_blank_name_is_saved :
  forall (QPayCredentials PaymentRecord InvoiceRecord : Type)
         (a : Actor QPayCredentials PaymentRecord InvoiceRecord)
         (name : jsstring) (showSuccess : bool),
  blank name = false ->
  let profile := {| Eff.name := trim name |} in
  ProfileSetupModal.handleSubmit (Some a) name showSuccess
  = match saveCallerUserProfile a profile with
    | Return _ =>
        ([Call (C_saveCallerUserProfile profile);
          Invalidate (lit "currentUserProfile");
          Invalidate (lit "currentUserRole");
          Toast Success (lit "Profile saved successfully")], true)
    | Throw error =>
        ([Call (C_saveCallerUserProfile profile);
          Toast Failure (lit "Failed to save profile: " ++ message error)],
         showSuccess)
    end.
Proof.
  intros Q P I a name showSuccess Hb profile.
  assert (H1 : str_truthy (trim name) = true).
  { apply not_blank_truthy. now rewrite blank_trim. }
  assert (H2 : str_truthy (trim (trim name)) = true).
  { apply not_blank_truthy. now rewrite 2 blank_trim. }
  unfold ProfileSetupModal.handleSubmit. rewrite H1. cbn [negb].
  unfold ProfileSetupModal.saveProfile_mutate,
    UseQueries.useSaveCallerUserProfile_mutationFn.
  cbn [Eff.name]. rewrite H1, H2. cbn [negb orb].
  unfold await_call. fold profile.
  destruct (saveCallerUserProfile a profile) as [u|e]; reflexivity.
Qed.

Lemma non_blank_name_is_saved_witness :
  ProfileSetupModal.handleSubmit (Some (Fixtures.rejecting Fixtures.boom))
    (lit " Bat ") false
  = ([Call (C_saveCallerUserProfile {| Eff.name := lit "Bat" |});
      Toast Failure (lit "Failed to save profile: boom")], false).
Proof.
  apply (non_blank_name_is_saved unit unit unit
           (Fixtures.rejecting Fixtures.boom) (lit " Bat ") false).
  reflexivity.
Defined.

(* ================================================================== *)
(** * The retry delay of the registration *)
(* ================================================================== *)

(** X7. The retry delay of the registration lies between 1000 and
    5000 ms, never decreases with the attempt index, and is 5000 ms from
    the index 3 on. *)
Theorem retry_delay_bounds : forall attemptIndex : nat,
  (1000 <= UseQueries.useEnsureUserRegistration_retryDelay attemptIndex
   <= 5000)%Z
  /\ (UseQueries.useEnsureUserRegistration_retryDelay attemptIndex
      <= UseQueries.useEnsureUserRegistration_retryDelay (S attemptIndex))%Z
  /\ ((3 <= attemptIndex)%nat ->
      UseQueries.useEnsureUserRegistration_retryDelay attemptIndex = 5000%Z).
Proof.
  intros i. unfold UseQueries.useEnsureUserRegistration_retryDelay.
  assert (Hpos : (1 <= 2 ^ Z.of_nat i)%Z).
  { apply (Z.pow_le_mono_r 2 0); lia. }
  assert (Hmono : (2 ^ Z.of_nat i <= 2 ^ Z.of_nat (S i))%Z).
  { apply Z.pow_le_mono_r; lia. }
  repeat split; try lia.
  intros H3.
  assert (8 <= 2 ^ Z.of_nat i)%Z.
  { apply (Z.pow_le_mono_r 2 3); lia. }
  lia.
Qed.

(* ================================================================== *)
(** * The admin dashboard *)
(* ================================================================== *)


Section AdminFormRuns.

Import AdminDashboard AdminForms.

Lemma step_keeps_credentials : forall i credentials invoiceConfig s,
  isCredentialsFormDirty s = true ->
  keeps_credentials (credentialsForm s) i = true ->
  credentialsForm (step i credentials invoiceConfig s) = credentialsForm s
  /\ isCredentialsFormDirty (step i credentials invoiceConfig s) = true.
Proof.
  intros i cr cf s Hd Hk. unfold step, sync.
  destruct i as [f v|c|[a|]|[a|]|]; simpl in *; try discriminate Hk.
  - rewrite Hd. now destruct cr as [[c'|]|].
  - unfold handleSaveCredentials. rewrite Hd.
    destruct (saveQPayCredentials a (credentialsForm s)); [discriminate|].
    simpl. rewrite Hd. now destruct cr as [[c'|]|].
  - unfold handleSaveCredentials. rewrite Hd. simpl. rewrite Hd.
    now destruct cr as [[c'|]|].
  - unfold handleSaveInvoiceConfig.
    destruct (isConfigFormDirty s);
      [destruct (saveQPayInvoiceConfig a _)|]; simpl; rewrite Hd;
      now destruct cr as [[c'|]|].
  - unfold handleSaveInvoiceConfig.
    destruct (isConfigFormDirty s); simpl; rewrite Hd;
      now destruct cr as [[c'|]|].
  - rewrite Hd. now destruct cr as [[c'|]|].
Qed.

Lemma step_keeps_config : forall i credentials invoiceConfig s,
  isConfigFormDirty s = true ->
  keeps_config (invoiceConfigForm s) i = true ->
  invoiceConfigForm (step i credentials invoiceConfig s) = invoiceConfigForm s
  /\ isConfigFormDirty (step i credentials invoiceConfig s) = true.
Proof.
  intros i cr cf s Hd Hk. unfold step, sync.
  destruct i as [f v|c|[a|]|[a|]|]; simpl in *; try discriminate Hk.
  - rewrite Hd. now destruct cf as [c'|].
  - unfold handleSaveCredentials.
    destruct (isCredentialsFormDirty s);
      [destruct (saveQPayCredentials a _)|]; simpl; rewrite Hd;
      now destruct cf as [c'|].
  - unfold handleSaveCredentials.
    destruct (isCredentialsFormDirty s); simpl; rewrite Hd;
      now destruct cf as [c'|].
  - unfold handleSaveInvoiceConfig. rewrite Hd.
    destruct (saveQPayInvoiceConfig a (invoiceConfigForm s)); [discriminate|].
    simpl. rewrite Hd. now destruct cf as [c'|].
  - unfold handleSaveInvoiceConfig. rewrite Hd. simpl. rewrite Hd.
    now destruct cf as [c'|].
  - rewrite Hd. now destruct cf as [c'|].
Qed.

(** X14. A form of the admin dashboard that has unsaved edits keeps
    them and stays dirty through renders with any server data, edits and
    saves of the other form, and failed saves of its own: only an edit of
    the form or a successful save of it changes it. *)
Theorem unsaved_edits_survive :
  forall (ins : list (input * option (option QPayCredentials)
                      * option QPayInvoiceConfig)) (s : state),
  (isCredentialsFormDirty s = true ->
   forallb (fun x => keeps_credentials (credentialsForm s) (input_of x)) ins
   = true ->
   credentialsForm (run ins s) = credentialsForm s
   /\ isCredentialsFormDirty (run ins s) = true)
  /\ (isConfigFormDirty s = true ->
      forallb (fun x => keeps_config (invoiceConfigForm s) (input_of x)) ins
      = true ->
      invoiceConfigForm (run ins s) = invoiceConfigForm s
      /\ isConfigFormDirty (run ins s) = true).
Proof.
  induction ins as [|[[i cr] cf] ins IH]; intros s.
  - split; intros Hd _; now split.
  - split; intros Hd Hall; simpl in Hall; apply andb_prop in Hall;
      destruct Hall as [Hi Hall]; unfold input_of in Hi; simpl in Hi;
      simpl run.
    + destruct (step_keeps_credentials i cr cf s Hd Hi) as [Hf Hd'].
      destruct (IH (step i cr cf s)) as [IH1 _].
      rewrite Hf in IH1. now apply IH1.
    + destruct (step_keeps_config i cr cf s Hd Hi) as [Hf Hd'].
      destruct (IH (step i cr cf s)) as [_ IH2].
      rewrite Hf in IH2. now apply IH2.
Qed.

(** X15. A successful save sends the credentials form as it is,
    invalidates the credentials query, reports success and clears the
    dirty flag; the form then shows the credentials the query still
    holds, or stays as it is while the query holds none. *)
Theorem save_shows_cached_data :
  forall (a : saver) credentials invoiceConfig (s : state),
  isCredentialsFormDirty s = true ->
  saveQPayCredentials a (credentialsForm s) = Return tt ->
  let s' := step (SaveCredentials (Some a)) credentials invoiceConfig s in
  fst (handleSaveCredentials (Some a) s)
  = [SaveQPayCredentials (credentialsForm s);
     InvalidateQueries (lit "qpayCredentials");
     Notify Success (lit "QPay credentials saved successfully")]
  /\ isCredentialsFormDirty s' = false
  /\ credentialsForm s'
     = match credentials with
       | Some (Some cached) => cached
       | _ => credentialsForm s
       end.
Proof.
  intros a cr cf s Hd Hs s'. subst s'.
  unfold step, sync, handleSaveCredentials. rewrite Hd, Hs. simpl.
  repeat split.
Qed.

End AdminFormRuns.

Lemma save_shows_cached_data_witness :
  let a := {| AdminDashboard.saveQPayCredentials := fun _ => Return tt;
              AdminDashboard.saveQPayInvoiceConfig := fun _ => Return tt |} in
  let cached := {| AdminDashboard.client_username := lit "old";
                   AdminDashboard.client_password := lit "pw";
                   AdminDashboard.client_invoice := lit "INV" |} in
  let s := AdminDashboard.handleCredentialsInputChange
             AdminDashboard.field_client_username (lit "new")
             AdminDashboard.initial in
  let s' := AdminDashboard.step (AdminDashboard.SaveCredentials (Some a))
              (Some (Some cached)) None s in
  fst (AdminDashboard.handleSaveCredentials (Some a) s)
  = [AdminDashboard.SaveQPayCredentials (AdminDashboard.credentialsForm s);
     AdminDashboard.InvalidateQueries (lit "qpayCredentials");
     AdminDashboard.Notify Success
       (lit "QPay credentials saved successfully")]
  /\ AdminDashboard.isCredentialsFormDirty s' = false
  /\ AdminDashboard.credentialsForm s' = cached.
Proof.
  apply (save_shows_cached_data
           {| AdminDashboard.saveQPayCredentials := fun _ => Return tt;
              AdminDashboard.saveQPayInvoiceConfig := fun _ => Return tt |}
           (Some (Some {| AdminDashboard.client_username := lit "old";
                          AdminDashboard.client_password := lit "pw";
                          AdminDashboard.client_invoice := lit "INV" |}))
           None
           (AdminDashboard.handleCredentialsInputChange
              AdminDashboard.field_client_username (lit "new")
              AdminDashboard.initial)).
  - reflexivity.
  - reflexivity.
Defined.

(* ================================================================== *)
(** * The redirect timer *)
(* ================================================================== *)

Section RedirectTimerProofs.

Import UserDashboard Polling DashboardView RedirectTimer.

Ltac conjuncts := repeat match goal with |- _ /\ _ => split end.

Lemma keeps_redirect_status_step : forall h,
  keeps_redirect h -> status_step h.
Proof.
  intros h H s. destruct (H s) as (Hm & Hc & Ht & Hn & Hd & Hp).
  conjuncts; try assumption; try congruence.
  intros H'. split; congruence.
Qed.

Lemma keeps_redirect_andThen : forall f g,
  keeps_redirect f -> keeps_redirect g -> keeps_redirect (andThen f g).
Proof.
  intros f g Hf Hg s. rewrite snd_andThen.
  destruct (Hf s) as (Hm & Hc & Ht & Hn & Hd & Hp).
  destruct (Hg (snd (f s))) as (Hm' & Hc' & Ht' & Hn' & Hd' & Hp').
  conjuncts; try congruence; lia.
Qed.

Lemma status_step_andThen : forall f g,
  status_step f -> status_step g -> status_step (andThen f g).
Proof.
  intros f g Hf Hg s. rewrite snd_andThen.
  destruct (Hf s) as (Hm & Hc & Ht & Hn & Hu & Hd).
  destruct (Hg (snd (f s))) as (Hm' & Hc' & Ht' & Hn' & Hu' & Hd').
  conjuncts; try congruence; try lia.
  - intros H. rewrite Hu' by congruence. now apply Hu.
  - intros H. destruct (Hd' H) as [H1 H2]. destruct (Hd H1) as [H3 H4].
    split; congruence.
Qed.

Lemma keeps_redirect_setInvoiceData : forall v,
  keeps_redirect (setInvoiceData v).
Proof.
  intros v s. unfold setInvoiceData.
  destruct (mounted s) eqn:Hm; simpl; conjuncts; auto.
Qed.

Lemma keeps_redirect_setPaymentToken : forall v,
  keeps_redirect (setPaymentToken v).
Proof.
  intros v s. unfold setPaymentToken.
  destruct (mounted s) eqn:Hm; simpl; conjuncts; auto.
Qed.

Lemma keeps_redirect_setOther : forall qr err checked,
  keeps_redirect (setOther qr err checked).
Proof.
  intros qr err checked s. unfold setOther.
  destruct (mounted s) eqn:Hm; simpl; conjuncts; auto.
Qed.

Lemma keeps_redirect_stop_polling : keeps_redirect stop_polling.
Proof.
  intros s. unfold stop_polling.
  destruct (pollingIntervalRef s) as [[|n]|]; simpl; conjuncts; auto.
Qed.

Lemma status_step_setPaymentStatus : forall p,
  status_step (setPaymentStatus p).
Proof.
  intros p s. unfold setPaymentStatus.
  destruct (mounted s) eqn:Hm; simpl; conjuncts; auto; try discriminate.
  intros H. apply orb_false_elim in H. destruct H as [H1 H2].
  apply negb_false_iff, status_eqb_eq in H2. now split.
Qed.

Lemma status_step_cleanupAndRedirect : status_step cleanupAndRedirect.
Proof.
  unfold cleanupAndRedirect, setPaymentError, setHasCheckedOnLoad,
    setShowQRModal.
  repeat apply status_step_andThen.
  all: try apply status_step_setPaymentStatus.
  all: apply keeps_redirect_status_step.
  all: first [ apply keeps_redirect_stop_polling
             | apply keeps_redirect_setInvoiceData
             | apply keeps_redirect_setPaymentToken
             | idtac ].
  all: intros s; apply keeps_redirect_setOther.
Qed.

Lemma cleanupAndRedirect_form : forall s,
  mounted s = true ->
  form (snd (cleanupAndRedirect s))
  = (null, null, false, None, pending, false).
Proof.
  intros s Hm. unfold cleanupAndRedirect. rewrite 6 snd_andThen.
  unfold stop_polling.
  destruct (pollingIntervalRef s) as [[|n]|]; destruct s; simpl in *; subst;
    reflexivity.
Qed.

Lemma status_step_skip : status_step (fun s => ([], s)).
Proof. intros s. simpl. conjuncts; auto. Qed.

Lemma status_step_emit : forall e : state -> list event,
  status_step (fun s => (e s, s)).
Proof. intros e s. simpl. conjuncts; auto. Qed.

Lemma status_step_setOther : forall qr err checked,
  status_step (setOther qr err checked).
Proof.
  intros qr err checked.
  apply keeps_redirect_status_step, keeps_redirect_setOther.
Qed.

Lemma status_step_setPaymentError : forall e,
  status_step (setPaymentError e).
Proof. intros e s. apply status_step_setOther. Qed.

Lemma status_step_setShowQRModal : forall b,
  status_step (setShowQRModal b).
Proof. intros b s. apply status_step_setOther. Qed.

Lemma status_step_setHasCheckedOnLoad : forall b,
  status_step (setHasCheckedOnLoad b).
Proof. intros b s. apply status_step_setOther. Qed.

Lemma status_step_if : forall (b : state -> bool) f g,
  status_step f -> status_step g ->
  status_step (fun s => if b s then f s else g s).
Proof.
  intros b f g Hf Hg s. specialize (Hf s). specialize (Hg s).
  cbv beta. now destruct (b s).
Qed.

Lemma status_step_handle : forall i,
  (forall id, i <> TimeoutFires id) -> status_step (handle i).
Proof.
  intros i Hi. unfold handle.
  destruct i as [|parsed token|msg|id|id|[[|]|]|invoiceId|[|]| |open| |];
    try (exfalso; now apply (Hi id)).
  all: apply status_step_if; try apply status_step_skip.
  - apply status_step_andThen;
      [apply status_step_setPaymentError|apply status_step_setPaymentStatus].
  - apply status_step_andThen; apply keeps_redirect_status_step;
      [apply keeps_redirect_setInvoiceData
      |apply keeps_redirect_setPaymentToken].
  - apply status_step_setPaymentError.
  - unfold poll. intros s.
    exact (status_step_andThen _ _ (status_step_setPaymentStatus checking)
             (status_step_emit _) s).
  - apply status_step_setPaymentStatus.
  - apply status_step_setPaymentStatus.
  - apply status_step_setPaymentStatus.
  - apply (status_step_if
             (fun s => negb (hasCheckedOnLoad s) && truthy (paymentToken s)));
      [|apply status_step_skip].
    intros s.
    exact (status_step_andThen _ _ (status_step_setHasCheckedOnLoad true)
             (status_step_emit _) s).
  - apply status_step_setPaymentStatus.
  - apply status_step_cleanupAndRedirect.
  - apply status_step_setShowQRModal.
Qed.

Lemma redirect_inv_pre : forall s, redirect_inv s -> redirect_pre s.
Proof.
  intros s [Hd H]. unfold redirect_pre.
  destruct (redirect_cleanup s) as [id|].
  - destruct H as (Hm & Hp & Ht & Hn). conjuncts; auto.
  - destruct H as (Ht & Hp). conjuncts; auto.
Qed.

Lemma handle_redirect_pre : forall i s,
  redirect_inv s -> redirect_pre (snd (handle i s)).
Proof.
  intros i s Hinv.
  assert (Hother : (forall id, i <> TimeoutFires id) ->
                   redirect_pre (snd (handle i s))).
  { intros Hi.
    destruct (status_step_handle i Hi s) as (Hm & Hc & Ht & Hn & Hu & Hd).
    destruct Hinv as [Hclean H]. unfold redirect_pre. rewrite Hc, Hm, Ht.
    destruct (redirect_cleanup s) as [id|].
    - destruct H as (Hms & Hp & Hts & Hns). conjuncts; [exact Hms|lia|].
      left. split; [exact Hts|]. intros H0. destruct (Hd H0). congruence.
    - destruct H as (Hts & Hp). conjuncts; [exact Hts| |].
      + intros Hms H0. destruct (Hd H0) as [_ ->]. now apply Hp.
      + intros Hms. rewrite (Hu Hms). exact Hclean. }
  destruct i; try (apply Hother; intros id'; discriminate).
  unfold handle. destruct (active id (timeouts s)) eqn:Ha;
    [|now apply redirect_inv_pre].
  destruct Hinv as [Hclean H].
  destruct (redirect_cleanup s) as [id'|] eqn:Hc;
    [|destruct H as [Ht _]; rewrite Ht in Ha; discriminate].
  destruct H as (Hm & Hp & Ht & Hn).
  assert (id' = id) as ->.
  { rewrite Ht in Ha. simpl in Ha. rewrite orb_false_r in Ha.
    now apply Nat.eqb_eq. }
  rewrite snd_andThen. cbn [snd].
  match goal with
  | |- redirect_pre (snd (cleanupAndRedirect ?s0)) =>
      remember s0 as s1 eqn:Hs1
  end.
  assert (Hm1 : mounted s1 = true) by (subst s1; exact Hm).
  assert (Hc1 : redirect_cleanup s1 = Some id) by (subst s1; exact Hc).
  assert (Hp1 : paymentStatus s1 = paid) by (subst s1; exact Hp).
  assert (Hn1 : next_timer s1 = next_timer s) by (subst s1; reflexivity).
  assert (Ht1 : timeouts s1 = []).
  { subst s1. cbn [timeouts with_browser]. rewrite Ht. unfold remove_timer.
    simpl. now rewrite Nat.eqb_refl. }
  destruct (status_step_cleanupAndRedirect s1)
    as (Hm2 & Hc2 & Ht2 & Hn2 & _ & Hd2).
  pose proof (cleanupAndRedirect_form s1 Hm1) as Hf.
  unfold form in Hf. injection Hf as _ _ _ _ Hp2 _.
  unfold redirect_pre. rewrite Hc2, Hc1.
  conjuncts; [congruence|lia|].
  right. split; [congruence|].
  destruct (redirect_dirty (snd (cleanupAndRedirect s1))) eqn:Hd;
    [reflexivity|].
  destruct (Hd2 eq_refl) as [_ H]. congruence.
Qed.

Lemma redirect_held_keeps : forall h s,
  keeps_redirect h -> redirect_held s -> redirect_held (snd (h s)).
Proof.
  intros h s Hk [Hm H]. destruct (Hk s) as (Hm' & Hc & Ht & Hn & _ & Hp).
  unfold redirect_held. rewrite Hm', Hc, Ht, Hp. split; [exact Hm|].
  destruct (redirect_cleanup s) as [id|]; [|exact H].
  destruct H as (H1 & H2 & H3). conjuncts; auto. lia.
Qed.

Lemma keeps_redirect_skip : keeps_redirect skip.
Proof. intros s. simpl. conjuncts; auto. Qed.

Lemma keeps_redirect_if : forall (b : bool) f g,
  keeps_redirect f -> keeps_redirect g -> keeps_redirect (if b then f else g).
Proof. intros [] f g Hf Hg; assumption. Qed.

Lemma keeps_redirect_run_polling_cleanup : keeps_redirect run_polling_cleanup.
Proof.
  intros s. unfold run_polling_cleanup.
  destruct (polling_cleanup s); [|apply keeps_redirect_skip].
  apply keeps_redirect_andThen; [apply keeps_redirect_stop_polling|].
  intros s'. simpl. conjuncts; auto.
Qed.

Lemma keeps_redirect_polling_effect : keeps_redirect polling_effect.
Proof.
  intros s. unfold polling_effect.
  destruct (payment_pending s); [|simpl; conjuncts; auto].
  apply keeps_redirect_andThen.
  - intros s'. destruct (pollingIntervalRef s') as [[|n]|]; simpl;
      conjuncts; auto.
  - apply keeps_redirect_andThen; intros s'; simpl; conjuncts; auto.
Qed.

(** The cleanup of the redirect effect clears the timeout, fired or
    not. *)
Lemma run_redirect_cleanup_clears : forall s,
  redirect_pre s -> mounted s = true ->
  let s1 := snd (run_redirect_cleanup s) in
  mounted s1 = true /\ redirect_cleanup s1 = None /\ timeouts s1 = []
  /\ paymentStatus s1 = paymentStatus s /\ next_timer s1 = next_timer s.
Proof.
  intros s Hpre Hm. unfold redirect_pre in Hpre. unfold run_redirect_cleanup.
  destruct (redirect_cleanup s) as [id|] eqn:Hc.
  - destruct Hpre as (_ & _ & [[Ht _]|[Ht _]]); rewrite snd_andThen; simpl;
      rewrite Ht; unfold remove_timer; simpl; rewrite ?Nat.eqb_refl; simpl;
      conjuncts; auto.
  - destruct Hpre as (Ht & _). simpl. conjuncts; auto.
Qed.

Lemma redirect_effect_held : forall s,
  mounted s = true -> redirect_cleanup s = None -> timeouts s = [] ->
  redirect_held (snd (redirect_effect s)).
Proof.
  intros s Hm Hc Ht. unfold redirect_effect.
  destruct (status_eqb (paymentStatus s) paid) eqn:Hp.
  - apply status_eqb_eq in Hp. rewrite snd_andThen.
    destruct (keeps_redirect_stop_polling s)
      as (Hm' & Hc' & Ht' & Hn' & _ & Hp').
    unfold redirect_held. simpl. rewrite Hm', Ht', Hp', Ht.
    conjuncts; auto.
  - unfold redirect_held. simpl. conjuncts; auto.
    intros H. rewrite H in Hp. discriminate.
Qed.

Lemma redirect_held_clear_dirty : forall s,
  redirect_held s -> redirect_inv (snd (clear_dirty s)).
Proof.
  intros s [Hm H]. unfold redirect_inv. simpl. split; [reflexivity|].
  destruct (redirect_cleanup s) as [id|].
  - destruct H as (H1 & H2 & H3). conjuncts; auto.
  - destruct H as (H1 & H2). conjuncts; auto.
Qed.

Lemma commit_redirect : forall fresh s,
  redirect_pre s -> redirect_inv (snd (commit fresh s)).
Proof.
  intros fresh s Hpre. unfold commit.
  destruct (mounted s) eqn:Hm.
  - rewrite 4 snd_andThen.
    apply redirect_held_clear_dirty.
    apply redirect_held_keeps;
      [apply keeps_redirect_if;
       [apply keeps_redirect_polling_effect|apply keeps_redirect_skip]|].
    destruct (redirect_dirty s) eqn:Hd.
    + destruct (run_redirect_cleanup_clears s Hpre Hm)
        as (Hm1 & Hc1 & Ht1 & _).
      match goal with
      | |- redirect_held (snd (redirect_effect (snd (?h ?s1)))) =>
          assert (Hk : keeps_redirect h)
            by (apply keeps_redirect_if;
                [apply keeps_redirect_run_polling_cleanup
                |apply keeps_redirect_skip]);
          destruct (Hk s1) as (Hm2 & Hc2 & Ht2 & _)
      end.
      apply redirect_effect_held; congruence.
    + cbn [skip snd].
      apply redirect_held_keeps;
        [apply keeps_redirect_if;
         [apply keeps_redirect_run_polling_cleanup|apply keeps_redirect_skip]|].
      unfold redirect_held. split; [exact Hm|].
      unfold redirect_pre in Hpre.
      destruct (redirect_cleanup s) as [id|].
      * destruct Hpre as (_ & Hn & [[Ht Hp]|[_ H]]); [|congruence].
        conjuncts; auto.
      * destruct Hpre as (Ht & Hp & _). split; auto.
  - simpl. unfold redirect_pre in Hpre. unfold redirect_inv.
    destruct (redirect_cleanup s) as [id|].
    + destruct Hpre as (H & _). congruence.
    + destruct Hpre as (Ht & _ & Hd). conjuncts; auto. congruence.
Qed.

Lemma unmount_redirect : forall s,
  redirect_inv s -> redirect_inv (snd (unmount s)).
Proof.
  intros s Hinv. unfold unmount.
  destruct (mounted s) eqn:Hm; [|exact Hinv].
  rewrite 3 snd_andThen.
  destruct (run_redirect_cleanup_clears s (redirect_inv_pre s Hinv) Hm)
    as (Hm1 & Hc1 & Ht1 & _).
  destruct (keeps_redirect_andThen _ _ keeps_redirect_run_polling_cleanup
              keeps_redirect_stop_polling (snd (run_redirect_cleanup s)))
    as (_ & _ & Ht2 & _).
  rewrite snd_andThen in Ht2.
  unfold redirect_inv. simpl. conjuncts; auto; [congruence|discriminate].
Qed.

Lemma step_redirect : forall i fresh s,
  redirect_inv s -> redirect_inv (snd (step i fresh s)).
Proof.
  intros i fresh s H.
  assert (Hc : redirect_inv (snd (andThen (handle i) (commit fresh) s))).
  { rewrite snd_andThen. apply commit_redirect, handle_redirect_pre, H. }
  destruct i; try exact Hc. now apply unmount_redirect.
Qed.

Lemma run_redirect : forall ins s,
  redirect_inv s -> redirect_inv (snd (run ins s)).
Proof.
  induction ins as [|[i fresh] ins IH]; intros s H; simpl.
  - exact H.
  - rewrite snd_andThen. apply IH. now apply step_redirect.
Qed.

Lemma initial_redirect : redirect_inv initial.
Proof.
  unfold redirect_inv, initial. simpl. conjuncts; auto. discriminate.
Qed.

Lemma redirect_inv_idle : forall s,
  redirect_inv s ->
  mounted s && status_eqb (paymentStatus s) paid = false ->
  redirect_cleanup s = None /\ timeouts s = [].
Proof.
  intros s [_ H] Hidle.
  destruct (redirect_cleanup s) as [id|].
  - destruct H as (Hm & Hp & _). rewrite Hm, Hp in Hidle. discriminate.
  - now destruct H.
Qed.

(** X16. In every state the dashboard can reach: while it is mounted
    with the status [paid], exactly one timeout is pending, the 2000 ms
    redirect timer, and no polling timer runs; in every other state no
    timeout is pending.  When the redirect timer fires, the dashboard is
    back at the pay screen: invoice, token and error are cleared, the
    status is [pending], the dialog is closed, and no timer of either kind
    is left.  The back button and unmounting leave no timeout pending. *)
Theorem redirect_timer_lifecycle : forall ins : list (input * bool),
  let s := snd (run ins initial) in
  (mounted s = true -> paymentStatus s = paid ->
   exists id, timeouts s = [(id, 2000%Z)] /\ intervals s = [])
  /\ (mounted s && status_eqb (paymentStatus s) paid = false ->
      timeouts s = [])
  /\ (forall id fresh,
        active id (timeouts s) = true ->
        let s' := snd (step (TimeoutFires id) fresh s) in
        mounted s' = true
        /\ form s' = (null, null, false, None, pending, false)
        /\ timeouts s' = [] /\ intervals s' = [])
  /\ (forall fresh, timeouts (snd (step Back fresh s)) = [])
  /\ (forall fresh, timeouts (snd (step Unmount fresh s)) = []).
Proof.
  intros ins s.
  assert (Hr : redirect_inv s) by apply run_redirect, initial_redirect.
  assert (Hp : inv s) by apply run_inv, initial_inv.
  conjuncts.
  - intros Hm Hpaid. destruct Hr as [_ H].
    destruct (redirect_cleanup s) as [id|].
    + destruct H as (_ & _ & Ht & _). exists id. split; [exact Ht|].
      apply inv_not_pending; [exact Hp|].
      unfold payment_pending. rewrite Hpaid. simpl.
      now rewrite andb_false_r, andb_false_r.
    + destruct H as [_ H]. now destruct (H Hm).
  - intros Hidle. now destruct (redirect_inv_idle s Hr Hidle).
  - intros id fresh Ha. cbv zeta.
    assert (Hm : mounted s = true).
    { destruct Hr as [_ H]. destruct (redirect_cleanup s) as [id'|].
      - now destruct H.
      - destruct H as [Ht _]. rewrite Ht in Ha. discriminate. }
    assert (Hf : form (snd (step (TimeoutFires id) fresh s))
                 = (null, null, false, None, pending, false)).
    { rewrite pay_step_form. unfold handle. rewrite Ha, snd_andThen.
      now apply cleanupAndRedirect_form. }
    assert (Hm' : mounted (snd (step (TimeoutFires id) fresh s)) = true).
    { unfold step. rewrite snd_andThen, commit_mounted.
      unfold handle. rewrite Ha, snd_andThen.
      destruct (status_step_cleanupAndRedirect
                  (snd (([] : list event,
                         with_browser (pollingIntervalRef s) (intervals s)
                           (remove_timer id (timeouts s)) (next_timer s) s))))
        as (H & _).
      rewrite H. exact Hm. }
    assert (Hd : invoiceData (snd (step (TimeoutFires id) fresh s)) = null)
      by (unfold form in Hf; congruence).
    assert (Hst : paymentStatus (snd (step (TimeoutFires id) fresh s))
                  = pending)
      by (unfold form in Hf; congruence).
    conjuncts.
    + exact Hm'.
    + exact Hf.
    + apply (redirect_inv_idle _ (step_redirect _ fresh s Hr)).
      rewrite Hst. apply andb_false_r.
    + apply inv_not_pending; [now apply step_inv|].
      unfold payment_pending. rewrite Hd. simpl. apply andb_false_r.
  - intros fresh.
    apply (redirect_inv_idle _ (step_redirect Back fresh s Hr)).
    destruct (mounted (snd (step Back fresh s))) eqn:Hm'; [|reflexivity].
    assert (Hm : mounted s = true).
    { unfold step in Hm'. rewrite snd_andThen, commit_mounted in Hm'.
      destruct (status_step_handle Back
                  ltac:(intros id'; discriminate) s) as (H & _).
      congruence. }
    pose proof (pay_step_form Back fresh s) as Hf. cbv iota in Hf.
    unfold handle in Hf. rewrite Hm in Hf.
    rewrite (cleanupAndRedirect_form s Hm) in Hf.
    assert (Hst : paymentStatus (snd (step Back fresh s)) = pending)
      by (unfold form in Hf; congruence).
    now rewrite Hst.
  - intros fresh.
    apply (redirect_inv_idle _ (step_redirect Unmount fresh s Hr)).
    rewrite unmount_unmounted. reflexivity.
Qed.

End RedirectTimerProofs.

Example redirect_run :
  let invoice := VJson (JObj [(lit "invoice_id", JStr (lit "INV-1"))]) in
  let token := VJson (JStr (lit "T0")) in
  let s := snd (UserDashboard.run
                  [(UserDashboard.PayResolved invoice token, false);
                   (UserDashboard.IntervalFires 1, false);
                   (UserDashboard.CheckSettled (Some true), false)]
                  UserDashboard.initial) in
  UserDashboard.timeouts s = [(3%nat, 2000%Z)]
  /\ UserDashboard.intervals s = []
  /\ UserDashboard.timeouts
       (snd (UserDashboard.step (UserDashboard.TimeoutFires 3) false s)) = []
  /\ DashboardView.form
       (snd (UserDashboard.step (UserDashboard.TimeoutFires 3) false s))
     = (null, null, false, None, UserDashboard.pending, false).
Proof. vm_compute. repeat split; reflexivity. Qed.

(* ================================================================== *)
(** * Status checks need a payment *)
(* ================================================================== *)

Section StatusCheckProofs.

Import UserDashboard Polling DashboardView StatusChecks.

Lemma checkless_andThen : forall f g,
  checkless f -> checkless g -> checkless (andThen f g).
Proof.
  intros f g Hf Hg s. rewrite fst_andThen, existsb_app, Hf, Hg. reflexivity.
Qed.

Lemma checkless_if : forall (b : bool) f g,
  checkless f -> checkless g -> checkless (if b then f else g).
Proof. intros [] f g Hf Hg; assumption. Qed.

Lemma checkless_skip : checkless skip.
Proof. intros s. reflexivity. Qed.

Lemma checkless_setOther : forall qr err checked,
  checkless (setOther qr err checked).
Proof. intros qr err checked s. unfold setOther. now destruct (mounted s). Qed.

Lemma checkless_setPaymentStatus : forall p, checkless (setPaymentStatus p).
Proof. intros p s. unfold setPaymentStatus. now destruct (mounted s). Qed.

Lemma checkless_setInvoiceData : forall v, checkless (setInvoiceData v).
Proof. intros v s. unfold setInvoiceData. now destruct (mounted s). Qed.

Lemma checkless_setPaymentToken : forall v, checkless (setPaymentToken v).
Proof. intros v s. unfold setPaymentToken. now destruct (mounted s). Qed.

Lemma checkless_stop_polling : checkless stop_polling.
Proof.
  intros s. unfold stop_polling.
  destruct (pollingIntervalRef s) as [[|n]|]; reflexivity.
Qed.

Lemma checkless_cleanupAndRedirect : checkless cleanupAndRedirect.
Proof.
  unfold cleanupAndRedirect.
  repeat apply checkless_andThen.
  all: first [ apply checkless_stop_polling | apply checkless_setInvoiceData
             | apply checkless_setPaymentToken
             | apply checkless_setPaymentStatus
             | intros s; apply checkless_setOther ].
Qed.

Lemma checkless_commit : forall fresh, checkless (commit fresh).
Proof.
  intros fresh s. unfold commit.
  destruct (mounted s); [|reflexivity].
  repeat (apply checkless_andThen || apply checkless_if).
  all: try apply checkless_skip.
  - intros s'. unfold run_redirect_cleanup.
    destruct (redirect_cleanup s'); reflexivity.
  - intros s'. unfold run_polling_cleanup.
    destruct (polling_cleanup s'); [|reflexivity].
    apply checkless_andThen; [apply checkless_stop_polling|].
    intros s''. reflexivity.
  - intros s'. unfold redirect_effect.
    destruct (status_eqb (paymentStatus s') paid); [|reflexivity].
    apply checkless_andThen; [apply checkless_stop_polling|].
    intros s''. reflexivity.
  - intros s'. unfold polling_effect.
    destruct (payment_pending s'); [|reflexivity].
    rewrite 2 fst_andThen. simpl.
    destruct (pollingIntervalRef s') as [[|n]|]; reflexivity.
Qed.

Lemma checkless_unmount : checkless unmount.
Proof.
  intros s. unfold unmount.
  destruct (mounted s); [|reflexivity].
  repeat apply checkless_andThen.
  - intros s'. unfold run_redirect_cleanup.
    destruct (redirect_cleanup s'); reflexivity.
  - intros s'. unfold run_polling_cleanup.
    destruct (polling_cleanup s'); [|reflexivity].
    apply checkless_andThen; [apply checkless_stop_polling|].
    intros s''. reflexivity.
  - apply checkless_stop_polling.
  - intros s'. reflexivity.
Qed.

(** Without a token and a timer, no handler sends a check. *)
Lemma handle_unpaid_silent : forall i s,
  unpaid s -> existsb is_status_check (fst (handle i s)) = false.
Proof.
  intros i s [Ht Hi]. unfold handle.
  destruct i as [|parsed token|msg|id|id|[[|]|]|invoiceId|[|]| |open| |].
  all: try (destruct (active _ _) eqn:Ha).
  all: try (destruct (mounted s) eqn:Hm); try reflexivity.
  all: try (rewrite Hi in Ha; discriminate Ha).
  all: try (rewrite Ht, andb_false_r; reflexivity).
  - apply (checkless_andThen _ _ (fun s' => checkless_setOther _ _ _ s')
             (checkless_setPaymentStatus pending) s).
  - apply (checkless_andThen _ _ (checkless_setInvoiceData _)
             (checkless_setPaymentToken _) s).
  - apply checkless_setOther.
  - rewrite fst_andThen, existsb_app. simpl.
    rewrite (checkless_cleanupAndRedirect _). reflexivity.
  - rewrite fst_andThen, existsb_app. simpl.
    rewrite (checkless_cleanupAndRedirect _). reflexivity.
  - apply checkless_setPaymentStatus.
  - apply checkless_setPaymentStatus.
  - apply checkless_setPaymentStatus.
  - apply checkless_setPaymentStatus.
  - apply checkless_cleanupAndRedirect.
  - apply checkless_setOther.
Qed.

Lemma tokenless_andThen : forall f g,
  tokenless f -> tokenless g -> tokenless (andThen f g).
Proof.
  intros f g Hf Hg s H. rewrite snd_andThen. now apply Hg, Hf.
Qed.

Lemma tokenless_keeps_form : forall h, keeps_form h -> tokenless h.
Proof.
  intros h Hk s H. specialize (Hk s). unfold form in Hk.
  assert (E : paymentToken (snd (h s)) = paymentToken s) by congruence.
  now rewrite E.
Qed.

Lemma tokenless_setPaymentStatus : forall p, tokenless (setPaymentStatus p).
Proof.
  intros p s H. unfold setPaymentStatus. now destruct (mounted s).
Qed.

Lemma tokenless_setInvoiceData : forall v, tokenless (setInvoiceData v).
Proof.
  intros v s H. unfold setInvoiceData. now destruct (mounted s).
Qed.

Lemma tokenless_setOther : forall qr err checked,
  tokenless (setOther qr err checked).
Proof.
  intros qr err checked s H. unfold setOther. now destruct (mounted s).
Qed.

Lemma tokenless_cleanupAndRedirect : tokenless cleanupAndRedirect.
Proof.
  unfold cleanupAndRedirect.
  repeat apply tokenless_andThen.
  all: first [ apply tokenless_keeps_form, keeps_form_stop_polling
             | apply tokenless_setInvoiceData
             | apply tokenless_setPaymentStatus
             | idtac ].
  - intros s H. unfold setPaymentToken. now destruct (mounted s).
  - intros s. apply tokenless_setOther.
  - intros s. apply tokenless_setOther.
  - intros s. apply tokenless_setOther.
Qed.

Lemma tokenless_handle : forall i,
  is_pay_resolved i = false -> tokenless (handle i).
Proof.
  intros i Hi s H. unfold handle.
  destruct i as [|parsed token|msg|id|id|[[|]|]|invoiceId|[|]| |open| |];
    try discriminate Hi.
  all: try (destruct (active _ _)).
  all: try (destruct (mounted s) eqn:Hm); try exact H.
  all: try (rewrite H, andb_false_r; exact H).
  - apply (tokenless_andThen _ _ (fun s' => tokenless_setOther _ _ _ s')
             (tokenless_setPaymentStatus pending) s H).
  - now apply tokenless_setOther.
  - unfold poll. rewrite snd_andThen. cbn [snd].
    now apply tokenless_setPaymentStatus.
  - unfold poll. rewrite snd_andThen. cbn [snd].
    now apply tokenless_setPaymentStatus.
  - rewrite snd_andThen. now apply tokenless_cleanupAndRedirect.
  - rewrite snd_andThen. now apply tokenless_cleanupAndRedirect.
  - now apply tokenless_setPaymentStatus.
  - now apply tokenless_setPaymentStatus.
  - now apply tokenless_setPaymentStatus.
  - now apply tokenless_setPaymentStatus.
  - now apply tokenless_cleanupAndRedirect.
  - now apply tokenless_setOther.
Qed.

Lemma keeps_form_unmount : keeps_form unmount.
Proof.
  intros s. unfold unmount. destruct (mounted s); [|reflexivity].
  repeat apply keeps_form_andThen.
  - intros s'. unfold run_redirect_cleanup.
    destruct (redirect_cleanup s'); reflexivity.
  - intros s'. unfold run_polling_cleanup.
    destruct (polling_cleanup s'); [|reflexivity].
    rewrite snd_andThen. simpl. apply keeps_form_stop_polling.
  - apply keeps_form_stop_polling.
  - intros s'. reflexivity.
Qed.

Lemma step_unpaid : forall i fresh s,
  is_pay_resolved i = false -> inv s -> unpaid s ->
  unpaid (snd (step i fresh s))
  /\ existsb is_status_check (fst (step i fresh s)) = false.
Proof.
  intros i fresh s Hi Hinv Hu.
  assert (Ht : truthy (paymentToken (snd (step i fresh s))) = false).
  { destruct Hu as [Ht _].
    destruct i; try discriminate Hi;
      try (unfold step; rewrite snd_andThen;
           apply (tokenless_keeps_form _ (keeps_form_commit fresh));
           now apply tokenless_handle).
    now apply (tokenless_keeps_form _ keeps_form_unmount). }
  split.
  - split; [exact Ht|].
    apply inv_not_pending; [now apply step_inv|].
    unfold payment_pending. rewrite Ht. simpl.
    now rewrite andb_false_r, andb_false_r.
  - destruct i; try discriminate Hi;
      try (unfold step; rewrite fst_andThen, existsb_app,
             (handle_unpaid_silent _ s Hu), (checkless_commit fresh _);
           reflexivity).
    apply checkless_unmount.
Qed.

(** From a state without token and timer, a run without a resolved
    [handlePay] sends no check and ends in such a state. *)
Lemma run_unpaid : forall (ins : list (input * bool)) s,
  inv s -> unpaid s ->
  forallb (fun x => negb (is_pay_resolved (fst x))) ins = true ->
  existsb is_status_check (fst (run ins s)) = false
  /\ unpaid (snd (run ins s)).
Proof.
  induction ins as [|[i fresh] ins IH]; intros s Hinv Hu Hall.
  - split; [reflexivity|exact Hu].
  - simpl in Hall. apply andb_prop in Hall. destruct Hall as [Hi Hall].
    apply negb_true_iff in Hi.
    destruct (step_unpaid i fresh s Hi Hinv Hu) as [Hu' Hs].
    destruct (IH (snd (step i fresh s)) (step_inv i fresh s Hinv) Hu' Hall)
      as [He Hu''].
    simpl run. rewrite fst_andThen, snd_andThen, existsb_app, Hs, He.
    split; [reflexivity|exact Hu''].
Qed.

(** X17. Until a [handlePay] has resolved, the dashboard sends no
    payment-status check, neither from the polling timer nor from the
    check on load, whatever else happens; the token stays falsy and no
    polling timer runs. *)
Theorem status_checks_need_payment : forall ins : list (input * bool),
  forallb (fun x => negb (is_pay_resolved (fst x))) ins = true ->
  no_status_check (fst (run ins initial)) = true
  /\ unpaid (snd (run ins initial)).
Proof.
  intros ins Hall.
  destruct (run_unpaid ins initial initial_inv (conj eq_refl eq_refl) Hall)
    as [He Hu].
  unfold no_status_check. rewrite He. split; [reflexivity|exact Hu].
Qed.

End StatusCheckProofs.

Lemma status_checks_need_payment_witness :
  StatusChecks.no_status_check
    (fst (UserDashboard.run
            [(UserDashboard.PayStarted, false);
             (UserDashboard.AutoCheck (VJson (JStr (lit "INV-1"))), true);
             (UserDashboard.IntervalFires 1, false)]
            UserDashboard.initial)) = true
  /\ StatusChecks.unpaid
       (snd (UserDashboard.run
               [(UserDashboard.PayStarted, false);
                (UserDashboard.AutoCheck (VJson (JStr (lit "INV-1"))), true);
                (UserDashboard.IntervalFires 1, false)]
               UserDashboard.initial)).
Proof.
  apply (status_checks_need_payment
           [(UserDashboard.PayStarted, false);
            (UserDashboard.AutoCheck (VJson (JStr (lit "INV-1"))), true);
            (UserDashboard.IntervalFires 1, false)]).
  reflexivity.
Defined.

(* ================================================================== *)
(** * The pay screen *)
(* ================================================================== *)

(** X18. Once the configuration query of the user dashboard has run,
    the pay screen shows the amount of the backend's configuration, and 10
    when the actor is missing or [getQPayInvoiceConfig] fails.  The
    description is the backend's when that is not empty; it is the English
    default when the backend's is empty or the actor is missing, and the
    description of the hook's fallback configuration when the backend
    fails.  It is never empty. *)
Theorem pay_screen_display :
  forall (QPayCredentials PaymentRecord InvoiceRecord : Type)
         (actor : option (Actor QPayCredentials PaymentRecord InvoiceRecord)),
  let invoiceConfig :=
    Query.data
      (Query.settled (UseQueries.useGetInvoiceConfigForUser_queryFn actor)) in
  PayScreen.displayAmount invoiceConfig
  = Utils.Number_of_BigInt
      (match actor with
       | Some a =>
           match getQPayInvoiceConfig a with
           | Return config => config_amount config
           | Throw _ => 10
           end
       | None => 10
       end)
  /\ PayScreen.displayDescription invoiceConfig
     = match actor with
       | Some a =>
           match getQPayInvoiceConfig a with
           | Return config =>
               if str_truthy (invoice_description config)
               then invoice_description config
               else lit "Railway subscription 12 months"
           | Throw _ => UseQueries.fallback_description
           end
       | None => lit "Railway subscription 12 months"
       end
  /\ str_truthy (PayScreen.displayDescription invoiceConfig) = true.
Proof.
  intros Q P I actor.
  unfold Query.settled, UseQueries.useGetInvoiceConfigForUser_queryFn,
    await_call, try_catch, bind, ret, result.
  destruct actor as [a|]; cbn zeta; [|repeat split].
  destruct (getQPayInvoiceConfig a) as [config|e]; simpl; [|repeat split].
  unfold PayScreen.displayDescription.
  destruct (str_truthy (invoice_description config)) eqn:E; repeat split.
  exact E.
Qed.

(* ================================================================== *)
(** * A reused invoice without a token *)
(* ================================================================== *)

Section ReusedWithoutToken.

Import UserDashboard Polling DashboardView StatusChecks.

Variables QPayCredentials PaymentRecord InvoiceRecord : Type.
Variable host : Host.

(** On the reuse path a token response without a usable token leaves the
    response with a falsy token. *)
Lemma reuse_token_falsy :
  forall (a : Actor QPayCredentials PaymentRecord InvoiceRecord)
         invoiceCheck data amt tokenResponse response,
  checkForValidInvoice a = Return invoiceCheck ->
  PaymentFlow.existing_invoice invoiceCheck = Some (data, amt) ->
  makeQPayTokenRequest a = Return tokenResponse ->
  (forall token,
     result (PaymentFlow.access_token host tokenResponse) = Return token ->
     truthy token = false) ->
  result (PaymentFlow.useMakeQPayPayment_mutationFn host (Some a))
  = Return response ->
  truthy (PaymentFlow.response_token response) = false
  /\ PaymentFlow.response_invoiceData response = data.
Proof.
  intros a ic data amt tr r Hc He Ht Hbad. revert Hbad.
  unfold_flow. rewrite Hc. simpl. rewrite He. simpl. rewrite Ht. simpl.
  intros Hbad.
  destruct (JSON_parse host tr) as [j|e]; simpl in *;
    [destruct (get_prop j (lit "access_token")) as [v|]; simpl in *|].
  all: split_run; intros H; try discriminate H; injection H as <-; simpl.
  all: split; [|reflexivity]; try reflexivity.
  all: now apply Hbad.
Qed.

(** X19. When the check reports a valid invoice and the token response
    carries no usable token, a [handlePay] that succeeds puts the invoice
    on the screen with a falsy token: no polling timer is started, and
    until another [handlePay] resolves no payment-status check is sent,
    whatever else happens. *)
Theorem reused_invoice_without_token_is_not_polled :
  forall (a : Actor QPayCredentials PaymentRecord InvoiceRecord)
         invoiceCheck data amt tokenResponse response
         (fresh : bool) (s : state),
  inv s -> mounted s = true ->
  checkForValidInvoice a = Return invoiceCheck ->
  PaymentFlow.existing_invoice invoiceCheck = Some (data, amt) ->
  makeQPayTokenRequest a = Return tokenResponse ->
  (forall token,
     result (PaymentFlow.access_token host tokenResponse) = Return token ->
     truthy token = false) ->
  result (PaymentFlow.makePayment_mutateAsync host (Some a))
  = Return response ->
  let s' := snd (handlePay host (Some a) fresh s) in
  (exists parsed,
     JSON_parse host data = Return parsed /\ invoiceData s' = VJson parsed)
  /\ unpaid s'
  /\ forall ins : list (input * bool),
       forallb (fun x => negb (is_pay_resolved (fst x))) ins = true ->
       no_status_check (fst (run ins s')) = true.
Proof.
  intros a ic data amt tr r fresh s Hinv Hm Hc He Ht Hbad Hres s'.
  assert (Hfn : result (PaymentFlow.useMakeQPayPayment_mutationFn host
                          (Some a)) = Return r).
  { rewrite <- Hres. unfold PaymentFlow.makePayment_mutateAsync.
    now rewrite mutateAsync_result. }
  destruct (reuse_token_falsy a ic data amt tr r Hc He Ht Hbad Hfn)
    as [Htok Hdata].
  destruct (returned_invoice_parses _ _ _ host (Some a) r Hfn)
    as (parsed & Hp).
  set (s0 := snd (step PayStarted fresh s)).
  destruct (handle_pay_form s Hm) as (Hms & _).
  assert (Hi0 : inv s0) by now apply step_inv.
  assert (Hm0 : mounted s0 = true).
  { unfold s0, step. rewrite snd_andThen, commit_mounted. now apply Hms. }
  destruct (handle_pay_form s0 Hm0) as (_ & _ & Hform & _).
  assert (Hs' : s' = snd (step (PayResolved (VJson parsed)
                                  (PaymentFlow.response_token r)) fresh s0)).
  { unfold s'. rewrite handlePay_state. fold s0. unfold result in Hres.
    destruct (PaymentFlow.makePayment_mutateAsync host (Some a)) as [l o].
    simpl in Hres. subst o. now rewrite Hp. }
  assert (Hf : form s'
               = (VJson parsed, PaymentFlow.response_token r,
                  showQRModal s0, paymentError s0, paymentStatus s0,
                  hasCheckedOnLoad s0)).
  { now rewrite Hs', pay_step_form, Hform. }
  assert (Hi' : inv s') by (rewrite Hs'; now apply step_inv).
  assert (Hd : invoiceData s' = VJson parsed)
    by (unfold form in Hf; congruence).
  assert (Hk : paymentToken s' = PaymentFlow.response_token r)
    by (unfold form in Hf; congruence).
  assert (Hu : unpaid s').
  { split; [now rewrite Hk|].
    apply inv_not_pending; [exact Hi'|].
    unfold payment_pending. rewrite Hk, Htok.
    now rewrite andb_false_r, andb_false_r. }
  split; [exists parsed; split; [now rewrite <- Hdata|exact Hd]|].
  split; [exact Hu|].
  intros ins Hall. unfold no_status_check.
  now destruct (run_unpaid ins s' Hi' Hu Hall) as [-> _].
Qed.

End ReusedWithoutToken.

Lemma reused_invoice_without_token_is_not_polled_witness :
  let host := {| JSON_parse := fun s =>
                   if str_eqb s Fixtures.invoice_json
                   then Return (JObj [(lit "invoice_id",
                                       JStr (lit "INV-1"))])
                   else Throw Fixtures.boom;
                 nullPropertyError := fun _ => Fixtures.boom |} in
  let s' := snd (UserDashboard.handlePay host (Some Fixtures.reusing) false
                   UserDashboard.initial) in
  (exists parsed,
     JSON_parse host Fixtures.invoice_json = Return parsed
     /\ UserDashboard.invoiceData s' = VJson parsed)
  /\ StatusChecks.unpaid s'
  /\ forall ins : list (UserDashboard.input * bool),
       forallb (fun x => negb (StatusChecks.is_pay_resolved (fst x))) ins
       = true ->
       StatusChecks.no_status_check (fst (UserDashboard.run ins s')) = true.
Proof.
  apply (reused_invoice_without_token_is_not_polled unit unit unit
           {| JSON_parse := fun s =>
                if str_eqb s Fixtures.invoice_json
                then Return (JObj [(lit "invoice_id", JStr (lit "INV-1"))])
                else Throw Fixtures.boom;
              nullPropertyError := fun _ => Fixtures.boom |}
           Fixtures.reusing
           {| hasValidInvoice := true;
              check_invoiceData := Some Fixtures.invoice_json;
              check_amount := Some 10%Z |}
           Fixtures.invoice_json 10%Z Fixtures.token_json
           {| PaymentFlow.response_invoiceData := Fixtures.invoice_json;
              PaymentFlow.response_token := null;
              PaymentFlow.response_invoiceId := VJson (JStr (lit "INV-1")) |}
           false UserDashboard.initial).
  - unfold Polling.inv, Polling.pre_commit, Polling.timers_ok,
      Polling.settled, UserDashboard.initial. simpl.
    repeat split; auto; discriminate.
  - reflexivity.
  - reflexivity.
  - reflexivity.
  - reflexivity.
  - intros token H. discriminate H.
  - reflexivity.
Defined.
